(** * SusieVlogStudio: the request service and the submit gate

    A shallow embedding of [services/geminiService] ([generateImage],
    [generateVideo]) and of the submit gate of [components/PromptForm],
    followed by the properties the specification states about them.

    JavaScript strings are sequences of UTF-16 code units, kept here as
    lists of [N].  Objects with optional properties are records whose
    optional fields are [option]s: where the code only tests a property
    for truthiness, [null] and [undefined] behave alike and both are
    [None].  The base64 text of an image is different: the code converts it
    to a string and hands it on as it is, so there [undefined], [null] and
    a string are kept apart ([JsText]).  Asynchronous calls to the outside world (the SDK, [fetch])
    are answered by a [Host]; every such call is written to a trace, so
    that "how often was the status polled" and "was the asset fetched" are
    questions about a list of events.  Calls to [console] are not part of
    the model. *)

From Stdlib Require Import List NArith Bool String Ascii Lia DecimalString Wf_nat.
From Stdlib Require Import PeanoNat.
Import ListNotations.

Local Open Scope N_scope.

(* ------------------------------------------------------------------ *)
(** ** JavaScript values *)

Module JS.

Definition codeunit := N.
Definition jsstring := list codeunit.

(** A string literal of the source, as code units. *)
Definition lit (s : string) : jsstring :=
  map N_of_ascii (list_ascii_of_string s).

(** [String(n)] for a non-negative integer. *)
Definition ofNumber (n : N) : jsstring :=
  lit (NilZero.string_of_uint (N.to_uint n)).

(** Truthiness of a string: only the empty string is falsy. *)
Definition truthy (s : jsstring) : bool :=
  match s with [] => false | _ :: _ => true end.

(** [a || b] where [a] is a string or [undefined]. *)
Definition orElse (a : option jsstring) (b : jsstring) : jsstring :=
  match a with
  | Some s => if truthy s then s else b
  | None => b
  end.

(** [`${a}`] where [a] is a string or [undefined]. *)
Definition interpolate (a : option jsstring) : jsstring :=
  match a with Some s => s | None => lit "undefined" end.

(** A value that is declared a string and may be [undefined] or [null]
    at run time. *)
Inductive JsText :=
| Undefined
| Null
| Text (s : jsstring).
Coercion Text : jsstring >-> JsText.

(** The string conversion applied to the argument of a platform function
    such as [atob]. *)
Definition toText (a : JsText) : jsstring :=
  match a with
  | Undefined => lit "undefined"
  | Null => lit "null"
  | Text s => s
  end.

(** WhiteSpace and LineTerminator of ECMAScript, the code units that
    [String.prototype.trim] removes. *)
Definition isWhiteSpace (c : codeunit) : bool :=
  existsb (N.eqb c)
    [9; 10; 11; 12; 13; 32; 160; 5760; 8232; 8233; 8239; 8287; 12288; 65279]
  || ((8192 <=? c) && (c <=? 8202)).

Fixpoint trimStart (s : jsstring) : jsstring :=
  match s with
  | [] => []
  | c :: r => if isWhiteSpace c then trimStart r else s
  end.

Definition trimEnd (s : jsstring) : jsstring := rev (trimStart (rev s)).

Definition trim (s : jsstring) : jsstring := trimEnd (trimStart s).

(** *** [atob]: the forgiving-base64 decode of the HTML standard.
    [None] stands for the [InvalidCharacterError] it throws. *)

Definition isAsciiWhitespace (c : codeunit) : bool :=
  existsb (N.eqb c) [9; 10; 12; 13; 32].

Definition sextet (c : codeunit) : option N :=
  if (65 <=? c) && (c <=? 90) then Some (c - 65)
  else if (97 <=? c) && (c <=? 122) then Some (c - 71)
  else if (48 <=? c) && (c <=? 57) then Some (c + 4)
  else if c =? 43 then Some 62
  else if c =? 47 then Some 63
  else None.

Fixpoint sextets (s : jsstring) : option (list N) :=
  match s with
  | [] => Some []
  | c :: r =>
      match sextet c, sextets r with
      | Some v, Some vs => Some (v :: vs)
      | _, _ => None
      end
  end.

Definition stripPadding (s : jsstring) : jsstring :=
  if (N.of_nat (List.length s) mod 4 =? 0) then
    match rev s with
    | c1 :: c2 :: r =>
        if c1 =? 61 then (if c2 =? 61 then rev r else rev (c2 :: r)) else s
    | _ => s
    end
  else s.

Fixpoint decodeGroups (l : list N) : list N :=
  match l with
  | a :: b :: c :: d :: rest =>
      let n := a * 262144 + b * 4096 + c * 64 + d in
      (n / 65536) :: ((n / 256) mod 256) :: (n mod 256) :: decodeGroups rest
  | [a; b; c] =>
      let n := (a * 4096 + b * 64 + c) / 4 in
      [n / 256; n mod 256]
  | [a; b] => [(a * 64 + b) / 16]
  | _ => []
  end.

Definition atob (data : jsstring) : option jsstring :=
  let data := filter (fun c => negb (isAsciiWhitespace c)) data in
  let data := stripPadding data in
  if (N.of_nat (List.length data) mod 4 =? 1) then None
  else option_map decodeGroups (sextets data).

(** [new Uint8Array(numbers)]: every element is taken modulo 256. *)
Definition Uint8Array (numbers : list N) : list N :=
  map (fun n => n mod 256) numbers.

(** What a thrown value or a rejected promise carries. *)
Inductive Exn :=
| Error (message : jsstring)        (* [new Error(message)] *)
| InvalidCharacterError             (* thrown by [atob] *)
| URIError                          (* thrown by [decodeURIComponent] *)
| HostFailure (reason : jsstring).  (* a rejected SDK or network call *)

(** The result of a call that may throw, or of a settled promise. *)
Inductive Try (A : Type) :=
| Ok (a : A)
| Err (e : Exn).
Arguments Ok {A} a.
Arguments Err {A} e.

End JS.
Import JS.

(* ------------------------------------------------------------------ *)
(** ** The shared types ([types.ts]) and the SDK's data *)

(** Modelled from the spec: the enumeration [GenerationMode] of [types.ts],
    which is not among the sources; "one of four mutually exclusive
    enumerations", with the member names the service and the form use. *)
Inductive GenerationMode :=
| TEXT_TO_VIDEO
| FRAMES_TO_VIDEO
| REFERENCES_TO_VIDEO
| EXTEND_VIDEO.

(** Modelled from the spec: [AspectRatio], [Resolution] and [VeoModel] of
    [types.ts], with the members the form names. *)
Inductive AspectRatio := LANDSCAPE | PORTRAIT.
Inductive Resolution := P720 | P1080 | P4K.
Inductive VeoModel := VEO | VEO_FAST.

(** A browser [File]: its name, its MIME type and its content. *)
Module File.
Record t := { name : jsstring; type : jsstring; bytes : list N }.
End File.

(** Modelled from the spec: [ImageFile] of [types.ts], "raw bytes + MIME
    type" together with the base64 text, as [fileToBase64] builds it. *)
Module ImageFile.
Record t := { file : File.t; base64 : JsText }.
End ImageFile.

Module VideoFile.
Record t := { file : File.t; base64 : jsstring }.
End VideoFile.

(** The SDK's [Video]: the opaque handle a finished job returns. *)
Module Video.
Record t := { uri : option jsstring;
              videoBytes : option jsstring;
              mimeType : option jsstring }.
End Video.

(** Modelled from the spec: [GenerateVideoParams] of [types.ts], with the
    fields [handleSubmit] passes and [generateVideo] reads.  A missing
    [isLooping] reads as [false]. *)
Module Params.
Record t := {
  prompt : jsstring;
  model : VeoModel;
  aspectRatio : AspectRatio;
  resolution : Resolution;
  mode : GenerationMode;
  startFrame : option ImageFile.t;
  middleFrame : option ImageFile.t;
  endFrame : option ImageFile.t;
  referenceImages : option (list ImageFile.t);
  styleImage : option ImageFile.t;
  inputVideo : option VideoFile.t;
  inputVideoObject : option Video.t;
  isLooping : bool }.
End Params.

(** [VideoGenerationReferenceType] of the SDK. *)
Inductive VideoGenerationReferenceType := ASSET | STYLE.

(** The SDK's [Image]: [{imageBytes, mimeType}]. *)
Module Image.
Record t := { imageBytes : JsText; mimeType : jsstring }.
End Image.

(** The SDK's [VideoGenerationReferenceImage]. *)
Module ReferenceImage.
Record t := { image : Image.t;
              referenceType : VideoGenerationReferenceType }.
End ReferenceImage.

(** The [config] object of a video request.  A field the code never
    assigns is [None]. *)
Module Config.
Record t := {
  numberOfVideos : N;
  resolution : Resolution;
  aspectRatio : option AspectRatio;
  lastFrame : option Image.t;
  referenceImages : option (list ReferenceImage.t) }.
End Config.

(** The object handed to [ai.models.generateVideos]. *)
Module Payload.
Record t := {
  model : VeoModel;
  config : Config.t;
  prompt : option jsstring;
  image : option Image.t;
  video : option Video.t }.
End Payload.

(** The long-running operation.  A missing [done] reads as [false]. *)
Module OpError.
Record t := { message : option jsstring }.
End OpError.

Module GeneratedVideo.
Record t := { video : option Video.t }.
End GeneratedVideo.

Module VideosResponse.
Record t := { generatedVideos : option (list GeneratedVideo.t) }.
End VideosResponse.

Module Operation.
Record t := {
  done : bool;
  error : option OpError.t;
  response : option VideosResponse.t }.
End Operation.

(** The answer of the image endpoint. *)
Module InlineData.
Record t := { data : JsText; mimeType : option jsstring }.
End InlineData.

Module Part.
Record t := { text : option jsstring; inlineData : option InlineData.t }.
End Part.

Module Content.
Record t := { parts : option (list Part.t) }.
End Content.

Module Candidate.
Record t := { content : option Content.t }.
End Candidate.

Module ContentResponse.
Record t := { candidates : option (list Candidate.t) }.
End ContentResponse.

(** The request [generateImage] sends. *)
Module ContentRequest.
Record t := {
  model : jsstring;
  prompt : jsstring;        (* contents.parts[0].text *)
  aspectRatio : jsstring;   (* config.imageConfig.aspectRatio *)
  imageSize : jsstring }.   (* config.imageConfig.imageSize *)
End ContentRequest.

(** A [Blob] and the [Response] of [fetch]. *)
Module Blob.
Record t := { bytes : list N; type : jsstring }.
End Blob.

Module FetchResponse.
Record t := {
  ok : bool;
  status : N;
  statusText : jsstring;
  blob : Try Blob.t }.
End FetchResponse.

(* ------------------------------------------------------------------ *)
(** ** The outside world and the effects of the service *)

(** Every call that leaves the function. *)
Inductive Event :=
| GenerateContent (request : ContentRequest.t)
| GenerateVideos (payload : Payload.t)
| SetTimeout (ms : N)
| GetVideosOperation (operation : Operation.t)
| Fetch (url : jsstring)
| ReadBlob
| CreateObjectURL (blob : Blob.t).

(** The host answers the calls.  The status endpoint is scripted: the
    [n]-th call of [getVideosOperation] receives the [n]-th answer, and a
    call beyond the script is never answered. *)
Module Host.
Record t := {
  API_KEY : option jsstring;
  generateContent : ContentRequest.t -> Try ContentResponse.t;
  generateVideos : Payload.t -> Try Operation.t;
  getVideosOperation : list (Try Operation.t);
  decodeURIComponent : jsstring -> option jsstring;
  fetch : jsstring -> Try FetchResponse.t;
  createObjectURL : Blob.t -> jsstring }.
End Host.

(** How an [async] function ends: it returns, it throws, or it is still
    waiting for an answer that never comes. *)
Inductive Completion (A : Type) :=
| Return (a : A)
| Throw (e : Exn)
| Pending.
Arguments Return {A} a.
Arguments Throw {A} e.
Arguments Pending {A}.

(** A computation: the calls it made, in order, and how it ended. *)
Definition M (A : Type) : Type := list Event * Completion A.

Definition ret {A} (a : A) : M A := ([], Return a).
Definition throw {A} (e : Exn) : M A := ([], Throw e).

Definition bind {A B} (m : M A) (k : A -> M B) : M B :=
  match m with
  | (tr, Return a) => let (tr', c) := k a in (tr ++ tr', c)
  | (tr, Throw e) => (tr, Throw e)
  | (tr, Pending) => (tr, Pending)
  end.

(** [await] of a call [ev] whose promise settles as [r]. *)
Definition await {A} (ev : Event) (r : Try A) : M A :=
  ([ev], match r with Ok a => Return a | Err e => Throw e end).

(** A call that is never answered. *)
Definition unanswered {A} (ev : Event) : M A := ([ev], Pending).

(** A call that cannot fail. *)
Definition call {A} (ev : Event) (a : A) : M A := ([ev], Return a).

Declare Scope service_scope.
Notation "x <- m ;; k" := (bind m (fun x => k))
  (at level 61, m at next level, right associativity) : service_scope.
Notation "m ;;; k" := (bind m (fun _ => k))
  (at level 61, right associativity) : service_scope.
Local Open Scope service_scope.

Definition trace {A} (m : M A) : list Event := fst m.
Definition completion {A} (m : M A) : Completion A := snd m.

(* ------------------------------------------------------------------ *)
(** ** [services/geminiService]: [generateImage] *)

Module GeminiService.

(** [response.candidates?.[0]?.content?.parts] *)
Definition candidateParts (response : ContentResponse.t)
  : option (list Part.t) :=
  match ContentResponse.candidates response with
  | Some (candidate :: _) =>
      match Candidate.content candidate with
      | Some content => Content.parts content
      | None => None
      end
  | _ => None
  end.

(** The [File] built from the decoded characters: [byteNumbers[i]] is
    [byteCharacters.charCodeAt(i)]. *)
Definition generatedFile (byteCharacters : jsstring) : File.t :=
  let byteNumbers := byteCharacters in
  let byteArray := Uint8Array byteNumbers in
  {| File.name := lit "generated-image.png";
     File.type := lit "image/png";
     File.bytes := byteArray |}.

(** The [for (const part of ...)] loop.  [atob] receives the string
    conversion of [part.inlineData.data], and the object returned holds
    that [data] as it came. *)
Fixpoint firstInlineImage (parts : list Part.t) : M ImageFile.t :=
  match parts with
  | [] => throw (Error (lit "Response did not contain image data."))
  | part :: rest =>
      match Part.inlineData part with
      | Some inlineData =>
          let base64 := InlineData.data inlineData in
          match atob (toText base64) with
          | None => throw InvalidCharacterError
          | Some byteCharacters =>
              ret {| ImageFile.file := generatedFile byteCharacters;
                     ImageFile.base64 := base64 |}
          end
      | None => firstInlineImage rest
      end
  end.

Definition imageRequest (prompt : jsstring) (aspectRatio : option jsstring)
  : ContentRequest.t :=
  {| ContentRequest.model := lit "gemini-3-pro-image-preview";
     ContentRequest.prompt := prompt;
     ContentRequest.aspectRatio :=
       match aspectRatio with Some a => a | None => lit "16:9" end;
     ContentRequest.imageSize := lit "1K" |}.

Definition generateImage (host : Host.t)
    (prompt : jsstring) (aspectRatio : option jsstring) : M ImageFile.t :=
  let request := imageRequest prompt aspectRatio in
  response <- await (GenerateContent request)
                    (Host.generateContent host request) ;;
  match candidateParts response with
  | None => throw (Error (lit "No image generated."))
  | Some parts => firstInlineImage parts
  end.

(** ** [generateVideo]: the payload *)

Definition toImage (f : ImageFile.t) : Image.t :=
  {| Image.imageBytes := ImageFile.base64 f;
     Image.mimeType := File.type (ImageFile.file f) |}.

Definition setAspectRatio (a : AspectRatio) (c : Config.t) : Config.t :=
  {| Config.numberOfVideos := Config.numberOfVideos c;
     Config.resolution := Config.resolution c;
     Config.aspectRatio := Some a;
     Config.lastFrame := Config.lastFrame c;
     Config.referenceImages := Config.referenceImages c |}.

Definition setLastFrame (i : Image.t) (c : Config.t) : Config.t :=
  {| Config.numberOfVideos := Config.numberOfVideos c;
     Config.resolution := Config.resolution c;
     Config.aspectRatio := Config.aspectRatio c;
     Config.lastFrame := Some i;
     Config.referenceImages := Config.referenceImages c |}.

Definition setReferenceImages (l : list ReferenceImage.t) (c : Config.t)
  : Config.t :=
  {| Config.numberOfVideos := Config.numberOfVideos c;
     Config.resolution := Config.resolution c;
     Config.aspectRatio := Config.aspectRatio c;
     Config.lastFrame := Config.lastFrame c;
     Config.referenceImages := Some l |}.

(** [generateVideoPayload.config.f = v]: the payload holds the config
    object itself, so an assignment through it is seen in the payload. *)
Definition onConfig (f : Config.t -> Config.t) (p : Payload.t) : Payload.t :=
  {| Payload.model := Payload.model p;
     Payload.config := f (Payload.config p);
     Payload.prompt := Payload.prompt p;
     Payload.image := Payload.image p;
     Payload.video := Payload.video p |}.

Definition setPrompt (s : jsstring) (p : Payload.t) : Payload.t :=
  {| Payload.model := Payload.model p;
     Payload.config := Payload.config p;
     Payload.prompt := Some s;
     Payload.image := Payload.image p;
     Payload.video := Payload.video p |}.

Definition setImage (i : Image.t) (p : Payload.t) : Payload.t :=
  {| Payload.model := Payload.model p;
     Payload.config := Payload.config p;
     Payload.prompt := Payload.prompt p;
     Payload.image := Some i;
     Payload.video := Payload.video p |}.

Definition setVideo (v : Video.t) (p : Payload.t) : Payload.t :=
  {| Payload.model := Payload.model p;
     Payload.config := Payload.config p;
     Payload.prompt := Payload.prompt p;
     Payload.image := Payload.image p;
     Payload.video := Some v |}.

(** [if (x) payload = f(x, payload)] for an object or [null]. *)
Definition whenSome {A B} (o : option A) (f : A -> B -> B) (b : B) : B :=
  match o with Some a => f a b | None => b end.

Definition assetReference (img : ImageFile.t) : ReferenceImage.t :=
  {| ReferenceImage.image := toImage img;
     ReferenceImage.referenceType := ASSET |}.

Definition styleReference (img : ImageFile.t) : ReferenceImage.t :=
  {| ReferenceImage.image := toImage img;
     ReferenceImage.referenceType := STYLE |}.

(** The [referenceImagesPayload] array of the references branch: one
    [push] per reference image, then one for the style image. *)
Definition referenceImagesPayload (params : Params.t)
  : list ReferenceImage.t :=
  let pushed :=
    match Params.referenceImages params with
    | Some imgs => fold_left (fun acc img => acc ++ [assetReference img]) imgs []
    | None => []
    end in
  match Params.styleImage params with
  | Some img => pushed ++ [styleReference img]
  | None => pushed
  end.

(** The request object, from the declaration of [config] to the end of
    the branch on the mode; [Err] is the [throw] of the extend branch. *)
Definition generateVideoPayload (params : Params.t) : Try Payload.t :=
  let config :=
    {| Config.numberOfVideos := 1;
       Config.resolution := Params.resolution params;
       Config.aspectRatio := None;
       Config.lastFrame := None;
       Config.referenceImages := None |} in
  let config :=
    match Params.mode params with
    | EXTEND_VIDEO => config
    | _ => setAspectRatio (Params.aspectRatio params) config
    end in
  let payload :=
    {| Payload.model := Params.model params;
       Payload.config := config;
       Payload.prompt := None;
       Payload.image := None;
       Payload.video := None |} in
  let payload :=
    if truthy (Params.prompt params)
    then setPrompt (Params.prompt params) payload else payload in
  match Params.mode params with
  | FRAMES_TO_VIDEO =>
      let payload :=
        whenSome (Params.startFrame params)
                 (fun f => setImage (toImage f)) payload in
      let finalEndFrame :=
        if Params.isLooping params
        then Params.startFrame params else Params.endFrame params in
      let payload :=
        whenSome finalEndFrame
                 (fun f => onConfig (setLastFrame (toImage f))) payload in
      let payload :=
        whenSome (Params.middleFrame params)
                 (fun f => onConfig (setReferenceImages [assetReference f]))
                 payload in
      Ok payload
  | REFERENCES_TO_VIDEO =>
      let refs := referenceImagesPayload params in
      Ok (if (0 <? N.of_nat (List.length refs))
          then onConfig (setReferenceImages refs) payload
          else payload)
  | EXTEND_VIDEO =>
      match Params.inputVideoObject params with
      | Some v => Ok (setVideo v payload)
      | None =>
          Err (Error
            (lit "An input video object is required to extend a video."))
      end
  | TEXT_TO_VIDEO => Ok payload
  end.

(** ** [generateVideo]: polling and retrieval *)

(** The [while (!operation.done)] loop, over the scripted answers of the
    status endpoint. *)
Fixpoint pollLoop (answers : list (Try Operation.t))
    (operation : Operation.t) : M Operation.t :=
  if Operation.done operation then ret operation
  else
    call (SetTimeout 10000) tt ;;;
    match answers with
    | [] => unanswered (GetVideosOperation operation)
    | answer :: later =>
        refreshed <- await (GetVideosOperation operation) answer ;;
        match Operation.error refreshed with
        | Some err =>
            throw (Error (orElse (OpError.message err)
              (lit "Video generation operation failed during processing.")))
        | None => pollLoop later refreshed
        end
    end.

Module Result.
Record t := {
  objectUrl : jsstring;
  blob : Blob.t;
  uri : jsstring;
  video : Video.t }.
End Result.

(** [firstVideo?.video?.uri], when truthy, with the video that has it. *)
Definition videoWithUri (firstVideo : GeneratedVideo.t)
  : option (Video.t * jsstring) :=
  match GeneratedVideo.video firstVideo with
  | Some v =>
      match Video.uri v with
      | Some u => if truthy u then Some (v, u) else None
      | None => None
      end
  | None => None
  end.

(** From the final check after the loop to the end of the function. *)
Definition retrieve (host : Host.t) (operation : Operation.t)
  : M Result.t :=
  match Operation.error operation with
  | Some err =>
      throw (Error (orElse (OpError.message err)
                           (lit "Video generation operation failed.")))
  | None =>
      match Operation.response operation with
      | Some response =>
          match VideosResponse.generatedVideos response with
          | None | Some [] => throw (Error (lit "No videos were generated."))
          | Some (firstVideo :: _) =>
              match videoWithUri firstVideo with
              | None =>
                  throw (Error (lit "Generated video is missing a URI."))
              | Some (videoObject, uri) =>
                  match Host.decodeURIComponent host uri with
                  | None => throw URIError
                  | Some url =>
                      let target :=
                        url ++ lit "&key="
                            ++ interpolate (Host.API_KEY host) in
                      res <- await (Fetch target)
                                   (Host.fetch host target) ;;
                      if negb (FetchResponse.ok res) then
                        throw (Error (lit "Failed to fetch video: "
                          ++ ofNumber (FetchResponse.status res)
                          ++ lit " " ++ FetchResponse.statusText res))
                      else
                        videoBlob <- await ReadBlob
                                           (FetchResponse.blob res) ;;
                        objectUrl <- call (CreateObjectURL videoBlob)
                          (Host.createObjectURL host videoBlob) ;;
                        ret {| Result.objectUrl := objectUrl;
                               Result.blob := videoBlob;
                               Result.uri := url;
                               Result.video := videoObject |}
                  end
              end
          end
      | None =>
          throw (Error (lit
            "No videos generated. The operation completed but returned no results."))
      end
  end.

Definition generateVideo (host : Host.t) (params : Params.t)
  : M Result.t :=
  match generateVideoPayload params with
  | Err e => throw e
  | Ok payload =>
      started <- await (GenerateVideos payload)
                       (Host.generateVideos host payload) ;;
      operation <- pollLoop (Host.getVideosOperation host) started ;;
      retrieve host operation
  end.

End GeminiService.

(* ------------------------------------------------------------------ *)
(** ** [components/PromptForm]: the submit gate *)

Module PromptForm.

(** The [useState] cells of the component that the gate and
    [handleSubmit] read. *)
Module State.
Record t := {
  prompt : jsstring;
  model : VeoModel;
  aspectRatio : AspectRatio;
  resolution : Resolution;
  generationMode : GenerationMode;
  startFrame : option ImageFile.t;
  middleFrame : option ImageFile.t;
  endFrame : option ImageFile.t;
  referenceImages : list ImageFile.t;
  styleImage : option ImageFile.t;
  inputVideo : option VideoFile.t;
  inputVideoObject : option Video.t;
  isLooping : bool }.
End State.

(** [!x] for an object or [null]. *)
Definition isNull {A} (o : option A) : bool :=
  match o with Some _ => false | None => true end.

(** The [switch (generationMode)] that computes [isSubmitDisabled] and
    [tooltipText], both starting from [false] and the empty string. *)
Definition submitGate (st : State.t) : bool * jsstring :=
  match State.generationMode st with
  | TEXT_TO_VIDEO =>
      let isSubmitDisabled := negb (truthy (trim (State.prompt st))) in
      (isSubmitDisabled,
       if isSubmitDisabled then lit "Please enter a prompt." else [])
  | FRAMES_TO_VIDEO =>
      let isSubmitDisabled := isNull (State.startFrame st) in
      (isSubmitDisabled,
       if isSubmitDisabled then lit "A start frame is required." else [])
  | REFERENCES_TO_VIDEO =>
      let hasNoPrompt := negb (truthy (trim (State.prompt st))) in
      let hasNoAssets :=
        N.of_nat (List.length (State.referenceImages st)) =? 0 in
      (hasNoPrompt || hasNoAssets,
       if hasNoPrompt && hasNoAssets
       then lit "Please enter a prompt and add at least one asset."
       else if hasNoPrompt then lit "Please enter a prompt."
       else if hasNoAssets
       then lit "At least one reference asset is required."
       else [])
  | EXTEND_VIDEO =>
      let isSubmitDisabled := isNull (State.inputVideoObject st) in
      (isSubmitDisabled,
       if isSubmitDisabled
       then lit "An input video from a previous generation is required to extend."
       else [])
  end.

Definition isSubmitDisabled (st : State.t) : bool := fst (submitGate st).
Definition tooltipText (st : State.t) : jsstring := snd (submitGate st).

(** The argument [handleSubmit] passes to [onGenerate]. *)
Definition handleSubmit (st : State.t) : Params.t :=
  {| Params.prompt := State.prompt st;
     Params.model := State.model st;
     Params.aspectRatio := State.aspectRatio st;
     Params.resolution := State.resolution st;
     Params.mode := State.generationMode st;
     Params.startFrame := State.startFrame st;
     Params.middleFrame := State.middleFrame st;
     Params.endFrame := State.endFrame st;
     Params.referenceImages := Some (State.referenceImages st);
     Params.styleImage := State.styleImage st;
     Params.inputVideo := State.inputVideo st;
     Params.inputVideoObject := State.inputVideoObject st;
     Params.isLooping := State.isLooping st |}.

End PromptForm.

(* ------------------------------------------------------------------ *)
(** ** The specification's vocabulary *)

Module Spec.

(** A prompt is non-blank when it holds a character that is not white
    space. *)
Definition nonBlank (s : jsstring) : Prop :=
  exists c, In c s /\ isWhiteSpace c = false.

(** The validation rule of each mode, in the specification's words:
    text-to-video requires a non-blank prompt; frames-to-video a start
    frame; references-to-video a non-blank prompt and at least one
    reference asset; extend-video an input video object. *)
Definition validationRule (st : PromptForm.State.t) : Prop :=
  match PromptForm.State.generationMode st with
  | TEXT_TO_VIDEO => nonBlank (PromptForm.State.prompt st)
  | FRAMES_TO_VIDEO => exists f, PromptForm.State.startFrame st = Some f
  | REFERENCES_TO_VIDEO =>
      nonBlank (PromptForm.State.prompt st)
      /\ exists img, In img (PromptForm.State.referenceImages st)
  | EXTEND_VIDEO => exists v, PromptForm.State.inputVideoObject st = Some v
  end.

(** A part that carries inline data. *)
Definition carriesInlineData (p : Part.t) : bool :=
  match Part.inlineData p with Some _ => true | None => false end.

(** A part without inline data, which the loop passes over. *)
Definition plain (p : Part.t) : bool := negb (carriesInlineData p).

(** The candidates of a response, and the content parts of a candidate;
    an absent list is an empty one. *)
Definition candidatesOf (r : ContentResponse.t) : list Candidate.t :=
  match ContentResponse.candidates r with Some l => l | None => [] end.

Definition partsOf (c : Candidate.t) : list Part.t :=
  match Candidate.content c with
  | Some content =>
      match Content.parts content with Some l => l | None => [] end
  | None => []
  end.

(** The response contains an inline image: a part of one of its
    candidates carries inline data. *)
Definition containsInlineImage (r : ContentResponse.t) : Prop :=
  exists candidate part,
    In candidate (candidatesOf r)
    /\ In part (partsOf candidate)
    /\ carriesInlineData part = true.

(** The first candidate of the response has the content parts [parts]. *)
Definition firstCandidateParts (r : ContentResponse.t) (parts : list Part.t)
  : Prop :=
  exists candidate others content,
    ContentResponse.candidates r = Some (candidate :: others)
    /\ Candidate.content candidate = Some content
    /\ Content.parts content = Some parts.

(** The first candidate of the response contains an inline image. *)
Definition firstCandidateContainsInlineImage (r : ContentResponse.t) : Prop :=
  exists parts part,
    firstCandidateParts r parts
    /\ In part parts
    /\ carriesInlineData part = true.

(** The two errors [generateImage] words itself. *)
Definition descriptiveImageError {A} (c : Completion A) : Prop :=
  c = Throw (Error (lit "No image generated."))
  \/ c = Throw (Error (lit "Response did not contain image data.")).

(** A status is terminal when [done] is true. *)
Definition terminal (a : Try Operation.t) : Prop :=
  exists op, a = Ok op /\ Operation.done op = true.

(** A refreshed status that lets the loop go round again. *)
Definition stillRunning (op : Operation.t) : Prop :=
  Operation.done op = false /\ Operation.error op = None.

(** The calls of the loop that start from the statuses [ops], one round
    each: the fixed delay, then the re-fetch of that status. *)
Definition rounds (ops : list Operation.t) : list Event :=
  flat_map (fun op => [SetTimeout 10000; GetVideosOperation op]) ops.

Definition isFetch (ev : Event) : bool :=
  match ev with Fetch _ => true | _ => false end.

Definition isPoll (ev : Event) : bool :=
  match ev with GetVideosOperation _ => true | _ => false end.

(** How often the status was re-fetched, and how often the asset. *)
Definition polls (tr : list Event) : nat := List.length (filter isPoll tr).
Definition fetches (tr : list Event) : nat := List.length (filter isFetch tr).

(** A generated video whose result URI is present: it has a video object
    whose [uri] is a string that is not empty. *)
Definition hasUri (g : GeneratedVideo.t) : bool :=
  match GeneratedVideo.video g with
  | Some v =>
      match Video.uri v with
      | Some (_ :: _) => true
      | _ => false
      end
  | None => false
  end.

(** The generated videos of an operation's response, none when the
    response or its list is absent. *)
Definition videosOf (op : Operation.t) : list GeneratedVideo.t :=
  match Operation.response op with
  | Some r =>
      match VideosResponse.generatedVideos r with
      | Some l => l
      | None => []
      end
  | None => []
  end.

End Spec.

(* ------------------------------------------------------------------ *)
(** ** Concrete inputs, for running the model *)

Module Sample.

Definition png (name base64 : string) : ImageFile.t :=
  {| ImageFile.file :=
       {| File.name := lit name; File.type := lit "image/png";
          File.bytes := match atob (lit base64) with
                        | Some b => b | None => [] end |};
     ImageFile.base64 := lit base64 |}.

Definition jpeg (name base64 : string) : ImageFile.t :=
  {| ImageFile.file :=
       {| File.name := lit name; File.type := lit "image/jpeg";
          File.bytes := match atob (lit base64) with
                        | Some b => b | None => [] end |};
     ImageFile.base64 := lit base64 |}.

Definition startImg := png "start.png" "c3RhcnQ=".
Definition middleImg := jpeg "middle.jpg" "bWlkZGxl".
Definition endImg := jpeg "end.jpg" "ZW5k".
Definition refA := png "a.png" "YQ==".
Definition refB := jpeg "b.jpg" "Yg==".
Definition styleImg := png "style.png" "c3R5bGU=".

Definition previous : Video.t :=
  {| Video.uri := Some (lit "https://videos.example/v1%3Fid=7");
     Video.videoBytes := None;
     Video.mimeType := Some (lit "video/mp4") |}.

(** A request of mode [m] with nothing attached. *)
Definition bare (m : GenerationMode) : Params.t :=
  {| Params.prompt := lit "a cat on a skateboard";
     Params.model := VEO_FAST;
     Params.aspectRatio := LANDSCAPE;
     Params.resolution := P720;
     Params.mode := m;
     Params.startFrame := None;
     Params.middleFrame := None;
     Params.endFrame := None;
     Params.referenceImages := None;
     Params.styleImage := None;
     Params.inputVideo := None;
     Params.inputVideoObject := None;
     Params.isLooping := false |}.

Definition withFrames (start middle final : option ImageFile.t)
    (looping : bool) : Params.t :=
  {| Params.prompt := lit "a cat on a skateboard";
     Params.model := VEO_FAST;
     Params.aspectRatio := PORTRAIT;
     Params.resolution := P1080;
     Params.mode := FRAMES_TO_VIDEO;
     Params.startFrame := start;
     Params.middleFrame := middle;
     Params.endFrame := final;
     Params.referenceImages := None;
     Params.styleImage := None;
     Params.inputVideo := None;
     Params.inputVideoObject := None;
     Params.isLooping := looping |}.

Definition withReferences (refs : option (list ImageFile.t))
    (style : option ImageFile.t) : Params.t :=
  {| Params.prompt := lit "a cat on a skateboard";
     Params.model := VEO;
     Params.aspectRatio := LANDSCAPE;
     Params.resolution := P720;
     Params.mode := REFERENCES_TO_VIDEO;
     Params.startFrame := None;
     Params.middleFrame := None;
     Params.endFrame := None;
     Params.referenceImages := refs;
     Params.styleImage := style;
     Params.inputVideo := None;
     Params.inputVideoObject := None;
     Params.isLooping := false |}.

Definition extending (v : option Video.t) : Params.t :=
  {| Params.prompt := [];
     Params.model := VEO;
     Params.aspectRatio := LANDSCAPE;
     Params.resolution := P720;
     Params.mode := EXTEND_VIDEO;
     Params.startFrame := None;
     Params.middleFrame := None;
     Params.endFrame := None;
     Params.referenceImages := None;
     Params.styleImage := None;
     Params.inputVideo := None;
     Params.inputVideoObject := v;
     Params.isLooping := false |}.

(** Statuses of a job. *)
Definition running : Operation.t :=
  {| Operation.done := false; Operation.error := None;
     Operation.response := None |}.

Definition failed (done : bool) (message : option jsstring) : Operation.t :=
  {| Operation.done := done;
     Operation.error := Some {| OpError.message := message |};
     Operation.response := None |}.

Definition generated (uri : option jsstring) : GeneratedVideo.t :=
  {| GeneratedVideo.video :=
       Some {| Video.uri := uri; Video.videoBytes := None;
               Video.mimeType := Some (lit "video/mp4") |} |}.

Definition finished (videos : option (list GeneratedVideo.t))
  : Operation.t :=
  {| Operation.done := true; Operation.error := None;
     Operation.response :=
       Some {| VideosResponse.generatedVideos := videos |} |}.

Definition empty : Operation.t :=
  {| Operation.done := true; Operation.error := None;
     Operation.response := None |}.

Definition clip : Blob.t :=
  {| Blob.bytes := [0; 0; 0; 24; 102; 116; 121; 112];
     Blob.type := lit "video/mp4" |}.

(** A host that starts every job as [started], answers the status
    endpoint with [script], and serves every URL with HTTP [status]. *)
Definition host (started : Operation.t) (script : list (Try Operation.t))
    (status : N) : Host.t :=
  {| Host.API_KEY := Some (lit "k3y");
     Host.generateContent := fun _ => Err (HostFailure (lit "offline"));
     Host.generateVideos := fun _ => Ok started;
     Host.getVideosOperation := script;
     Host.decodeURIComponent := fun u => Some u;
     Host.fetch := fun _ =>
       Ok {| FetchResponse.ok := (200 <=? status) && (status <=? 299);
             FetchResponse.status := status;
             FetchResponse.statusText :=
               if status =? 200 then lit "OK" else lit "Service Unavailable";
             FetchResponse.blob := Ok clip |};
     Host.createObjectURL := fun _ => lit "blob:susie/1" |}.

(** A host whose image endpoint answers [response]. *)
Definition imageHost (response : ContentResponse.t) : Host.t :=
  {| Host.API_KEY := Some (lit "k3y");
     Host.generateContent := fun _ => Ok response;
     Host.generateVideos := fun _ => Err (HostFailure (lit "offline"));
     Host.getVideosOperation := [];
     Host.decodeURIComponent := fun u => Some u;
     Host.fetch := fun _ => Err (HostFailure (lit "offline"));
     Host.createObjectURL := fun _ => lit "blob:susie/1" |}.

Definition textPart (s : string) : Part.t :=
  {| Part.text := Some (lit s); Part.inlineData := None |}.

Definition inlinePart (base64 : string) : Part.t :=
  {| Part.text := None;
     Part.inlineData :=
       Some {| InlineData.data := Text (lit base64);
               InlineData.mimeType := Some (lit "image/png") |} |}.

Definition answer (candidates : list (list Part.t)) : ContentResponse.t :=
  {| ContentResponse.candidates :=
       Some (map (fun ps =>
         {| Candidate.content := Some {| Content.parts := Some ps |} |})
         candidates) |}.

Definition form (m : GenerationMode) (prompt : string)
    (start : option ImageFile.t) (refs : list ImageFile.t)
    (input : option Video.t) : PromptForm.State.t :=
  {| PromptForm.State.prompt := lit prompt;
     PromptForm.State.model := VEO_FAST;
     PromptForm.State.aspectRatio := LANDSCAPE;
     PromptForm.State.resolution := P720;
     PromptForm.State.generationMode := m;
     PromptForm.State.startFrame := start;
     PromptForm.State.middleFrame := None;
     PromptForm.State.endFrame := None;
     PromptForm.State.referenceImages := refs;
     PromptForm.State.styleImage := None;
     PromptForm.State.inputVideo := None;
     PromptForm.State.inputVideoObject := input;
     PromptForm.State.isLooping := false |}.

End Sample.

(* ------------------------------------------------------------------ *)
(** ** More of JavaScript: [split] and [join] *)

Module Strings.

(** [s.split(sep)] for a separator of one code unit: the pieces between
    the separators, in order; a string without the separator is the single
    piece. *)
Fixpoint split (sep : codeunit) (s : jsstring) : list jsstring :=
  match s with
  | [] => [[]]
  | c :: r =>
      if c =? sep then [] :: split sep r
      else match split sep r with
           | piece :: pieces => (c :: piece) :: pieces
           | [] => [[c]]
           end
  end.

(** [pieces.join(sep)] *)
Fixpoint join (sep : jsstring) (pieces : list jsstring) : jsstring :=
  match pieces with
  | [] => []
  | [piece] => piece
  | piece :: rest => piece ++ sep ++ join sep rest
  end.

(** The comma. *)
Definition comma : codeunit := 44.

End Strings.

(* ------------------------------------------------------------------ *)
(** ** [components/PromptForm]: reading an uploaded file *)

Module Upload.

(** [fileToBase64]: the promise around a [FileReader].  [readAsDataURL]
    is the reader: [Ok result] when [onload] fires with [reader.result],
    [Err e] when [onerror] fires.  [make] builds the [{file, base64}]
    object of the requested type. *)
Definition fileToBase64 {T : Type} (make : File.t -> jsstring -> T)
    (readAsDataURL : File.t -> Try jsstring) (file : File.t) : Try T :=
  match readAsDataURL file with
  | Ok result =>
      match nth_error (Strings.split Strings.comma result) 1 with
      | Some base64 =>
          if truthy base64 then Ok (make file base64)
          else Err (Error (lit "Failed to read file as base64."))
      | None => Err (Error (lit "Failed to read file as base64."))
      end
  | Err e => Err e
  end.

(** The [{file, base64}] object of an image. *)
Definition imageFile (file : File.t) (base64 : jsstring) : ImageFile.t :=
  {| ImageFile.file := file; ImageFile.base64 := base64 |}.

Definition fileToImageFile := fileToBase64 imageFile.
Definition fileToVideoFile := fileToBase64 VideoFile.Build_t.

(** [handleFileChange] of [ImageUpload] and of [VideoUpload], as the
    change it makes to a state of type [S]: the first chosen file, when
    there is one and it converts, goes to [onSelect]; a failed conversion
    is logged and nothing else happens. *)
Definition handleFileChange {T S : Type}
    (convert : File.t -> Try T) (onSelect : T -> S -> S)
    (files : option (list File.t)) (st : S) : S :=
  match files with
  | Some (file :: _) =>
      match convert file with
      | Ok converted => onSelect converted st
      | Err _ => st
      end
  | _ => st
  end.

End Upload.

(* ------------------------------------------------------------------ *)
(** ** [components/PromptForm]: the state and its handlers *)

Module FormState.

(** [setX(v)] for each [useState] cell of the form. *)
Definition setPrompt (v : jsstring) (st : PromptForm.State.t)
  : PromptForm.State.t :=
  {| PromptForm.State.prompt := v;
     PromptForm.State.model := PromptForm.State.model st;
     PromptForm.State.aspectRatio := PromptForm.State.aspectRatio st;
     PromptForm.State.resolution := PromptForm.State.resolution st;
     PromptForm.State.generationMode := PromptForm.State.generationMode st;
     PromptForm.State.startFrame := PromptForm.State.startFrame st;
     PromptForm.State.middleFrame := PromptForm.State.middleFrame st;
     PromptForm.State.endFrame := PromptForm.State.endFrame st;
     PromptForm.State.referenceImages := PromptForm.State.referenceImages st;
     PromptForm.State.styleImage := PromptForm.State.styleImage st;
     PromptForm.State.inputVideo := PromptForm.State.inputVideo st;
     PromptForm.State.inputVideoObject := PromptForm.State.inputVideoObject st;
     PromptForm.State.isLooping := PromptForm.State.isLooping st |}.

Definition setModel (v : VeoModel) (st : PromptForm.State.t)
  : PromptForm.State.t :=
  {| PromptForm.State.prompt := PromptForm.State.prompt st;
     PromptForm.State.model := v;
     PromptForm.State.aspectRatio := PromptForm.State.aspectRatio st;
     PromptForm.State.resolution := PromptForm.State.resolution st;
     PromptForm.State.generationMode := PromptForm.State.generationMode st;
     PromptForm.State.startFrame := PromptForm.State.startFrame st;
     PromptForm.State.middleFrame := PromptForm.State.middleFrame st;
     PromptForm.State.endFrame := PromptForm.State.endFrame st;
     PromptForm.State.referenceImages := PromptForm.State.referenceImages st;
     PromptForm.State.styleImage := PromptForm.State.styleImage st;
     PromptForm.State.inputVideo := PromptForm.State.inputVideo st;
     PromptForm.State.inputVideoObject := PromptForm.State.inputVideoObject st;
     PromptForm.State.isLooping := PromptForm.State.isLooping st |}.

Definition setAspectRatio (v : AspectRatio) (st : PromptForm.State.t)
  : PromptForm.State.t :=
  {| PromptForm.State.prompt := PromptForm.State.prompt st;
     PromptForm.State.model := PromptForm.State.model st;
     PromptForm.State.aspectRatio := v;
     PromptForm.State.resolution := PromptForm.State.resolution st;
     PromptForm.State.generationMode := PromptForm.State.generationMode st;
     PromptForm.State.startFrame := PromptForm.State.startFrame st;
     PromptForm.State.middleFrame := PromptForm.State.middleFrame st;
     PromptForm.State.endFrame := PromptForm.State.endFrame st;
     PromptForm.State.referenceImages := PromptForm.State.referenceImages st;
     PromptForm.State.styleImage := PromptForm.State.styleImage st;
     PromptForm.State.inputVideo := PromptForm.State.inputVideo st;
     PromptForm.State.inputVideoObject := PromptForm.State.inputVideoObject st;
     PromptForm.State.isLooping := PromptForm.State.isLooping st |}.

Definition setResolution (v : Resolution) (st : PromptForm.State.t)
  : PromptForm.State.t :=
  {| PromptForm.State.prompt := PromptForm.State.prompt st;
     PromptForm.State.model := PromptForm.State.model st;
     PromptForm.State.aspectRatio := PromptForm.State.aspectRatio st;
     PromptForm.State.resolution := v;
     PromptForm.State.generationMode := PromptForm.State.generationMode st;
     PromptForm.State.startFrame := PromptForm.State.startFrame st;
     PromptForm.State.middleFrame := PromptForm.State.middleFrame st;
     PromptForm.State.endFrame := PromptForm.State.endFrame st;
     PromptForm.State.referenceImages := PromptForm.State.referenceImages st;
     PromptForm.State.styleImage := PromptForm.State.styleImage st;
     PromptForm.State.inputVideo := PromptForm.State.inputVideo st;
     PromptForm.State.inputVideoObject := PromptForm.State.inputVideoObject st;
     PromptForm.State.isLooping := PromptForm.State.isLooping st |}.


Definition setStartFrame (v : option ImageFile.t) (st : PromptForm.State.t)
  : PromptForm.State.t :=
  {| PromptForm.State.prompt := PromptForm.State.prompt st;
     PromptForm.State.model := PromptForm.State.model st;
     PromptForm.State.aspectRatio := PromptForm.State.aspectRatio st;
     PromptForm.State.resolution := PromptForm.State.resolution st;
     PromptForm.State.generationMode := PromptForm.State.generationMode st;
     PromptForm.State.startFrame := v;
     PromptForm.State.middleFrame := PromptForm.State.middleFrame st;
     PromptForm.State.endFrame := PromptForm.State.endFrame st;
     PromptForm.State.referenceImages := PromptForm.State.referenceImages st;
     PromptForm.State.styleImage := PromptForm.State.styleImage st;
     PromptForm.State.inputVideo := PromptForm.State.inputVideo st;
     PromptForm.State.inputVideoObject := PromptForm.State.inputVideoObject st;
     PromptForm.State.isLooping := PromptForm.State.isLooping st |}.

Definition setMiddleFrame (v : option ImageFile.t) (st : PromptForm.State.t)
  : PromptForm.State.t :=
  {| PromptForm.State.prompt := PromptForm.State.prompt st;
     PromptForm.State.model := PromptForm.State.model st;
     PromptForm.State.aspectRatio := PromptForm.State.aspectRatio st;
     PromptForm.State.resolution := PromptForm.State.resolution st;
     PromptForm.State.generationMode := PromptForm.State.generationMode st;
     PromptForm.State.startFrame := PromptForm.State.startFrame st;
     PromptForm.State.middleFrame := v;
     PromptForm.State.endFrame := PromptForm.State.endFrame st;
     PromptForm.State.referenceImages := PromptForm.State.referenceImages st;
     PromptForm.State.styleImage := PromptForm.State.styleImage st;
     PromptForm.State.inputVideo := PromptForm.State.inputVideo st;
     PromptForm.State.inputVideoObject := PromptForm.State.inputVideoObject st;
     PromptForm.State.isLooping := PromptForm.State.isLooping st |}.

Definition setEndFrame (v : option ImageFile.t) (st : PromptForm.State.t)
  : PromptForm.State.t :=
  {| PromptForm.State.prompt := PromptForm.State.prompt st;
     PromptForm.State.model := PromptForm.State.model st;
     PromptForm.State.aspectRatio := PromptForm.State.aspectRatio st;
     PromptForm.State.resolution := PromptForm.State.resolution st;
     PromptForm.State.generationMode := PromptForm.State.generationMode st;
     PromptForm.State.startFrame := PromptForm.State.startFrame st;
     PromptForm.State.middleFrame := PromptForm.State.middleFrame st;
     PromptForm.State.endFrame := v;
     PromptForm.State.referenceImages := PromptForm.State.referenceImages st;
     PromptForm.State.styleImage := PromptForm.State.styleImage st;
     PromptForm.State.inputVideo := PromptForm.State.inputVideo st;
     PromptForm.State.inputVideoObject := PromptForm.State.inputVideoObject st;
     PromptForm.State.isLooping := PromptForm.State.isLooping st |}.

Definition setReferenceImages (v : list ImageFile.t) (st : PromptForm.State.t)
  : PromptForm.State.t :=
  {| PromptForm.State.prompt := PromptForm.State.prompt st;
     PromptForm.State.model := PromptForm.State.model st;
     PromptForm.State.aspectRatio := PromptForm.State.aspectRatio st;
     PromptForm.State.resolution := PromptForm.State.resolution st;
     PromptForm.State.generationMode := PromptForm.State.generationMode st;
     PromptForm.State.startFrame := PromptForm.State.startFrame st;
     PromptForm.State.middleFrame := PromptForm.State.middleFrame st;
     PromptForm.State.endFrame := PromptForm.State.endFrame st;
     PromptForm.State.referenceImages := v;
     PromptForm.State.styleImage := PromptForm.State.styleImage st;
     PromptForm.State.inputVideo := PromptForm.State.inputVideo st;
     PromptForm.State.inputVideoObject := PromptForm.State.inputVideoObject st;
     PromptForm.State.isLooping := PromptForm.State.isLooping st |}.


Definition setInputVideo (v : option VideoFile.t) (st : PromptForm.State.t)
  : PromptForm.State.t :=
  {| PromptForm.State.prompt := PromptForm.State.prompt st;
     PromptForm.State.model := PromptForm.State.model st;
     PromptForm.State.aspectRatio := PromptForm.State.aspectRatio st;
     PromptForm.State.resolution := PromptForm.State.resolution st;
     PromptForm.State.generationMode := PromptForm.State.generationMode st;
     PromptForm.State.startFrame := PromptForm.State.startFrame st;
     PromptForm.State.middleFrame := PromptForm.State.middleFrame st;
     PromptForm.State.endFrame := PromptForm.State.endFrame st;
     PromptForm.State.referenceImages := PromptForm.State.referenceImages st;
     PromptForm.State.styleImage := PromptForm.State.styleImage st;
     PromptForm.State.inputVideo := v;
     PromptForm.State.inputVideoObject := PromptForm.State.inputVideoObject st;
     PromptForm.State.isLooping := PromptForm.State.isLooping st |}.

Definition setInputVideoObject (v : option Video.t) (st : PromptForm.State.t)
  : PromptForm.State.t :=
  {| PromptForm.State.prompt := PromptForm.State.prompt st;
     PromptForm.State.model := PromptForm.State.model st;
     PromptForm.State.aspectRatio := PromptForm.State.aspectRatio st;
     PromptForm.State.resolution := PromptForm.State.resolution st;
     PromptForm.State.generationMode := PromptForm.State.generationMode st;
     PromptForm.State.startFrame := PromptForm.State.startFrame st;
     PromptForm.State.middleFrame := PromptForm.State.middleFrame st;
     PromptForm.State.endFrame := PromptForm.State.endFrame st;
     PromptForm.State.referenceImages := PromptForm.State.referenceImages st;
     PromptForm.State.styleImage := PromptForm.State.styleImage st;
     PromptForm.State.inputVideo := PromptForm.State.inputVideo st;
     PromptForm.State.inputVideoObject := v;
     PromptForm.State.isLooping := PromptForm.State.isLooping st |}.

Definition setIsLooping (v : bool) (st : PromptForm.State.t)
  : PromptForm.State.t :=
  {| PromptForm.State.prompt := PromptForm.State.prompt st;
     PromptForm.State.model := PromptForm.State.model st;
     PromptForm.State.aspectRatio := PromptForm.State.aspectRatio st;
     PromptForm.State.resolution := PromptForm.State.resolution st;
     PromptForm.State.generationMode := PromptForm.State.generationMode st;
     PromptForm.State.startFrame := PromptForm.State.startFrame st;
     PromptForm.State.middleFrame := PromptForm.State.middleFrame st;
     PromptForm.State.endFrame := PromptForm.State.endFrame st;
     PromptForm.State.referenceImages := PromptForm.State.referenceImages st;
     PromptForm.State.styleImage := PromptForm.State.styleImage st;
     PromptForm.State.inputVideo := PromptForm.State.inputVideo st;
     PromptForm.State.inputVideoObject := PromptForm.State.inputVideoObject st;
     PromptForm.State.isLooping := v |}.

End FormState.

Module PromptFormHandlers.

Import FormState.

(** The cells of the component that are not part of the request. *)
Inductive ImageGenTarget :=
| TargetStart | TargetMiddle | TargetEnd | TargetRef | TargetDownload.

Module Ui.
Record t := {
  form : PromptForm.State.t;
  isSettingsOpen : bool;
  isModeSelectorOpen : bool;
  isImageGenOpen : bool;
  imageGenTarget : ImageGenTarget }.
End Ui.

Definition onForm (f : PromptForm.State.t -> PromptForm.State.t)
    (ui : Ui.t) : Ui.t :=
  {| Ui.form := f (Ui.form ui);
     Ui.isSettingsOpen := Ui.isSettingsOpen ui;
     Ui.isModeSelectorOpen := Ui.isModeSelectorOpen ui;
     Ui.isImageGenOpen := Ui.isImageGenOpen ui;
     Ui.imageGenTarget := Ui.imageGenTarget ui |}.

(** The initializers of the [useState] cells.  The fields of the request
    are present in [Params.t], so [??] only acts on a missing
    [initialValues] and on a missing list of reference images. *)
Definition initialState (initialValues : option Params.t)
  : PromptForm.State.t :=
  match initialValues with
  | Some p =>
      {| PromptForm.State.prompt := Params.prompt p;
         PromptForm.State.model := Params.model p;
         PromptForm.State.aspectRatio := Params.aspectRatio p;
         PromptForm.State.resolution := Params.resolution p;
         PromptForm.State.generationMode := Params.mode p;
         PromptForm.State.startFrame := Params.startFrame p;
         PromptForm.State.middleFrame := Params.middleFrame p;
         PromptForm.State.endFrame := Params.endFrame p;
         PromptForm.State.referenceImages :=
           match Params.referenceImages p with
           | Some imgs => imgs | None => [] end;
         PromptForm.State.styleImage := Params.styleImage p;
         PromptForm.State.inputVideo := Params.inputVideo p;
         PromptForm.State.inputVideoObject := Params.inputVideoObject p;
         PromptForm.State.isLooping := Params.isLooping p |}
  | None =>
      {| PromptForm.State.prompt := [];
         PromptForm.State.model := VEO_FAST;
         PromptForm.State.aspectRatio := LANDSCAPE;
         PromptForm.State.resolution := P720;
         PromptForm.State.generationMode := TEXT_TO_VIDEO;
         PromptForm.State.startFrame := None;
         PromptForm.State.middleFrame := None;
         PromptForm.State.endFrame := None;
         PromptForm.State.referenceImages := [];
         PromptForm.State.styleImage := None;
         PromptForm.State.inputVideo := None;
         PromptForm.State.inputVideoObject := None;
         PromptForm.State.isLooping := false |}
  end.

(** The effect on [initialValues]: every cell is set again from them,
    when they are given. *)
Definition applyInitialValues (initialValues : option Params.t)
    (st : PromptForm.State.t) : PromptForm.State.t :=
  match initialValues with
  | Some p => initialState (Some p)
  | None => st
  end.

(** The effect on [generationMode]: the rules of the extend and of the
    references modes. *)
Definition applyModeRules (st : PromptForm.State.t) : PromptForm.State.t :=
  let st :=
    match PromptForm.State.generationMode st with
    | EXTEND_VIDEO => setResolution P720 st
    | _ => st
    end in
  match PromptForm.State.generationMode st with
  | REFERENCES_TO_VIDEO =>
      setResolution P720 (setAspectRatio LANDSCAPE (setModel VEO st))
  | _ => st
  end.

(** The form once it is mounted with [initialValues]: the initializers,
    then the two effects in the order of their declaration. *)
Definition mount (initialValues : option Params.t) : PromptForm.State.t :=
  applyModeRules (applyInitialValues initialValues (initialState initialValues)).



(** The modes the selector offers. *)
Definition selectableModes : list GenerationMode :=
  [TEXT_TO_VIDEO; FRAMES_TO_VIDEO; REFERENCES_TO_VIDEO].

Definition handleOpenImageGen (target : ImageGenTarget) (ui : Ui.t) : Ui.t :=
  {| Ui.form := Ui.form ui;
     Ui.isSettingsOpen := Ui.isSettingsOpen ui;
     Ui.isModeSelectorOpen := Ui.isModeSelectorOpen ui;
     Ui.isImageGenOpen := true;
     Ui.imageGenTarget := target |}.

(** The [onClose] of the dialog. *)
Definition closeImageGen (ui : Ui.t) : Ui.t :=
  {| Ui.form := Ui.form ui;
     Ui.isSettingsOpen := Ui.isSettingsOpen ui;
     Ui.isModeSelectorOpen := Ui.isModeSelectorOpen ui;
     Ui.isImageGenOpen := false;
     Ui.imageGenTarget := Ui.imageGenTarget ui |}.

(** What [handleImageGenerated] hands to the browser in its download
    branch: the link it creates and clicks. *)
Module DownloadLink.
Record t := { file : File.t; download : jsstring }.
End DownloadLink.

(** [handleImageGenerated]: the new state and the links clicked. *)
Definition handleImageGenerated (image : ImageFile.t) (ui : Ui.t)
  : Ui.t * list DownloadLink.t :=
  match Ui.imageGenTarget ui with
  | TargetStart =>
      (onForm (fun st => setIsLooping false (setStartFrame (Some image) st)) ui,
       [])
  | TargetMiddle => (onForm (setMiddleFrame (Some image)) ui, [])
  | TargetEnd => (onForm (setEndFrame (Some image)) ui, [])
  | TargetRef =>
      (onForm (fun st =>
                 setReferenceImages
                   (PromptForm.State.referenceImages st ++ [image]) st) ui,
       [])
  | TargetDownload =>
      (ui, [{| DownloadLink.file := ImageFile.file image;
               DownloadLink.download := lit "generated-image.png" |}])
  end.

Definition getImageTargetLabel (ui : Ui.t) : jsstring :=
  match Ui.imageGenTarget ui with
  | TargetStart => lit "Start Frame"
  | TargetMiddle => lit "Middle Frame"
  | TargetEnd => lit "End Frame"
  | TargetDownload => lit "Image (Download)"
  | TargetRef => lit "Asset"
  end.

(** *** What [renderMediaUploads] offers *)

Definition totalReferences (st : PromptForm.State.t) : N :=
  N.of_nat (List.length (PromptForm.State.referenceImages st))
  + (match PromptForm.State.styleImage st with Some _ => 1 | None => 0 end).

Definition isSome {A} (o : option A) : bool :=
  match o with Some _ => true | None => false end.

(** The middle and end slots are rendered. *)
Definition showsFrameSlots (st : PromptForm.State.t) : bool :=
  match PromptForm.State.generationMode st with
  | FRAMES_TO_VIDEO => negb (PromptForm.State.isLooping st)
  | _ => false
  end.

(** The loop checkbox is rendered. *)
Definition showsLoopCheckbox (st : PromptForm.State.t) : bool :=
  match PromptForm.State.generationMode st with
  | FRAMES_TO_VIDEO =>
      isSome (PromptForm.State.startFrame st)
      && negb (isSome (PromptForm.State.endFrame st))
      && negb (isSome (PromptForm.State.middleFrame st))
  | _ => false
  end.

(** The "Add Asset" slot is rendered. *)
Definition showsAddAsset (st : PromptForm.State.t) : bool :=
  match PromptForm.State.generationMode st with
  | REFERENCES_TO_VIDEO => totalReferences st <? 3
  | _ => false
  end.

(** [onSelect] of the "Add Asset" slot. *)
Definition addAsset (img : ImageFile.t) (st : PromptForm.State.t)
  : PromptForm.State.t :=
  setReferenceImages (PromptForm.State.referenceImages st ++ [img]) st.

(** [imgs.filter((_, i) => i !== index)] *)
Fixpoint filterIndex {A} (index : nat) (i : nat) (imgs : list A) : list A :=
  match imgs with
  | [] => []
  | img :: rest =>
      if Nat.eqb i index then filterIndex index (S i) rest
      else img :: filterIndex index (S i) rest
  end.

(** [onRemove] of the reference at [index]. *)
Definition removeReference (index : nat) (st : PromptForm.State.t)
  : PromptForm.State.t :=
  setReferenceImages
    (filterIndex index 0 (PromptForm.State.referenceImages st)) st.

(** [onRemove] of the start frame. *)
Definition removeStartFrame (st : PromptForm.State.t) : PromptForm.State.t :=
  setIsLooping false (setStartFrame None st).

(** [onRemove] of the input video. *)
Definition removeInputVideo (st : PromptForm.State.t) : PromptForm.State.t :=
  setInputVideoObject None (setInputVideo None st).

End PromptFormHandlers.

(* ------------------------------------------------------------------ *)
(** ** [components/ImageGeneratorDialog] *)

Module ImageGeneratorDialog.

Module State.
Record t := {
  prompt : jsstring;
  aspectRatio : jsstring;
  style : jsstring;
  lighting : jsstring;
  loading : bool;
  error : option jsstring }.
End State.

(** The initial cells of the dialog. *)
Definition initial : State.t :=
  {| State.prompt := [];
     State.aspectRatio := lit "16:9";
     State.style := [];
     State.lighting := [];
     State.loading := false;
     State.error := None |}.

(** The [modifiers] array: the style, then the lighting, each when it is
    not the empty choice. *)
Definition modifiers (d : State.t) : list jsstring :=
  (if truthy (State.style d) then [State.style d] else [])
  ++ (if truthy (State.lighting d) then [State.lighting d] else []).

Definition finalPrompt (d : State.t) : jsstring :=
  if (0 <? N.of_nat (List.length (modifiers d)))
  then Strings.join (lit ", ") (modifiers d) ++ lit ". " ++ State.prompt d
  else State.prompt d.

(** [err.message]: the text of an [Error] is its message; that of a
    value thrown by the platform or the SDK is whatever [describe] says. *)
Definition messageOf (describe : Exn -> option jsstring) (err : Exn)
  : option jsstring :=
  match err with
  | Error message => Some message
  | _ => describe err
  end.

(** What a run of [handleGenerate] leaves behind: the cells of the
    dialog, the image handed to [onImageGenerated] and whether [onClose]
    was called. *)
Module Outcome.
Record t := {
  dialog : State.t;
  delivered : option ImageFile.t;
  closed : bool }.
End Outcome.

Definition settle (loading : bool) (error : option jsstring) (d : State.t)
  : State.t :=
  {| State.prompt := State.prompt d;
     State.aspectRatio := State.aspectRatio d;
     State.style := State.style d;
     State.lighting := State.lighting d;
     State.loading := loading;
     State.error := error |}.

(** [handleGenerate]: the calls made and what is left behind. *)
Definition handleGenerate (host : Host.t)
    (describe : Exn -> option jsstring) (d : State.t)
  : list Event * Outcome.t :=
  if negb (truthy (trim (State.prompt d))) then
    ([], {| Outcome.dialog := d;
            Outcome.delivered := None;
            Outcome.closed := false |})
  else
    let started := settle true None d in
    match GeminiService.generateImage host (finalPrompt d)
                                      (Some (State.aspectRatio d)) with
    | (tr, Return imageFile) =>
        (tr, {| Outcome.dialog := settle false None started;
                Outcome.delivered := Some imageFile;
                Outcome.closed := true |})
    | (tr, Throw err) =>
        (tr, {| Outcome.dialog :=
                  settle false
                    (Some (orElse (messageOf describe err)
                                  (lit "Failed to generate image")))
                    started;
                Outcome.delivered := None;
                Outcome.closed := false |})
    | (tr, Pending) =>
        (tr, {| Outcome.dialog := started;
                Outcome.delivered := None;
                Outcome.closed := false |})
    end.

(** The submit button of the dialog: [disabled={loading || !prompt.trim()}]. *)
Definition isGenerateDisabled (d : State.t) : bool :=
  State.loading d || negb (truthy (trim (State.prompt d))).

End ImageGeneratorDialog.

(** The form with the dialog mounted in it: [onImageGenerated] is
    [handleImageGenerated] and [onClose] closes the dialog. *)
Definition deliverToForm (outcome : ImageGeneratorDialog.Outcome.t)
    (ui : PromptFormHandlers.Ui.t)
  : PromptFormHandlers.Ui.t * list PromptFormHandlers.DownloadLink.t :=
  let (ui, links) :=
    match ImageGeneratorDialog.Outcome.delivered outcome with
    | Some image => PromptFormHandlers.handleImageGenerated image ui
    | None => (ui, [])
    end in
  (if ImageGeneratorDialog.Outcome.closed outcome
   then PromptFormHandlers.closeImageGen ui else ui,
   links).


(* ------------------------------------------------------------------ *)
(** ** Vocabulary for whole runs *)

Module Run.

(** What can follow the rounds of the loop in a run of [generateVideo]:
    nothing, or the request of the asset, then the reading of its body,
    then the making of the object URL. *)
Definition retrievalTail (tail : list Event) : Prop :=
  tail = []
  \/ (exists target, tail = [Fetch target])
  \/ (exists target, tail = [Fetch target; ReadBlob])
  \/ (exists target b, tail = [Fetch target; ReadBlob; CreateObjectURL b]).

Definition isDelay (ev : Event) : bool :=
  match ev with SetTimeout _ => true | _ => false end.

Definition delays (tr : list Event) : nat := List.length (filter isDelay tr).

(** The host [h], except that every job starts as [op]. *)
Definition startedAs (op : Operation.t) (h : Host.t) : Host.t :=
  {| Host.API_KEY := Host.API_KEY h;
     Host.generateContent := Host.generateContent h;
     Host.generateVideos := fun _ => Ok op;
     Host.getVideosOperation := Host.getVideosOperation h;
     Host.decodeURIComponent := Host.decodeURIComponent h;
     Host.fetch := Host.fetch h;
     Host.createObjectURL := Host.createObjectURL h |}.

(** The request [p] with another uploaded video file. *)
Definition withInputVideo (v : option VideoFile.t) (p : Params.t)
  : Params.t :=
  {| Params.prompt := Params.prompt p;
     Params.model := Params.model p;
     Params.aspectRatio := Params.aspectRatio p;
     Params.resolution := Params.resolution p;
     Params.mode := Params.mode p;
     Params.startFrame := Params.startFrame p;
     Params.middleFrame := Params.middleFrame p;
     Params.endFrame := Params.endFrame p;
     Params.referenceImages := Params.referenceImages p;
     Params.styleImage := Params.styleImage p;
     Params.inputVideo := v;
     Params.inputVideoObject := Params.inputVideoObject p;
     Params.isLooping := Params.isLooping p |}.

(** The first generated video has a result URI that decodes to [url]. *)
Definition firstUriDecodes (host : Host.t) (op : Operation.t)
    (v : Video.t) (url : jsstring) : Prop :=
  exists g rest u,
    Spec.videosOf op = g :: rest
    /\ GeneratedVideo.video g = Some v
    /\ Video.uri v = Some u /\ u <> []
    /\ Host.decodeURIComponent host u = Some url.

(** No comma in a string. *)
Definition commaFree (s : jsstring) : Prop :=
  forallb (fun c => negb (c =? Strings.comma)) s = true.

End Run.

(* ------------------------------------------------------------------ *)
(** ** More concrete inputs *)

Module Demo.

(** A text-to-video request that still carries media of other modes. *)
Definition crowded : Params.t :=
  {| Params.prompt := lit "waves";
     Params.model := VEO; Params.aspectRatio := LANDSCAPE;
     Params.resolution := P720; Params.mode := TEXT_TO_VIDEO;
     Params.startFrame := Some Sample.startImg;
     Params.middleFrame := Some Sample.middleImg;
     Params.endFrame := Some Sample.endImg;
     Params.referenceImages := Some [Sample.refA];
     Params.styleImage := Some Sample.styleImg;
     Params.inputVideo := None;
     Params.inputVideoObject := Some Sample.previous;
     Params.isLooping := true |}.

(** A references form whose settings are not those of the mode. *)
Definition offRules : PromptForm.State.t :=
  {| PromptForm.State.prompt := lit "a cat";
     PromptForm.State.model := VEO_FAST;
     PromptForm.State.aspectRatio := PORTRAIT;
     PromptForm.State.resolution := P4K;
     PromptForm.State.generationMode := REFERENCES_TO_VIDEO;
     PromptForm.State.startFrame := None;
     PromptForm.State.middleFrame := None;
     PromptForm.State.endFrame := None;
     PromptForm.State.referenceImages := [Sample.refA];
     PromptForm.State.styleImage := None;
     PromptForm.State.inputVideo := None;
     PromptForm.State.inputVideoObject := None;
     PromptForm.State.isLooping := false |}.

(** The cells around a form [st], with the dialog opened for [target]. *)
Definition around (st : PromptForm.State.t)
    (target : PromptFormHandlers.ImageGenTarget) : PromptFormHandlers.Ui.t :=
  {| PromptFormHandlers.Ui.form := st;
     PromptFormHandlers.Ui.isSettingsOpen := false;
     PromptFormHandlers.Ui.isModeSelectorOpen := true;
     PromptFormHandlers.Ui.isImageGenOpen := true;
     PromptFormHandlers.Ui.imageGenTarget := target |}.

(** A form with a style image. *)
Definition styled (refs : list ImageFile.t) : PromptForm.State.t :=
  {| PromptForm.State.prompt := lit "a cat";
     PromptForm.State.model := VEO;
     PromptForm.State.aspectRatio := LANDSCAPE;
     PromptForm.State.resolution := P720;
     PromptForm.State.generationMode := REFERENCES_TO_VIDEO;
     PromptForm.State.startFrame := None;
     PromptForm.State.middleFrame := None;
     PromptForm.State.endFrame := None;
     PromptForm.State.referenceImages := refs;
     PromptForm.State.styleImage := Some Sample.styleImg;
     PromptForm.State.inputVideo := None;
     PromptForm.State.inputVideoObject := None;
     PromptForm.State.isLooping := false |}.

(** An uploaded file and the reader that answers with its data URL. *)
Definition photo : File.t :=
  {| File.name := lit "photo.jpg"; File.type := lit "image/jpeg";
     File.bytes := [104; 105] |}.

Definition reader (result : Try jsstring) : File.t -> Try jsstring :=
  fun _ => result.

(** A dialog with a prompt and chosen modifiers. *)
Definition dialog (prompt style lighting : string)
  : ImageGeneratorDialog.State.t :=
  {| ImageGeneratorDialog.State.prompt := lit prompt;
     ImageGeneratorDialog.State.aspectRatio := lit "9:16";
     ImageGeneratorDialog.State.style := lit style;
     ImageGeneratorDialog.State.lighting := lit lighting;
     ImageGeneratorDialog.State.loading := false;
     ImageGeneratorDialog.State.error := Some (lit "old error") |}.

(** No text for values thrown by the platform. *)
Definition silent : Exn -> option jsstring := fun _ => None.

End Demo.

(* ------------------------------------------------------------------ *)
(** * Properties *)

Import GeminiService.

(** ** The model runs *)

Example atob_hi : atob (lit "aGk=") = Some (lit "hi").
Proof. reflexivity. Qed.

Example atob_skips_spaces : atob (lit "TWFu TQ") = Some (lit "ManM").
Proof. reflexivity. Qed.

Example atob_undefined : atob (lit "undefined") = None.
Proof. reflexivity. Qed.

Example ofNumber_503 : ofNumber 503 = lit "503".
Proof. reflexivity. Qed.

Example trim_inner_space : trim (lit "  a b  ") = lit "a b".
Proof. reflexivity. Qed.

Example text_request_payload :
  generateVideoPayload (Sample.bare TEXT_TO_VIDEO)
  = Ok {| Payload.model := VEO_FAST;
          Payload.config :=
            {| Config.numberOfVideos := 1; Config.resolution := P720;
               Config.aspectRatio := Some LANDSCAPE;
               Config.lastFrame := None; Config.referenceImages := None |};
          Payload.prompt := Some (lit "a cat on a skateboard");
          Payload.image := None; Payload.video := None |}.
Proof. reflexivity. Qed.

Example two_rounds_then_download :
  let h := Sample.host Sample.running
             [Ok Sample.running;
              Ok (Sample.finished (Some [Sample.generated (Some (lit "u"))]))]
             200 in
  let m := generateVideo h (Sample.bare TEXT_TO_VIDEO) in
  Spec.polls (trace m) = 2%nat /\ Spec.fetches (trace m) = 1%nat
  /\ exists r, completion m = Return r
               /\ Result.uri r = lit "u" /\ Result.blob r = Sample.clip.
Proof. cbv zeta. repeat split. eexists. repeat split. Qed.

Example script_runs_dry :
  completion (generateVideo (Sample.host Sample.running [Ok Sample.running] 200)
                            (Sample.bare TEXT_TO_VIDEO)) = Pending.
Proof. reflexivity. Qed.

(* ------------------------------------------------------------------ *)
(** ** The payload *)

Section PayloadFacts.

Variable params : Params.t.

(** The frames branch, field by field. *)
Lemma frames_payload :
  Params.mode params = FRAMES_TO_VIDEO ->
  exists payload,
    generateVideoPayload params = Ok payload
    /\ Payload.image payload = option_map toImage (Params.startFrame params)
    /\ Config.lastFrame (Payload.config payload)
       = option_map toImage
           (if Params.isLooping params
            then Params.startFrame params else Params.endFrame params)
    /\ Config.referenceImages (Payload.config payload)
       = option_map (fun f => [assetReference f]) (Params.middleFrame params)
    /\ Payload.video payload = None.
Proof.
  intros Hmode. unfold generateVideoPayload. rewrite Hmode.
  eexists. split; [reflexivity|].
  destruct (truthy (Params.prompt params)),
           (Params.isLooping params),
           (Params.startFrame params),
           (Params.endFrame params),
           (Params.middleFrame params); cbn; auto.
Qed.

(** Pushing one element per image is [map]. *)
Lemma push_each_is_map {A B} (f : A -> B) (l : list A) (acc : list B) :
  fold_left (fun acc x => acc ++ [f x]) l acc = acc ++ map f l.
Proof.
  revert acc. induction l as [|x l IH]; intros acc; cbn.
  - now rewrite app_nil_r.
  - rewrite IH, <- app_assoc. reflexivity.
Qed.

Lemma referenceImagesPayload_eq :
  referenceImagesPayload params
  = map assetReference
        (match Params.referenceImages params with
         | Some imgs => imgs | None => [] end)
    ++ match Params.styleImage params with
       | Some s => [styleReference s] | None => [] end.
Proof.
  unfold referenceImagesPayload.
  destruct (Params.referenceImages params) as [imgs|],
           (Params.styleImage params) as [s|];
    rewrite ?push_each_is_map, ?app_nil_r; reflexivity.
Qed.

(** The config of whatever payload is built, as far as the mode alone
    decides it. *)
Lemma config_base payload :
  generateVideoPayload params = Ok payload ->
  Config.numberOfVideos (Payload.config payload) = 1
  /\ Config.resolution (Payload.config payload) = Params.resolution params
  /\ Config.aspectRatio (Payload.config payload)
     = match Params.mode params with
       | EXTEND_VIDEO => None
       | _ => Some (Params.aspectRatio params)
       end.
Proof.
  unfold generateVideoPayload.
  destruct (Params.mode params); intros H.
  - injection H as <-. destruct (truthy _); cbn; auto.
  - injection H as <-.
    destruct (truthy _), (Params.isLooping params),
             (Params.startFrame params), (Params.endFrame params),
             (Params.middleFrame params); cbn; auto.
  - injection H as <-.
    destruct (truthy _), (0 <? _); cbn; auto.
  - destruct (Params.inputVideoObject params); [|discriminate].
    injection H as <-. destruct (truthy _); cbn; auto.
Qed.

(** Every mode but extend-video builds a request. *)
Lemma non_extend_builds :
  Params.mode params <> EXTEND_VIDEO ->
  exists payload, generateVideoPayload params = Ok payload.
Proof.
  intros Hmode. unfold generateVideoPayload.
  destruct (Params.mode params); try (eexists; reflexivity). now elim Hmode.
Qed.

(** The request that is built is the first thing [generateVideo] sends. *)
Lemma generateVideo_submits (host : Host.t) payload :
  generateVideoPayload params = Ok payload ->
  exists rest,
    trace (generateVideo host params) = GenerateVideos payload :: rest.
Proof.
  intros Hp. unfold generateVideo. rewrite Hp.
  unfold bind, await, trace.
  destruct (Host.generateVideos host _) as [op|e]; cbn.
  - destruct (pollLoop _ op) as [tr [o|e|]]; cbn;
      [destruct (retrieve host o)|..]; eexists; reflexivity.
  - eexists; reflexivity.
Qed.

End PayloadFacts.

(** C1, as amended.  In a frames-to-video request with an end frame set,
    [config.lastFrame] holds that frame's base64 text and its file type
    when looping is off; when looping is on it holds the start frame's
    instead (and is absent without a start frame). *)
Theorem C1_lastFrame_of_end_frame (params : Params.t) (e : ImageFile.t) :
  Params.mode params = FRAMES_TO_VIDEO ->
  Params.endFrame params = Some e ->
  exists payload,
    generateVideoPayload params = Ok payload
    /\ (Params.isLooping params = false ->
        Config.lastFrame (Payload.config payload)
        = Some {| Image.imageBytes := ImageFile.base64 e;
                  Image.mimeType := File.type (ImageFile.file e) |})
    /\ (Params.isLooping params = true ->
        Config.lastFrame (Payload.config payload)
        = option_map toImage (Params.startFrame params)).
Proof.
  intros Hmode Hend.
  destruct (frames_payload params Hmode) as (payload & Hp & _ & Hlast & _).
  exists payload. split; [exact Hp|].
  split; intros Hloop; rewrite Hlast, Hloop; [rewrite Hend|]; reflexivity.
Qed.

Lemma C1_lastFrame_of_end_frame_witness :
  exists payload,
    generateVideoPayload
      (Sample.withFrames (Some Sample.startImg) None (Some Sample.endImg) false)
    = Ok payload
    /\ Config.lastFrame (Payload.config payload)
       = Some {| Image.imageBytes := lit "ZW5k";
                 Image.mimeType := lit "image/jpeg" |}.
Proof.
  destruct (C1_lastFrame_of_end_frame
              (Sample.withFrames (Some Sample.startImg) None
                                 (Some Sample.endImg) false)
              Sample.endImg eq_refl eq_refl) as (payload & Hp & Hoff & _).
  exists payload. split; [exact Hp|]. exact (Hoff eq_refl).
Defined.

(** C1 as first stated fails: with looping on, an end frame that is set
    does not reach [config.lastFrame]; the start frame does. *)
Lemma C1_looping_counterexample :
  let params :=
    Sample.withFrames (Some Sample.startImg) None (Some Sample.endImg) true in
  Params.mode params = FRAMES_TO_VIDEO
  /\ Params.endFrame params = Some Sample.endImg
  /\ exists payload,
       generateVideoPayload params = Ok payload
       /\ Config.lastFrame (Payload.config payload)
          = Some {| Image.imageBytes := lit "c3RhcnQ=";
                    Image.mimeType := lit "image/png" |}
       /\ Config.lastFrame (Payload.config payload)
          <> Some {| Image.imageBytes := ImageFile.base64 Sample.endImg;
                     Image.mimeType :=
                       File.type (ImageFile.file Sample.endImg) |}.
Proof.
  cbv zeta. split; [reflexivity|]. split; [reflexivity|].
  eexists. split; [reflexivity|]. split; [reflexivity|].
  cbn. discriminate.
Qed.

(** C5.  In a references-to-video request the reference list is every
    provided reference image, in order, as an ASSET, followed by the style
    image as a STYLE when there is one; [config.referenceImages] is that
    list when it is non-empty and is not set otherwise. *)
Theorem C5_reference_images (params : Params.t) :
  Params.mode params = REFERENCES_TO_VIDEO ->
  let assets :=
    map (fun img =>
           {| ReferenceImage.image :=
                {| Image.imageBytes := ImageFile.base64 img;
                   Image.mimeType := File.type (ImageFile.file img) |};
              ReferenceImage.referenceType := ASSET |})
        (match Params.referenceImages params with
         | Some imgs => imgs | None => [] end) in
  let style :=
    match Params.styleImage params with
    | Some s =>
        [{| ReferenceImage.image :=
              {| Image.imageBytes := ImageFile.base64 s;
                 Image.mimeType := File.type (ImageFile.file s) |};
            ReferenceImage.referenceType := STYLE |}]
    | None => []
    end in
  exists payload,
    generateVideoPayload params = Ok payload
    /\ Config.referenceImages (Payload.config payload)
       = match assets ++ style with
         | [] => None
         | l => Some l
         end.
Proof.
  intros Hmode assets style.
  unfold generateVideoPayload. rewrite Hmode.
  eexists. split; [reflexivity|].
  rewrite referenceImagesPayload_eq.
  fold assetReference in assets.
  change (match Params.styleImage params with
          | Some s => [styleReference s] | None => [] end) with style.
  change (map assetReference
            match Params.referenceImages params with
            | Some imgs => imgs | None => [] end) with assets.
  destruct (assets ++ style) as [|r l];
    destruct (truthy (Params.prompt params)); reflexivity.
Qed.

Lemma C5_reference_images_witness :
  exists payload,
    generateVideoPayload
      (Sample.withReferences (Some [Sample.refA; Sample.refB])
                             (Some Sample.styleImg))
    = Ok payload
    /\ Config.referenceImages (Payload.config payload)
       = Some [assetReference Sample.refA; assetReference Sample.refB;
               styleReference Sample.styleImg].
Proof.
  exact (C5_reference_images
           (Sample.withReferences (Some [Sample.refA; Sample.refB])
                                  (Some Sample.styleImg)) eq_refl).
Defined.

(** C6.  An extend-video request without an input video object throws
    'An input video object is required to extend a video.' before anything
    is sent; with one, the payload's [video] field is that object. *)
Theorem C6_extend_video (host : Host.t) (params : Params.t) :
  Params.mode params = EXTEND_VIDEO ->
  (Params.inputVideoObject params = None ->
   generateVideo host params
   = ([], Throw (Error
        (lit "An input video object is required to extend a video."))))
  /\ (forall v, Params.inputVideoObject params = Some v ->
      exists payload,
        generateVideoPayload params = Ok payload
        /\ Payload.video payload = Some v
        /\ exists rest,
             trace (generateVideo host params) = GenerateVideos payload :: rest).
Proof.
  intros Hmode. split.
  - intros Hnone. unfold generateVideo, generateVideoPayload.
    rewrite Hmode, Hnone. reflexivity.
  - intros v Hv. unfold generateVideo, generateVideoPayload.
    rewrite Hmode, Hv. eexists. split; [reflexivity|]. split.
    + destruct (truthy (Params.prompt params)); reflexivity.
    + unfold bind, await, trace.
      destruct (Host.generateVideos host _) as [op|e]; cbn.
      * destruct (pollLoop _ op) as [tr [o|e|]]; cbn;
          [destruct (retrieve host o)|..]; eexists; reflexivity.
      * eexists; reflexivity.
Qed.

Lemma C6_extend_video_witness :
  generateVideo (Sample.host Sample.running [] 200) (Sample.extending None)
  = ([], Throw (Error
       (lit "An input video object is required to extend a video.")))
  /\ exists payload,
       generateVideoPayload (Sample.extending (Some Sample.previous))
       = Ok payload
       /\ Payload.video payload = Some Sample.previous.
Proof.
  split.
  - exact (proj1 (C6_extend_video (Sample.host Sample.running [] 200)
                    (Sample.extending None) eq_refl) eq_refl).
  - destruct (proj2 (C6_extend_video (Sample.host Sample.running [] 200)
                       (Sample.extending (Some Sample.previous)) eq_refl)
                    Sample.previous eq_refl) as (payload & Hp & Hv & _).
    exists payload. split; assumption.
Defined.

(** C9.  Every request whose mode is not extend-video is built, and what
    [generateVideo] submits for it has the requested [aspectRatio] in its
    config; an extend-video request that has its input video object is
    submitted with a config that holds [numberOfVideos] and [resolution]
    and nothing else.  So the config of a video request has an
    [aspectRatio] exactly when the mode is not extend-video. *)
Theorem C9_aspect_ratio (params : Params.t) :
  (Params.mode params <> EXTEND_VIDEO ->
   exists payload,
     generateVideoPayload params = Ok payload
     /\ Config.aspectRatio (Payload.config payload)
        = Some (Params.aspectRatio params)
     /\ forall host, exists rest,
          trace (generateVideo host params) = GenerateVideos payload :: rest)
  /\ (Params.mode params = EXTEND_VIDEO ->
      forall v, Params.inputVideoObject params = Some v ->
      exists payload,
        generateVideoPayload params = Ok payload
        /\ Payload.config payload
           = {| Config.numberOfVideos := 1;
                Config.resolution := Params.resolution params;
                Config.aspectRatio := None;
                Config.lastFrame := None;
                Config.referenceImages := None |}
        /\ forall host, exists rest,
             trace (generateVideo host params) = GenerateVideos payload :: rest)
  /\ (forall payload,
        generateVideoPayload params = Ok payload ->
        (Config.aspectRatio (Payload.config payload) <> None
         <-> Params.mode params <> EXTEND_VIDEO)
        /\ (Params.mode params <> EXTEND_VIDEO ->
            Config.aspectRatio (Payload.config payload)
            = Some (Params.aspectRatio params))
        /\ (Params.mode params = EXTEND_VIDEO ->
            Payload.config payload
            = {| Config.numberOfVideos := 1;
                 Config.resolution := Params.resolution params;
                 Config.aspectRatio := None;
                 Config.lastFrame := None;
                 Config.referenceImages := None |})).
Proof.
  assert (Hany : forall payload,
             generateVideoPayload params = Ok payload ->
             (Config.aspectRatio (Payload.config payload) <> None
              <-> Params.mode params <> EXTEND_VIDEO)
             /\ (Params.mode params <> EXTEND_VIDEO ->
                 Config.aspectRatio (Payload.config payload)
                 = Some (Params.aspectRatio params))
             /\ (Params.mode params = EXTEND_VIDEO ->
                 Payload.config payload
                 = {| Config.numberOfVideos := 1;
                      Config.resolution := Params.resolution params;
                      Config.aspectRatio := None;
                      Config.lastFrame := None;
                      Config.referenceImages := None |})).
  { intros payload Hp.
    destruct (config_base params payload Hp) as (Hn & Hr & Ha).
    repeat split.
    - intros Hsome Hmode. rewrite Ha, Hmode in Hsome. now apply Hsome.
    - intros Hmode. rewrite Ha. destruct (Params.mode params);
        [discriminate..|now elim Hmode].
    - intros Hmode. rewrite Ha. destruct (Params.mode params);
        [reflexivity..|now elim Hmode].
    - intros Hmode. revert Hp. unfold generateVideoPayload. rewrite Hmode.
      destruct (Params.inputVideoObject params); [|discriminate].
      intros H. injection H as <-.
      destruct (truthy (Params.prompt params)); reflexivity. }
  split; [|split; [|exact Hany]].
  - intros Hmode.
    destruct (non_extend_builds params Hmode) as (payload & Hp).
    exists payload. split; [exact Hp|]. split.
    + now apply (Hany payload Hp).
    + intros host. now apply generateVideo_submits.
  - intros Hmode v Hv.
    assert (Hp : exists payload, generateVideoPayload params = Ok payload).
    { unfold generateVideoPayload. rewrite Hmode, Hv. eexists. reflexivity. }
    destruct Hp as (payload & Hp).
    exists payload. split; [exact Hp|]. split.
    + now apply (Hany payload Hp).
    + intros host. now apply generateVideo_submits.
Qed.

Lemma C9_aspect_ratio_witness :
  (exists payload,
      generateVideoPayload
        (Sample.withFrames (Some Sample.startImg) None None false) = Ok payload
      /\ Config.aspectRatio (Payload.config payload) = Some PORTRAIT)
  /\ exists payload,
       generateVideoPayload (Sample.extending (Some Sample.previous))
       = Ok payload
       /\ Payload.config payload
          = {| Config.numberOfVideos := 1; Config.resolution := P720;
               Config.aspectRatio := None; Config.lastFrame := None;
               Config.referenceImages := None |}.
Proof.
  split.
  - destruct (proj1 (C9_aspect_ratio
                       (Sample.withFrames (Some Sample.startImg) None None
                                          false)))
      as (payload & Hp & Ha & _); [discriminate|].
    exists payload. split; assumption.
  - destruct (proj1 (proj2 (C9_aspect_ratio
                              (Sample.extending (Some Sample.previous))))
                    eq_refl Sample.previous eq_refl)
      as (payload & Hp & Hc & _).
    exists payload. split; assumption.
Defined.

(** C10.  In a frames-to-video request with a middle frame,
    [config.referenceImages] is the one-element list of that frame's bytes
    and MIME type as an ASSET; [image] and [config.lastFrame] come from the
    start and end frames alone, whatever the middle frame is. *)
Theorem C10_middle_frame (params : Params.t) (m : ImageFile.t) :
  Params.mode params = FRAMES_TO_VIDEO ->
  Params.middleFrame params = Some m ->
  exists payload,
    generateVideoPayload params = Ok payload
    /\ Config.referenceImages (Payload.config payload)
       = Some [{| ReferenceImage.image :=
                    {| Image.imageBytes := ImageFile.base64 m;
                       Image.mimeType := File.type (ImageFile.file m) |};
                  ReferenceImage.referenceType := ASSET |}]
    /\ Payload.image payload = option_map toImage (Params.startFrame params)
    /\ Config.lastFrame (Payload.config payload)
       = option_map toImage
           (if Params.isLooping params
            then Params.startFrame params else Params.endFrame params)
    /\ forall other payload',
         Params.mode other = FRAMES_TO_VIDEO ->
         Params.startFrame other = Params.startFrame params ->
         Params.endFrame other = Params.endFrame params ->
         Params.isLooping other = Params.isLooping params ->
         generateVideoPayload other = Ok payload' ->
         Payload.image payload' = Payload.image payload
         /\ Config.lastFrame (Payload.config payload')
            = Config.lastFrame (Payload.config payload).
Proof.
  intros Hmode Hmid.
  destruct (frames_payload params Hmode)
    as (payload & Hp & Himg & Hlast & Hrefs & _).
  exists payload. split; [exact Hp|].
  split; [rewrite Hrefs, Hmid; reflexivity|].
  split; [exact Himg|]. split; [exact Hlast|].
  intros other payload' Hmode' Hs He Hl Hp'.
  destruct (frames_payload other Hmode')
    as (q & Hq & Himg' & Hlast' & _).
  rewrite Hq in Hp'. injection Hp' as <-.
  rewrite Himg', Hlast', Himg, Hlast, Hs, He, Hl. split; reflexivity.
Qed.

Lemma C10_middle_frame_witness :
  exists payload,
    generateVideoPayload
      (Sample.withFrames (Some Sample.startImg) (Some Sample.middleImg)
                         (Some Sample.endImg) false)
    = Ok payload
    /\ Config.referenceImages (Payload.config payload)
       = Some [assetReference Sample.middleImg]
    /\ Payload.image payload = Some (toImage Sample.startImg)
    /\ Config.lastFrame (Payload.config payload)
       = Some (toImage Sample.endImg).
Proof.
  destruct (C10_middle_frame
              (Sample.withFrames (Some Sample.startImg) (Some Sample.middleImg)
                                 (Some Sample.endImg) false)
              Sample.middleImg eq_refl eq_refl)
    as (payload & Hp & Hrefs & Himg & Hlast & _).
  exists payload. repeat split; assumption.
Defined.

(* ------------------------------------------------------------------ *)
(** ** The polling loop *)

Section PollingFacts.

Local Abbreviation fallback :=
  (lit "Video generation operation failed during processing.").

(** One step of the loop, case by case. *)
Lemma pollLoop_done answers op :
  Operation.done op = true -> pollLoop answers op = ([], Return op).
Proof. intros H. destruct answers; cbn; rewrite H; reflexivity. Qed.

Lemma pollLoop_dry op :
  Operation.done op = false ->
  pollLoop [] op = (Spec.rounds [op], Pending).
Proof. intros H. cbn. rewrite H. reflexivity. Qed.

Lemma pollLoop_rejected e later op :
  Operation.done op = false ->
  pollLoop (Err e :: later) op = (Spec.rounds [op], Throw e).
Proof. intros H. cbn. rewrite H. reflexivity. Qed.

Lemma pollLoop_error r err later op :
  Operation.done op = false ->
  Operation.error r = Some err ->
  pollLoop (Ok r :: later) op
  = (Spec.rounds [op],
     Throw (Error (orElse (OpError.message err) fallback))).
Proof. intros H He. cbn. rewrite H. cbn. rewrite He. reflexivity. Qed.

Lemma pollLoop_running r later op :
  Operation.done op = false ->
  Operation.error r = None ->
  pollLoop (Ok r :: later) op
  = (Spec.rounds [op] ++ trace (pollLoop later r),
     completion (pollLoop later r)).
Proof.
  intros H He. cbn [pollLoop]. rewrite H. cbn. rewrite He.
  destruct (pollLoop later r) as [tr [o|e|]]; reflexivity.
Qed.

Lemma rounds_app l1 l2 :
  Spec.rounds (l1 ++ l2) = Spec.rounds l1 ++ Spec.rounds l2.
Proof. apply flat_map_app. Qed.

Lemma polls_rounds l : Spec.polls (Spec.rounds l) = List.length l.
Proof.
  unfold Spec.polls. induction l as [|op l IH]; cbn; [reflexivity|].
  now f_equal.
Qed.

Lemma fetches_rounds l : Spec.fetches (Spec.rounds l) = 0%nat.
Proof.
  unfold Spec.fetches. induction l as [|op l IH]; cbn; [reflexivity|].
  exact IH.
Qed.

Lemma last_cons {A} (pre : list A) : forall p x : A,
  last (p :: pre) x = last pre p.
Proof.
  induction pre as [|q pre IH]; intros p x; [reflexivity|].
  change (last (p :: q :: pre) x) with (last (q :: pre) x).
  now rewrite !IH.
Qed.

(** While the answers are statuses that are still running, the loop goes
    round once per status and carries on from the last of them. *)
Lemma pollLoop_prefix pre : forall op0 rest,
  Forall Spec.stillRunning pre ->
  (pre <> [] -> Operation.done op0 = false) ->
  pollLoop (map Ok pre ++ rest) op0
  = (Spec.rounds (removelast (op0 :: pre))
       ++ trace (pollLoop rest (last pre op0)),
     completion (pollLoop rest (last pre op0))).
Proof.
  induction pre as [|p pre IH]; intros op0 rest Hpre Hop0.
  - cbn. now destruct (pollLoop rest op0).
  - inversion Hpre as [|? ? [Hd He] Hpre']; subst.
    change (map Ok (p :: pre) ++ rest) with (Ok p :: (map Ok pre ++ rest)).
    rewrite pollLoop_running by (auto; apply Hop0; discriminate).
    rewrite (IH p rest Hpre' (fun _ => Hd)). unfold trace, completion. cbn [fst snd].
    rewrite (last_cons pre p op0).
    change (removelast (op0 :: p :: pre)) with (op0 :: removelast (p :: pre)).
    change (Spec.rounds (op0 :: removelast (p :: pre)))
      with (Spec.rounds [op0] ++ Spec.rounds (removelast (p :: pre))).
    now rewrite <- app_assoc.
Qed.

Lemma removelast_last_cons {A} (pre : list A) (x : A) :
  removelast (x :: pre) ++ [last pre x] = x :: pre.
Proof.
  revert x. induction pre as [|p pre IH]; intros x; [reflexivity|].
  change (removelast (x :: p :: pre)) with (x :: removelast (p :: pre)).
  cbn [app]. f_equal.
  rewrite (last_cons pre p x). apply IH.
Qed.

Lemma last_running pre op0 :
  Forall Spec.stillRunning pre ->
  Operation.done op0 = false ->
  Operation.done (last pre op0) = false.
Proof.
  revert op0. induction pre as [|p pre IH]; intros op0 Hpre H0; [exact H0|].
  inversion Hpre as [|? ? [Hd _] Hpre']; subst.
  rewrite last_cons. apply IH; assumption.
Qed.

(** The loop as far as the first answer that is not a running status. *)
Lemma pollLoop_until pre a rest op0 :
  Operation.done op0 = false ->
  Forall Spec.stillRunning pre ->
  pollLoop (map Ok pre ++ a :: rest) op0
  = (Spec.rounds (op0 :: pre)
       ++ match a with
          | Ok r => match Operation.error r with
                    | Some _ => []
                    | None => trace (pollLoop rest r)
                    end
          | Err _ => []
          end,
     match a with
     | Ok r => match Operation.error r with
               | Some err =>
                   Throw (Error (orElse (OpError.message err) fallback))
               | None => completion (pollLoop rest r)
               end
     | Err e => Throw e
     end).
Proof.
  intros H0 Hpre.
  assert (Hr : Spec.rounds (op0 :: pre)
               = Spec.rounds (removelast (op0 :: pre))
                 ++ Spec.rounds [last pre op0])
    by (now rewrite <- rounds_app, removelast_last_cons).
  rewrite Hr, <- app_assoc.
  rewrite pollLoop_prefix by auto.
  pose proof (last_running pre op0 Hpre H0) as Hl.
  destruct a as [r|e].
  - destruct (Operation.error r) as [err|] eqn:He.
    + rewrite (pollLoop_error r err rest _ Hl He). reflexivity.
    + rewrite (pollLoop_running r rest _ Hl He). reflexivity.
  - rewrite (pollLoop_rejected e rest _ Hl). reflexivity.
Qed.

(** The calls of the loop are rounds, each started from a status that
    is not done, and the loop leaves only with a status that is. *)
Lemma pollLoop_shape answers : forall op0,
  exists polled,
    trace (pollLoop answers op0) = Spec.rounds polled
    /\ Forall (fun op => Operation.done op = false) polled
    /\ (forall op, completion (pollLoop answers op0) = Return op ->
                   Operation.done op = true).
Proof.
  induction answers as [|a later IH]; intros op0;
    destruct (Operation.done op0) eqn:Hd.
  - exists []. rewrite pollLoop_done by assumption. cbn.
    repeat split; auto. intros op [= <-]. exact Hd.
  - exists [op0]. rewrite pollLoop_dry by assumption. cbn.
    repeat split; auto. discriminate.
  - exists []. rewrite pollLoop_done by assumption. cbn.
    repeat split; auto. intros op [= <-]. exact Hd.
  - destruct a as [r|e].
    + destruct (Operation.error r) as [err|] eqn:He.
      * exists [op0]. rewrite (pollLoop_error r err later _ Hd He). cbn.
        repeat split; auto. discriminate.
      * destruct (IH r) as (polled & Htr & Hall & Hret).
        exists (op0 :: polled).
        rewrite (pollLoop_running r later _ Hd He).
        unfold trace, completion in *. cbn [fst snd].
        rewrite Htr. repeat split; auto.
    + exists [op0]. rewrite pollLoop_rejected by assumption. cbn.
      repeat split; auto. discriminate.
Qed.

Lemma terminal_later op0 answers :
  Exists Spec.terminal (Ok op0 :: answers) ->
  Operation.done op0 = false ->
  Exists Spec.terminal answers.
Proof.
  intros Hex Hd. inversion Hex as [? ? Hterm|? ? Htail]; subst.
  - destruct Hterm as (op & Heq & Hop). injection Heq as <-. congruence.
  - exact Htail.
Qed.

(** A terminal status among the statuses ends the loop. *)
Lemma pollLoop_settles answers : forall op0,
  Exists Spec.terminal (Ok op0 :: answers) ->
  completion (pollLoop answers op0) <> Pending.
Proof.
  induction answers as [|a later IH]; intros op0 Hex;
    destruct (Operation.done op0) eqn:Hd;
    try (rewrite pollLoop_done by assumption; discriminate);
    pose proof (terminal_later _ _ Hex Hd) as Hlater.
  - inversion Hlater.
  - destruct a as [r|e].
    + destruct (Operation.error r) as [err|] eqn:He.
      * rewrite (pollLoop_error r err later _ Hd He). discriminate.
      * rewrite (pollLoop_running r later _ Hd He). apply IH, Hlater.
    + rewrite pollLoop_rejected by assumption. discriminate.
Qed.

(** What follows the loop always ends. *)
Lemma retrieve_settles host op : completion (retrieve host op) <> Pending.
Proof.
  unfold retrieve.
  destruct (Operation.error op); [discriminate|].
  destruct (Operation.response op) as [resp|]; [|discriminate].
  destruct (VideosResponse.generatedVideos resp) as [[|g l]|];
    try discriminate.
  destruct (videoWithUri g) as [[v u]|]; [|discriminate].
  destruct (Host.decodeURIComponent host u) as [url|]; [|discriminate].
  destruct (Host.fetch host _) as [res|e]; [|discriminate].
  cbn. destruct (FetchResponse.ok res); [|discriminate].
  cbn. destruct (FetchResponse.blob res); discriminate.
Qed.

(** [generateVideo] once the request is built and the job started. *)
Lemma generateVideo_started host params payload op0 :
  generateVideoPayload params = Ok payload ->
  Host.generateVideos host payload = Ok op0 ->
  generateVideo host params
  = (operation <- (GenerateVideos payload
                     :: trace (pollLoop (Host.getVideosOperation host) op0),
                   completion (pollLoop (Host.getVideosOperation host) op0)) ;;
     retrieve host operation).
Proof.
  intros Hp Hg. unfold generateVideo. rewrite Hp.
  unfold await. rewrite Hg. cbn.
  destruct (pollLoop _ op0) as [tr [o|e|]]; cbn; try reflexivity.
  destruct (retrieve host o); reflexivity.
Qed.

End PollingFacts.

Lemma sample_still_running : Spec.stillRunning Sample.running.
Proof. split; reflexivity. Qed.

Section RunFacts.

Variable host : Host.t.

Lemma delays_rounds l : Run.delays (Spec.rounds l) = List.length l.
Proof.
  unfold Run.delays. induction l as [|op l IH]; cbn; [reflexivity|].
  now f_equal.
Qed.

Lemma delays_app tr1 tr2 :
  Run.delays (tr1 ++ tr2) = (Run.delays tr1 + Run.delays tr2)%nat.
Proof. unfold Run.delays. now rewrite filter_app, length_app. Qed.

Lemma polls_app tr1 tr2 :
  Spec.polls (tr1 ++ tr2) = (Spec.polls tr1 + Spec.polls tr2)%nat.
Proof. unfold Spec.polls. now rewrite filter_app, length_app. Qed.

(** What follows the loop makes at most the three calls of a download. *)
Lemma retrieve_tail op : Run.retrievalTail (trace (retrieve host op)).
Proof.
  unfold retrieve, Run.retrievalTail.
  destruct (Operation.error op); [left; reflexivity|].
  destruct (Operation.response op) as [resp|]; [|left; reflexivity].
  destruct (VideosResponse.generatedVideos resp) as [[|g l]|];
    try (left; reflexivity).
  destruct (videoWithUri g) as [[v u]|]; [|left; reflexivity].
  destruct (Host.decodeURIComponent host u) as [url|]; [|left; reflexivity].
  unfold await.
  destruct (Host.fetch host _) as [res|e];
    [|right; left; eexists; reflexivity].
  cbn.
  destruct (FetchResponse.ok res); cbn;
    [|right; left; eexists; reflexivity].
  destruct (FetchResponse.blob res) as [b|e]; cbn.
  - right; right; right. do 2 eexists. reflexivity.
  - right; right; left. eexists. reflexivity.
Qed.

Lemma tail_counts tail :
  Run.retrievalTail tail ->
  Run.delays tail = 0%nat /\ Spec.polls tail = 0%nat
  /\ (Spec.fetches tail <= 1)%nat.
Proof.
  intros [->|[(t & ->)|[(t & ->)|(t & b & ->)]]]; cbn; auto.
Qed.

End RunFacts.

(** C2.  When a status refresh made by the polling loop reports a server
    error, [generateVideo] throws at once with that error's message, or
    with 'Video generation operation failed during processing.' when the
    error has no message (none, or an empty one): that refresh is the last
    one, whatever the endpoint would have answered later, and the result
    asset is never fetched. *)
Theorem C2_poll_error_is_thrown
    (host : Host.t) (params : Params.t) (payload : Payload.t)
    (op0 : Operation.t) (pre : list Operation.t)
    (e : Operation.t) (err : OpError.t) (later : list (Try Operation.t)) :
  generateVideoPayload params = Ok payload ->
  Host.generateVideos host payload = Ok op0 ->
  Operation.done op0 = false ->
  Forall Spec.stillRunning pre ->
  Host.getVideosOperation host = map Ok pre ++ Ok e :: later ->
  Operation.error e = Some err ->
  let m := generateVideo host params in
  completion m
  = Throw (Error
      match OpError.message err with
      | Some (c :: s) => c :: s
      | _ => lit "Video generation operation failed during processing."
      end)
  /\ trace m = GenerateVideos payload :: Spec.rounds (op0 :: pre)
  /\ Spec.polls (trace m) = S (List.length pre)
  /\ Spec.fetches (trace m) = 0%nat.
Proof.
  intros Hp Hg Hd Hpre Hscript He m.
  assert (Hm : m = (GenerateVideos payload :: Spec.rounds (op0 :: pre),
                    Throw (Error (orElse (OpError.message err)
                      (lit "Video generation operation failed during processing."))))).
  { unfold m. rewrite (generateVideo_started host params payload op0 Hp Hg).
    rewrite Hscript, (pollLoop_until pre (Ok e) later op0 Hd Hpre), He.
    unfold trace, completion. cbn [fst snd bind].
    now rewrite app_nil_r. }
  rewrite Hm. unfold trace, completion. cbn [fst snd].
  split; [|split; [reflexivity|split]].
  - unfold orElse. destruct (OpError.message err) as [[|c s]|]; reflexivity.
  - change (Spec.polls (GenerateVideos payload :: Spec.rounds (op0 :: pre)))
      with (Spec.polls (Spec.rounds (op0 :: pre))).
    now rewrite polls_rounds.
  - change (Spec.fetches (GenerateVideos payload :: Spec.rounds (op0 :: pre)))
      with (Spec.fetches (Spec.rounds (op0 :: pre))).
    apply fetches_rounds.
Qed.

Lemma C2_poll_error_is_thrown_witness :
  let m := generateVideo
             (Sample.host Sample.running
                [Ok Sample.running;
                 Ok (Sample.failed false (Some (lit "quota exceeded")));
                 Ok (Sample.finished (Some [Sample.generated (Some (lit "u"))]))]
                200)
             (Sample.bare TEXT_TO_VIDEO) in
  completion m = Throw (Error (lit "quota exceeded"))
  /\ Spec.polls (trace m) = 2%nat
  /\ Spec.fetches (trace m) = 0%nat.
Proof.
  cbv zeta.
  destruct (C2_poll_error_is_thrown
              (Sample.host Sample.running
                 [Ok Sample.running;
                  Ok (Sample.failed false (Some (lit "quota exceeded")));
                  Ok (Sample.finished
                        (Some [Sample.generated (Some (lit "u"))]))]
                 200)
              (Sample.bare TEXT_TO_VIDEO) _ Sample.running [Sample.running]
              (Sample.failed false (Some (lit "quota exceeded")))
              {| OpError.message := Some (lit "quota exceeded") |}
              [Ok (Sample.finished (Some [Sample.generated (Some (lit "u"))]))]
              eq_refl eq_refl eq_refl
              (Forall_cons Sample.running
                 sample_still_running
                 (Forall_nil _))
              eq_refl eq_refl)
    as (Hc & _ & Hpolls & Hfetches).
  split; [exact Hc|]. split; [exact Hpolls|exact Hfetches].
Defined.

(** C3.  When the statuses the endpoint reports (the one the job starts
    with, then the refreshed ones) contain a terminal status, the polling
    loop ends and so does [generateVideo].  In the calls of [generateVideo]
    the submission is followed by rounds, each the fixed delay of 10000 ms
    and then one re-fetch, made only from a status that is not done, and
    after the rounds nothing is polled any more.  The loop is left at the
    first status that is done: no round when the job starts done, one round
    per running status otherwise, and [generateVideo] goes on with that
    terminal status as if the job had started with it. *)
Theorem C3_poll_loop_terminates
    (host : Host.t) (params : Params.t) (payload : Payload.t)
    (op0 : Operation.t) :
  generateVideoPayload params = Ok payload ->
  Host.generateVideos host payload = Ok op0 ->
  Exists Spec.terminal (Ok op0 :: Host.getVideosOperation host) ->
  let loop := pollLoop (Host.getVideosOperation host) op0 in
  let run := generateVideo host params in
  completion loop <> Pending
  /\ completion run <> Pending
  /\ (exists polled,
        trace loop = Spec.rounds polled
        /\ Forall (fun op => Operation.done op = false) polled
        /\ forall op, completion loop = Return op -> Operation.done op = true)
  /\ (exists polled tail,
        trace run = GenerateVideos payload :: Spec.rounds polled ++ tail
        /\ Forall (fun op => Operation.done op = false) polled
        /\ Run.retrievalTail tail
        /\ Spec.polls (trace run) = List.length polled
        /\ Run.delays (trace run) = List.length polled)
  /\ (Operation.done op0 = true ->
      loop = ([], Return op0)
      /\ Spec.polls (trace run) = 0%nat
      /\ exists tail,
           trace run = GenerateVideos payload :: tail
           /\ Run.retrievalTail tail)
  /\ (forall pre final later,
        Host.getVideosOperation host = map Ok pre ++ Ok final :: later ->
        Operation.done op0 = false ->
        Forall Spec.stillRunning pre ->
        Operation.done final = true ->
        Operation.error final = None ->
        loop = (Spec.rounds (op0 :: pre), Return final)
        /\ (exists tail,
              trace run
              = GenerateVideos payload :: Spec.rounds (op0 :: pre) ++ tail
              /\ Run.retrievalTail tail)
        /\ Spec.polls (trace run) = S (List.length pre)
        /\ Run.delays (trace run) = S (List.length pre)
        /\ completion run
           = completion (generateVideo (Run.startedAs final host) params)).
Proof.
  intros Hp Hg Hex loop run.
  pose proof (pollLoop_settles _ _ Hex) as Hloop. fold loop in Hloop.
  assert (Hrun : run = (operation <- (GenerateVideos payload :: trace loop,
                                      completion loop) ;;
                        retrieve host operation))
    by exact (generateVideo_started host params payload op0 Hp Hg).
  assert (Hcount : forall polled tail,
             Run.retrievalTail tail ->
             Spec.polls (GenerateVideos payload :: Spec.rounds polled ++ tail)
             = List.length polled
             /\ Run.delays (GenerateVideos payload
                              :: Spec.rounds polled ++ tail)
                = List.length polled).
  { intros polled tail Htail.
    destruct (tail_counts tail Htail) as (Hd & Hpl & _).
    change (GenerateVideos payload :: Spec.rounds polled ++ tail)
      with ([GenerateVideos payload] ++ Spec.rounds polled ++ tail).
    rewrite !polls_app, !delays_app, polls_rounds, delays_rounds, Hd, Hpl.
    cbn. split; lia. }
  assert (Hleft : forall polled op,
             loop = (Spec.rounds polled, Return op) ->
             trace run
             = GenerateVideos payload
                 :: Spec.rounds polled ++ trace (retrieve host op)
             /\ completion run = completion (retrieve host op)).
  { intros polled op Hl. rewrite Hrun, Hl. unfold trace, completion.
    cbn [fst snd bind]. destruct (retrieve host op). split; reflexivity. }
  split; [exact Hloop|]. split; [|split; [|split; [|split]]].
  - rewrite Hrun. destruct loop as [tr [o|e|]]; cbn.
    + pose proof (retrieve_settles host o) as Hr.
      destruct (retrieve host o) as [tr' c]. exact Hr.
    + discriminate.
    + now elim Hloop.
  - apply pollLoop_shape.
  - destruct (pollLoop_shape (Host.getVideosOperation host) op0)
      as (polled & Htr & Hall & _).
    fold loop in Htr. exists polled.
    assert (Htail : exists tail,
               trace run = GenerateVideos payload :: Spec.rounds polled ++ tail
               /\ Run.retrievalTail tail).
    { rewrite Hrun. destruct loop as [tr [op|e|]];
        unfold trace, completion in *; cbn [fst snd] in *; subst tr.
      - exists (fst (retrieve host op)). cbn [bind].
        pose proof (retrieve_tail host op) as Htail. unfold trace in Htail.
        destruct (retrieve host op) as [tr' c']. cbn [fst snd] in *. auto.
      - exists []. cbn. rewrite app_nil_r. split; [reflexivity|now left].
      - exists []. cbn. rewrite app_nil_r. split; [reflexivity|now left]. }
    destruct Htail as (tail & Htr' & Htail). exists tail.
    rewrite Htr'. destruct (Hcount polled tail Htail). auto.
  - intros Hd.
    assert (Hl : loop = (Spec.rounds [], Return op0))
      by (apply pollLoop_done, Hd).
    destruct (Hleft [] op0 Hl) as [Htr _].
    split; [exact Hl|].
    pose proof (retrieve_tail host op0) as Htail.
    split.
    + rewrite Htr. now destruct (Hcount [] _ Htail).
    + exists (trace (retrieve host op0)). split; [exact Htr|exact Htail].
  - intros pre final later Hscript Hd Hpre Hfin Herr.
    assert (Hl : loop = (Spec.rounds (op0 :: pre), Return final)).
    { unfold loop.
      rewrite Hscript, (pollLoop_until pre (Ok final) later op0 Hd Hpre), Herr.
      rewrite (pollLoop_done later final Hfin). cbn.
      now rewrite app_nil_r. }
    destruct (Hleft (op0 :: pre) final Hl) as [Htr Hc].
    pose proof (retrieve_tail host final) as Htail.
    split; [exact Hl|]. split; [|split; [|split]].
    + exists (trace (retrieve host final)). split; [exact Htr|exact Htail].
    + rewrite Htr. now destruct (Hcount (op0 :: pre) _ Htail).
    + rewrite Htr. now destruct (Hcount (op0 :: pre) _ Htail).
    + rewrite Hc.
      rewrite (generateVideo_started (Run.startedAs final host) params
                 payload final Hp eq_refl).
      rewrite (pollLoop_done _ final Hfin).
      unfold trace, completion. cbn [fst snd bind].
      change (retrieve (Run.startedAs final host) final)
        with (retrieve host final).
      destruct (retrieve host final). reflexivity.
Qed.

Lemma C3_poll_loop_terminates_witness :
  let script :=
    [Ok Sample.running; Ok Sample.running;
     Ok (Sample.finished (Some [Sample.generated (Some (lit "u"))]));
     Ok Sample.running] in
  let run := generateVideo (Sample.host Sample.running script 200)
                           (Sample.bare TEXT_TO_VIDEO) in
  pollLoop script Sample.running
  = (Spec.rounds [Sample.running; Sample.running; Sample.running],
     Return (Sample.finished (Some [Sample.generated (Some (lit "u"))])))
  /\ completion run <> Pending
  /\ Spec.polls (trace run) = 3%nat
  /\ Run.delays (trace run) = 3%nat.
Proof.
  cbv zeta.
  assert (Hex : Exists Spec.terminal
            (Ok Sample.running
             :: Host.getVideosOperation
                  (Sample.host Sample.running
                     [Ok Sample.running; Ok Sample.running;
                      Ok (Sample.finished
                            (Some [Sample.generated (Some (lit "u"))]));
                      Ok Sample.running] 200))).
  { apply Exists_cons_tl, Exists_cons_tl, Exists_cons_tl, Exists_cons_hd.
    eexists. split; reflexivity. }
  destruct (C3_poll_loop_terminates
              (Sample.host Sample.running
                 [Ok Sample.running; Ok Sample.running;
                  Ok (Sample.finished
                        (Some [Sample.generated (Some (lit "u"))]));
                  Ok Sample.running] 200)
              (Sample.bare TEXT_TO_VIDEO) _ Sample.running
              eq_refl eq_refl Hex)
    as (_ & Hends & _ & _ & _ & Hexact).
  destruct (Hexact [Sample.running; Sample.running]
              (Sample.finished (Some [Sample.generated (Some (lit "u"))]))
              [Ok Sample.running] eq_refl eq_refl
              (Forall_cons Sample.running sample_still_running
                 (Forall_cons Sample.running sample_still_running
                    (Forall_nil _)))
              eq_refl eq_refl)
    as (Hloop & _ & Hpolls & Hdelays & _).
  split; [exact Hloop|]. split; [exact Hends|]. split; assumption.
Defined.

(* ------------------------------------------------------------------ *)
(** ** Retrieval of the asset *)

Section RetrievalFacts.

Lemma fetches_app tr1 tr2 :
  Spec.fetches (tr1 ++ tr2) = (Spec.fetches tr1 + Spec.fetches tr2)%nat.
Proof. unfold Spec.fetches. now rewrite filter_app, length_app. Qed.

(** [generateVideo] once the loop has been left with [op]. *)
Lemma generateVideo_after_loop host params payload op0 polled op :
  generateVideoPayload params = Ok payload ->
  Host.generateVideos host payload = Ok op0 ->
  pollLoop (Host.getVideosOperation host) op0 = (polled, Return op) ->
  Operation.done op = true
  /\ completion (generateVideo host params) = completion (retrieve host op)
  /\ trace (generateVideo host params)
     = GenerateVideos payload :: polled ++ trace (retrieve host op)
  /\ Spec.fetches (trace (generateVideo host params))
     = Spec.fetches (trace (retrieve host op)).
Proof.
  intros Hp Hg Hloop.
  destruct (pollLoop_shape (Host.getVideosOperation host) op0)
    as (pl & Htr & _ & Hret).
  rewrite Hloop in Htr, Hret. unfold trace, completion in Htr, Hret.
  cbn [fst snd] in Htr, Hret.
  split; [now apply Hret|].
  rewrite (generateVideo_started host params payload op0 Hp Hg), Hloop.
  unfold trace, completion. cbn [fst snd bind].
  destruct (retrieve host op) as [tr c]. cbn [fst snd].
  repeat split.
  change (GenerateVideos payload :: polled ++ tr)
    with ((GenerateVideos payload :: polled) ++ tr).
  rewrite fetches_app.
  change (Spec.fetches (GenerateVideos payload :: polled))
    with (Spec.fetches polled).
  rewrite Htr, fetches_rounds. reflexivity.
Qed.

(** The first generated video, read off the response. *)
Lemma videosOf_first op g rest :
  Spec.videosOf op = g :: rest ->
  exists resp,
    Operation.response op = Some resp
    /\ VideosResponse.generatedVideos resp = Some (g :: rest).
Proof.
  unfold Spec.videosOf.
  destruct (Operation.response op) as [resp|]; [|discriminate].
  destruct (VideosResponse.generatedVideos resp) as [l|] eqn:Hl;
    [|discriminate].
  intros ->. exists resp. split; [reflexivity|exact Hl].
Qed.

Lemma videoWithUri_present g v u :
  GeneratedVideo.video g = Some v -> Video.uri v = Some u -> u <> [] ->
  videoWithUri g = Some (v, u).
Proof.
  intros Hv Hu Hne. unfold videoWithUri. rewrite Hv, Hu.
  destruct u; [now elim Hne|reflexivity].
Qed.

(** A result URI is present exactly when the video object has a [uri]
    that is not the empty string; the code then works with that pair. *)
Lemma hasUri_present g :
  Spec.hasUri g = true
  <-> exists v u, GeneratedVideo.video g = Some v
                  /\ Video.uri v = Some u /\ u <> [].
Proof.
  unfold Spec.hasUri. split.
  - destruct (GeneratedVideo.video g) as [v|]; [|discriminate].
    destruct (Video.uri v) as [[|c u]|] eqn:Hu; try discriminate.
    intros _. exists v, (c :: u). repeat split; auto. discriminate.
  - intros (v & u & -> & -> & Hne). destruct u; [now elim Hne|reflexivity].
Qed.

Lemma videoWithUri_absent g :
  Spec.hasUri g = false -> videoWithUri g = None.
Proof.
  unfold Spec.hasUri, videoWithUri.
  destruct (GeneratedVideo.video g) as [v|]; [|reflexivity].
  destruct (Video.uri v) as [[|c u]|]; try reflexivity. discriminate.
Qed.

(** Without such a URI nothing is requested and nothing returned. *)
Lemma retrieve_without_uri host op :
  Operation.error op = None ->
  (forall v url, ~ Run.firstUriDecodes host op v url) ->
  trace (retrieve host op) = []
  /\ forall r, completion (retrieve host op) <> Return r.
Proof.
  intros Herr Hno. unfold retrieve. rewrite Herr.
  destruct (Operation.response op) as [resp|] eqn:Hresp;
    [|split; [reflexivity|discriminate]].
  destruct (VideosResponse.generatedVideos resp) as [[|g l]|] eqn:Hl;
    try (split; [reflexivity|discriminate]).
  destruct (Spec.hasUri g) eqn:Hg.
  - apply hasUri_present in Hg. destruct Hg as (v & u & Hv & Hu & Hne).
    rewrite (videoWithUri_present g v u Hv Hu Hne).
    destruct (Host.decodeURIComponent host u) as [url|] eqn:Hdec;
      [|split; [reflexivity|discriminate]].
    elim (Hno v url). exists g, l, u. unfold Spec.videosOf.
    rewrite Hresp, Hl. auto.
  - rewrite (videoWithUri_absent g Hg). split; [reflexivity|discriminate].
Qed.

(** With one, the rest of the function is the download. *)
Lemma retrieve_with_uri host op v url :
  Operation.error op = None ->
  Run.firstUriDecodes host op v url ->
  retrieve host op
  = (let target := url ++ lit "&key=" ++ interpolate (Host.API_KEY host) in
     res <- await (Fetch target) (Host.fetch host target) ;;
     if negb (FetchResponse.ok res) then
       throw (Error (lit "Failed to fetch video: "
                       ++ ofNumber (FetchResponse.status res)
                       ++ lit " " ++ FetchResponse.statusText res))
     else
       videoBlob <- await ReadBlob (FetchResponse.blob res) ;;
       objectUrl <- call (CreateObjectURL videoBlob)
                         (Host.createObjectURL host videoBlob) ;;
       ret {| Result.objectUrl := objectUrl; Result.blob := videoBlob;
              Result.uri := url; Result.video := v |}).
Proof.
  intros Herr (g & rest & u & Hfirst & Hv & Hu & Hne & Hdec).
  destruct (videosOf_first op g rest Hfirst) as (resp & Hresp & Hl).
  unfold retrieve. rewrite Herr, Hresp, Hl.
  rewrite (videoWithUri_present g v u Hv Hu Hne), Hdec. reflexivity.
Qed.

End RetrievalFacts.

(** C7, as amended.  When the operation is done and carries no server
    error, [generateVideo] requests the asset exactly when the first
    generated video of the response has a non-empty URI that decodes, and
    it returns the asset exactly when, moreover, that request is answered,
    the answer is ok and its body can be read.  Otherwise it throws: 'No
    videos generated. The operation completed but returned no results.'
    when the response is absent, 'No videos were generated.' when the list
    of videos is absent or empty, 'Generated video is missing a URI.' when
    the first video has no URI or an empty one, [URIError] when the URI does
    not decode, 'Failed to fetch video: <status> <statusText>' when the
    answer is not ok, and the rejection itself when the request or the
    reading of the body is rejected. *)
Theorem C7_retrieval
    (host : Host.t) (params : Params.t) (payload : Payload.t)
    (op0 : Operation.t) (polled : list Event) (op : Operation.t) :
  generateVideoPayload params = Ok payload ->
  Host.generateVideos host payload = Ok op0 ->
  pollLoop (Host.getVideosOperation host) op0 = (polled, Return op) ->
  Operation.error op = None ->
  let m := generateVideo host params in
  let target url := url ++ lit "&key=" ++ interpolate (Host.API_KEY host) in
  Operation.done op = true
  /\ (Operation.response op = None ->
      completion m
      = Throw (Error (lit
          "No videos generated. The operation completed but returned no results."))
      /\ Spec.fetches (trace m) = 0%nat)
  /\ (Operation.response op <> None -> Spec.videosOf op = [] ->
      completion m = Throw (Error (lit "No videos were generated."))
      /\ Spec.fetches (trace m) = 0%nat)
  /\ (forall g rest,
        Spec.videosOf op = g :: rest -> Spec.hasUri g = false ->
        completion m = Throw (Error (lit "Generated video is missing a URI."))
        /\ Spec.fetches (trace m) = 0%nat)
  /\ (forall g rest v u,
        Spec.videosOf op = g :: rest ->
        GeneratedVideo.video g = Some v ->
        Video.uri v = Some u -> u <> [] ->
        (Host.decodeURIComponent host u = None ->
         completion m = Throw URIError /\ Spec.fetches (trace m) = 0%nat)
        /\ forall url,
             Host.decodeURIComponent host u = Some url ->
             Spec.fetches (trace m) = 1%nat
             /\ In (Fetch (target url)) (trace m)
             /\ (forall e, Host.fetch host (target url) = Err e ->
                           completion m = Throw e)
             /\ forall res,
                  Host.fetch host (target url) = Ok res ->
                  (FetchResponse.ok res = false ->
                   completion m
                   = Throw (Error (lit "Failed to fetch video: "
                                     ++ ofNumber (FetchResponse.status res)
                                     ++ lit " "
                                     ++ FetchResponse.statusText res)))
                  /\ (FetchResponse.ok res = true ->
                      (forall e, FetchResponse.blob res = Err e ->
                                 completion m = Throw e)
                      /\ forall b,
                           FetchResponse.blob res = Ok b ->
                           completion m
                           = Return {| Result.objectUrl :=
                                         Host.createObjectURL host b;
                                       Result.blob := b;
                                       Result.uri := url;
                                       Result.video := v |}))
  /\ (Spec.fetches (trace m) <> 0%nat
      <-> exists g rest v u url,
            Spec.videosOf op = g :: rest
            /\ GeneratedVideo.video g = Some v
            /\ Video.uri v = Some u /\ u <> []
            /\ Host.decodeURIComponent host u = Some url)
  /\ ((exists r, completion m = Return r)
      <-> exists g rest v u url res b,
            Spec.videosOf op = g :: rest
            /\ GeneratedVideo.video g = Some v
            /\ Video.uri v = Some u /\ u <> []
            /\ Host.decodeURIComponent host u = Some url
            /\ Host.fetch host (target url) = Ok res
            /\ FetchResponse.ok res = true
            /\ FetchResponse.blob res = Ok b).
Proof.
  intros Hp Hg Hloop Herr m target.
  destruct (generateVideo_after_loop host params payload op0 polled op
              Hp Hg Hloop) as (Hdone & Hc & Htr & Hf).
  fold m in Hc, Htr, Hf. rewrite Hc, Hf.
  split; [exact Hdone|].
  split; [|split; [|split; [|split; [|split]]]].
  - intros Hresp. unfold retrieve. rewrite Herr, Hresp. split; reflexivity.
  - intros Hresp Hempty. unfold retrieve. rewrite Herr.
    unfold Spec.videosOf in Hempty.
    destruct (Operation.response op) as [resp|]; [|now elim Hresp].
    destruct (VideosResponse.generatedVideos resp) as [l|];
      [rewrite Hempty|]; split; reflexivity.
  - intros g rest Hfirst Hno.
    destruct (videosOf_first op g rest Hfirst) as (resp & Hresp & Hl).
    unfold retrieve. rewrite Herr, Hresp, Hl, (videoWithUri_absent g Hno).
    split; reflexivity.
  - intros g rest v u Hfirst Hv Hu Hne. split.
    + intros Hdec.
      destruct (videosOf_first op g rest Hfirst) as (resp & Hresp & Hl).
      unfold retrieve.
      rewrite Herr, Hresp, Hl, (videoWithUri_present g v u Hv Hu Hne), Hdec.
      split; reflexivity.
    + intros url Hdec.
      assert (Hfud : Run.firstUriDecodes host op v url)
        by (exists g, rest, u; auto).
      rewrite Htr, (retrieve_with_uri host op v url Herr Hfud).
      cbv zeta. fold (target url). unfold await.
      destruct (Host.fetch host (target url)) as [res|e]; cbn [bind].
      * split; [|split; [|split]].
        -- destruct (FetchResponse.ok res); cbn;
             [destruct (FetchResponse.blob res)|]; reflexivity.
        -- apply in_cons, in_or_app. right.
           destruct (FetchResponse.ok res); cbn;
             [destruct (FetchResponse.blob res)|]; cbn; now left.
        -- intros e [=].
        -- intros res' [= <-]. split.
           ++ intros Hok. rewrite Hok. reflexivity.
           ++ intros Hok. rewrite Hok. cbn. split.
              ** intros e ->. reflexivity.
              ** intros b ->. reflexivity.
      * split; [reflexivity|]. split; [|split].
        -- apply in_cons, in_or_app. right. now left.
        -- intros e' [= <-]. reflexivity.
        -- intros res [=].
  - split.
    + intros Hfetch.
      assert (Hsome : exists v url, Run.firstUriDecodes host op v url).
      { destruct (Operation.response op) as [resp|] eqn:Hresp.
        - destruct (VideosResponse.generatedVideos resp) as [[|g l]|] eqn:Hl.
          + elim Hfetch. unfold retrieve. now rewrite Herr, Hresp, Hl.
          + destruct (Spec.hasUri g) eqn:Hhas.
            * apply hasUri_present in Hhas.
              destruct Hhas as (v & u & Hv & Hu & Hne).
              destruct (Host.decodeURIComponent host u) as [url|] eqn:Hdec.
              -- exists v, url, g, l, u. unfold Spec.videosOf.
                 rewrite Hresp, Hl. auto.
              -- elim Hfetch. unfold retrieve.
                 now rewrite Herr, Hresp, Hl,
                   (videoWithUri_present g v u Hv Hu Hne), Hdec.
            * elim Hfetch. unfold retrieve.
              now rewrite Herr, Hresp, Hl, (videoWithUri_absent g Hhas).
          + elim Hfetch. unfold retrieve. now rewrite Herr, Hresp, Hl.
        - elim Hfetch. unfold retrieve. now rewrite Herr, Hresp. }
      destruct Hsome as (v & url & g & rest & u & H).
      exists g, rest, v, u, url. exact H.
    + intros (g & rest & v & u & url & Hfirst & Hv & Hu & Hne & Hdec).
      assert (Hfud : Run.firstUriDecodes host op v url)
        by (exists g, rest, u; auto).
      rewrite (retrieve_with_uri host op v url Herr Hfud).
      cbv zeta. unfold await.
      destruct (Host.fetch host _) as [res|e]; cbn [bind];
        [destruct (FetchResponse.ok res); cbn;
         [destruct (FetchResponse.blob res)|]|]; cbn; discriminate.
  - split.
    + intros (r & Hr).
      assert (Hsome : exists v url, Run.firstUriDecodes host op v url).
      { destruct (Operation.response op) as [resp|] eqn:Hresp.
        - destruct (VideosResponse.generatedVideos resp) as [[|g l]|] eqn:Hl.
          + revert Hr. unfold retrieve. rewrite Herr, Hresp, Hl.
            discriminate.
          + destruct (Spec.hasUri g) eqn:Hhas.
            * apply hasUri_present in Hhas.
              destruct Hhas as (v & u & Hv & Hu & Hne).
              destruct (Host.decodeURIComponent host u) as [url|] eqn:Hdec.
              -- exists v, url, g, l, u. unfold Spec.videosOf.
                 rewrite Hresp, Hl. auto.
              -- revert Hr. unfold retrieve.
                 rewrite Herr, Hresp, Hl,
                   (videoWithUri_present g v u Hv Hu Hne), Hdec.
                 discriminate.
            * revert Hr. unfold retrieve.
              rewrite Herr, Hresp, Hl, (videoWithUri_absent g Hhas).
              discriminate.
          + revert Hr. unfold retrieve. rewrite Herr, Hresp, Hl.
            discriminate.
        - revert Hr. unfold retrieve. rewrite Herr, Hresp. discriminate. }
      destruct Hsome as (v & url & Hfud).
      rewrite (retrieve_with_uri host op v url Herr Hfud) in Hr.
      cbv zeta in Hr. fold (target url) in Hr. unfold await in Hr.
      destruct Hfud as (g & rest & u & Hfud).
      exists g, rest, v, u, url.
      destruct (Host.fetch host (target url)) as [res|e]; cbn [bind] in Hr;
        [|discriminate].
      exists res.
      destruct (FetchResponse.ok res) eqn:Hok; cbn in Hr; [|discriminate].
      destruct (FetchResponse.blob res) as [b|e] eqn:Hb; cbn in Hr;
        [|discriminate].
      exists b. intuition.
    + intros (g & rest & v & u & url & res & b
              & Hfirst & Hv & Hu & Hne & Hdec & Hfetch & Hok & Hb).
      assert (Hfud : Run.firstUriDecodes host op v url)
        by (exists g, rest, u; auto).
      rewrite (retrieve_with_uri host op v url Herr Hfud).
      cbv zeta. fold (target url). unfold await.
      rewrite Hfetch. cbn [bind]. rewrite Hok. cbn. rewrite Hb. cbn.
      eexists. reflexivity.
Qed.

Lemma C7_retrieval_witness :
  let uri := lit "https://videos.example/v1?id=7" in
  let done := Sample.finished (Some [Sample.generated (Some uri)]) in
  let m := generateVideo
             (Sample.host Sample.running [Ok Sample.running; Ok done] 200)
             (Sample.bare TEXT_TO_VIDEO) in
  Spec.fetches (trace m) = 1%nat
  /\ completion m
     = Return {| Result.objectUrl := lit "blob:susie/1";
                 Result.blob := Sample.clip;
                 Result.uri := uri;
                 Result.video :=
                   {| Video.uri := Some uri; Video.videoBytes := None;
                      Video.mimeType := Some (lit "video/mp4") |} |}.
Proof.
  cbv zeta.
  destruct (C7_retrieval
              (Sample.host Sample.running
                 [Ok Sample.running;
                  Ok (Sample.finished
                        (Some [Sample.generated
                                 (Some (lit "https://videos.example/v1?id=7"))]))]
                 200)
              (Sample.bare TEXT_TO_VIDEO) _ Sample.running _ _
              eq_refl eq_refl eq_refl eq_refl)
    as (_ & _ & _ & _ & Hfetch & _).
  destruct (proj2 (Hfetch _ [] _ (lit "https://videos.example/v1?id=7")
                     eq_refl eq_refl eq_refl ltac:(discriminate))
                  _ eq_refl)
    as (Hone & _ & _ & Hres).
  split; [exact Hone|].
  exact (proj2 (proj2 (Hres _ eq_refl) eq_refl) Sample.clip eq_refl).
Defined.

(** C7 as first stated fails: a response whose second generated video has
    a URI, but whose first has none, contains a generated video whose URI
    is present; the operation is done and reports no error and the host
    serves every URL, yet nothing is fetched and
    'Generated video is missing a URI.' is thrown. *)
Lemma C7_first_video_counterexample :
  let op := Sample.finished
              (Some [Sample.generated None;
                     Sample.generated (Some (lit "https://videos.example/v2"))]) in
  let m := generateVideo (Sample.host Sample.running [Ok op] 200)
                         (Sample.bare TEXT_TO_VIDEO) in
  Operation.done op = true
  /\ Operation.error op = None
  /\ existsb Spec.hasUri (Spec.videosOf op) = true
  /\ completion m = Throw (Error (lit "Generated video is missing a URI."))
  /\ Spec.fetches (trace m) = 0%nat
  /\ forall r, completion m <> Return r.
Proof.
  cbv zeta. repeat split. intros r. discriminate.
Qed.

(* ------------------------------------------------------------------ *)
(** ** The submit gate *)

Section TrimFacts.

Lemma trimStart_all_white s :
  forallb isWhiteSpace (trimStart s) = forallb isWhiteSpace s.
Proof.
  induction s as [|c s IH]; [reflexivity|].
  cbn [trimStart]. destruct (isWhiteSpace c) eqn:Hc.
  - rewrite IH. cbn. now rewrite Hc.
  - reflexivity.
Qed.

Lemma trimStart_empty s :
  trimStart s = [] <-> forallb isWhiteSpace s = true.
Proof.
  induction s as [|c s IH]; cbn; [tauto|].
  destruct (isWhiteSpace c); cbn; [exact IH|].
  split; discriminate.
Qed.

Lemma all_white_rev s :
  forallb isWhiteSpace (rev s) = forallb isWhiteSpace s.
Proof.
  induction s as [|c s IH]; [reflexivity|].
  cbn. rewrite forallb_app, IH. cbn.
  rewrite andb_true_r. apply andb_comm.
Qed.

Lemma trim_empty s : trim s = [] <-> forallb isWhiteSpace s = true.
Proof.
  unfold trim, trimEnd.
  rewrite <- (trimStart_all_white s), <- (all_white_rev (trimStart s)).
  rewrite <- trimStart_empty.
  split; intros H.
  - apply (f_equal (@rev _)) in H. now rewrite rev_involutive in H.
  - now rewrite H.
Qed.

Lemma nonBlank_iff s :
  Spec.nonBlank s <-> forallb isWhiteSpace s = false.
Proof.
  unfold Spec.nonBlank. induction s as [|c s IH]; cbn.
  - split; [intros (c & [] & _)|discriminate].
  - destruct (isWhiteSpace c) eqn:Hc; cbn.
    + rewrite <- IH. split.
      * intros (d & [<-|Hin] & Hd); [congruence|eauto].
      * intros (d & Hin & Hd). eauto.
    + split; [reflexivity|]. intros _. exists c. auto.
Qed.

(** [!prompt.trim()] holds exactly for a blank prompt. *)
Lemma not_trim_blank s :
  negb (truthy (trim s)) = true <-> ~ Spec.nonBlank s.
Proof.
  rewrite nonBlank_iff.
  destruct (trim s) as [|c r] eqn:Ht; cbn.
  - apply trim_empty in Ht. rewrite Ht. split; [discriminate|reflexivity].
  - destruct (forallb isWhiteSpace s) eqn:Hall.
    + apply trim_empty in Hall. congruence.
    + split; [discriminate|]. intros H. now elim H.
Qed.

End TrimFacts.

(** C8.  For every state of the form, the submit button is disabled
    exactly when the validation rule of the selected mode fails. *)
Theorem C8_submit_gate (st : PromptForm.State.t) :
  (PromptForm.isSubmitDisabled st = true <-> ~ Spec.validationRule st)
  /\ (PromptForm.isSubmitDisabled st = false <-> Spec.validationRule st).
Proof.
  assert (Hgate : PromptForm.isSubmitDisabled st = true
                  <-> ~ Spec.validationRule st).
  { unfold PromptForm.isSubmitDisabled, PromptForm.submitGate,
      Spec.validationRule.
    destruct (PromptForm.State.generationMode st); cbn [fst].
    - apply not_trim_blank.
    - destruct (PromptForm.State.startFrame st) as [f|]; cbn.
      + split; [discriminate|]. intros H. elim H. eauto.
      + split; [|reflexivity]. intros _ (f & Hf). discriminate.
    - rewrite orb_true_iff, not_trim_blank.
      destruct (PromptForm.State.referenceImages st) as [|img l]; cbn.
      + split; [|auto]. intros _ (_ & img & []).
      + split.
        * intros [Hblank|Hno]; [|discriminate]. intros (Hp & _). auto.
        * intros H. left. intros Hp. apply H. split; eauto.
    - destruct (PromptForm.State.inputVideoObject st) as [v|]; cbn.
      + split; [discriminate|]. intros H. elim H. eauto.
      + split; [|reflexivity]. intros _ (v & Hv). discriminate. }
  split; [exact Hgate|].
  destruct (PromptForm.isSubmitDisabled st) eqn:Hd.
  - split; [discriminate|]. intros Hrule.
    elim (proj1 Hgate eq_refl Hrule).
  - split; [|reflexivity]. intros _.
    unfold PromptForm.isSubmitDisabled, PromptForm.submitGate in Hd.
    unfold Spec.validationRule.
    destruct (PromptForm.State.generationMode st); cbn [fst] in Hd.
    + apply nonBlank_iff.
      destruct (forallb isWhiteSpace (PromptForm.State.prompt st)) eqn:Hall;
        [|reflexivity].
      apply trim_empty in Hall. rewrite Hall in Hd. discriminate.
    + destruct (PromptForm.State.startFrame st) as [f|]; [eauto|discriminate].
    + apply orb_false_iff in Hd. destruct Hd as [Hp Ha]. split.
      * apply nonBlank_iff.
        destruct (forallb isWhiteSpace (PromptForm.State.prompt st)) eqn:Hall;
          [|reflexivity].
        apply trim_empty in Hall. rewrite Hall in Hp. discriminate.
      * destruct (PromptForm.State.referenceImages st) as [|img l];
          [discriminate|]. exists img. now left.
    + destruct (PromptForm.State.inputVideoObject st) as [v|];
        [eauto|discriminate].
Qed.

Example gate_blank_prompt :
  PromptForm.submitGate (Sample.form TEXT_TO_VIDEO "   " None [] None)
  = (true, lit "Please enter a prompt.").
Proof. reflexivity. Qed.

Example gate_references_ready :
  PromptForm.submitGate
    (Sample.form REFERENCES_TO_VIDEO "a cat" None [Sample.refA] None)
  = (false, []).
Proof. reflexivity. Qed.

(* ------------------------------------------------------------------ *)
(** ** The image request *)

Section ImageFacts.

Lemma sextet_bound c v : sextet c = Some v -> v < 64.
Proof.
  unfold sextet.
  destruct (N.leb_spec 65 c), (N.leb_spec c 90); cbn [andb];
    try (intros [= <-]; lia);
    destruct (N.leb_spec 97 c), (N.leb_spec c 122); cbn [andb];
    try (intros [= <-]; lia);
    destruct (N.leb_spec 48 c), (N.leb_spec c 57); cbn [andb];
    try (intros [= <-]; lia);
    destruct (c =? 43); try (intros [= <-]; lia);
    destruct (c =? 47); try (intros [= <-]; lia); discriminate.
Qed.

Lemma sextets_bound s : forall l,
  sextets s = Some l -> Forall (fun v => v < 64) l.
Proof.
  induction s as [|c s IH]; intros l; cbn.
  - intros [= <-]. constructor.
  - destruct (sextet c) as [v|] eqn:Hv; [|discriminate].
    destruct (sextets s) as [vs|]; [|discriminate].
    intros [= <-]. constructor; [exact (sextet_bound c v Hv)|now apply IH].
Qed.

Lemma decodeGroups_bytes l :
  Forall (fun v => v < 64) l -> Forall (fun b => b < 256) (decodeGroups l).
Proof.
  remember (List.length l) as n eqn:Hn.
  revert l Hn. induction n as [n IH] using lt_wf_ind. intros l Hn Hl.
  destruct l as [|a [|b [|c [|d rest]]]]; cbn [decodeGroups];
    repeat match goal with
           | H : Forall _ (_ :: _) |- _ =>
               pose proof (Forall_inv H); apply Forall_inv_tail in H
           end;
    cbv beta in *.
  - constructor.
  - constructor.
  - repeat constructor. apply N.Div0.div_lt_upper_bound; lia.
  - repeat constructor.
    + apply N.Div0.div_lt_upper_bound, N.Div0.div_lt_upper_bound; lia.
    + apply N.mod_lt; lia.
  - repeat (constructor; [|]).
    + apply N.Div0.div_lt_upper_bound; lia.
    + apply N.mod_lt; lia.
    + apply N.mod_lt; lia.
    + apply (IH (List.length rest));
        [rewrite Hn; cbn; lia|reflexivity|assumption].
Qed.

(** [atob] yields characters below 256, so the [Uint8Array] built from
    their codes holds them unchanged. *)
Lemma atob_bytes data chars :
  atob data = Some chars -> Uint8Array chars = chars.
Proof.
  unfold atob.
  destruct (_ =? 1); [discriminate|].
  destruct (sextets _) as [l|] eqn:Hl; [|discriminate].
  intros [= <-].
  pose proof (decodeGroups_bytes l (sextets_bound _ l Hl)) as Hb.
  unfold Uint8Array. induction Hb as [|b bs Hlt _ IH]; [reflexivity|].
  cbn. now rewrite IH, N.mod_small.
Qed.

(** The loop passes over parts without inline data. *)
Lemma firstInlineImage_skip before rest :
  forallb Spec.plain before = true ->
  firstInlineImage (before ++ rest) = firstInlineImage rest.
Proof.
  induction before as [|p before IH]; [reflexivity|].
  cbn. unfold Spec.plain at 1, Spec.carriesInlineData.
  destruct (Part.inlineData p); [discriminate|]. exact IH.
Qed.

Lemma firstInlineImage_none parts :
  existsb Spec.carriesInlineData parts = false ->
  firstInlineImage parts
  = throw (Error (lit "Response did not contain image data.")).
Proof.
  induction parts as [|p parts IH]; [reflexivity|].
  cbn. unfold Spec.carriesInlineData at 1.
  destruct (Part.inlineData p); [discriminate|]. exact IH.
Qed.

(** With an inline part among them, the loop ends in that part: it
    returns, or [atob] refuses the data. *)
Lemma firstInlineImage_some parts :
  existsb Spec.carriesInlineData parts = true ->
  (exists img, firstInlineImage parts = ret img)
  \/ firstInlineImage parts = throw InvalidCharacterError.
Proof.
  induction parts as [|p parts IH]; [discriminate|].
  cbn. unfold Spec.carriesInlineData at 1.
  destruct (Part.inlineData p) as [d|]; [intros _|exact IH].
  destruct (atob _); [left; eauto|right; reflexivity].
Qed.

End ImageFacts.

(** What the code reads, [candidates?.[0]?.content?.parts], is the list
    of content parts of the first candidate. *)
Lemma candidateParts_first response parts :
  candidateParts response = Some parts
  <-> Spec.firstCandidateParts response parts.
Proof.
  unfold candidateParts, Spec.firstCandidateParts. split.
  - destruct (ContentResponse.candidates response) as [[|c l]|];
      try discriminate.
    destruct (Candidate.content c) as [ct|] eqn:Hct; [|discriminate].
    intros Hparts. exists c, l, ct. auto.
  - intros (c & l & ct & -> & -> & ->). reflexivity.
Qed.

Lemma existsb_carries parts :
  existsb Spec.carriesInlineData parts = true
  <-> exists part, In part parts /\ Spec.carriesInlineData part = true.
Proof. apply existsb_exists. Qed.

Lemma plain_before before :
  existsb Spec.carriesInlineData before = false ->
  forallb Spec.plain before = true.
Proof.
  induction before as [|p l IH]; [reflexivity|].
  cbn. intros H. apply orb_false_iff in H. destruct H as [Hp Hl].
  unfold Spec.plain at 1. rewrite Hp. cbn. now apply IH.
Qed.

(** C4, as amended.  [generateImage] reads the content parts of the first
    candidate of the response only.  It returns the decoded binary of the
    first of those parts that carries inline data, as a PNG file, together
    with that part's data, when [atob] decodes the data, and throws
    [InvalidCharacterError] when it does not.  It throws 'No image
    generated.' when the first candidate has no content parts and 'Response
    did not contain image data.' when none of them carries inline data; it
    throws one of these two errors if and only if the first candidate
    contains no inline image, and so whenever the response contains
    none. *)
Theorem C4_generateImage
    (host : Host.t) (prompt : jsstring) (aspectRatio : option jsstring)
    (response : ContentResponse.t) :
  Host.generateContent host (imageRequest prompt aspectRatio) = Ok response ->
  let c := completion (generateImage host prompt aspectRatio) in
  (forall parts before part inline after,
      Spec.firstCandidateParts response parts ->
      parts = before ++ part :: after ->
      existsb Spec.carriesInlineData before = false ->
      Part.inlineData part = Some inline ->
      (forall binary,
          atob (toText (InlineData.data inline)) = Some binary ->
          c = Return {| ImageFile.file :=
                          {| File.name := lit "generated-image.png";
                             File.type := lit "image/png";
                             File.bytes := binary |};
                        ImageFile.base64 := InlineData.data inline |})
      /\ (atob (toText (InlineData.data inline)) = None ->
          c = Throw InvalidCharacterError))
  /\ ((forall parts, ~ Spec.firstCandidateParts response parts) ->
      c = Throw (Error (lit "No image generated.")))
  /\ (forall parts,
        Spec.firstCandidateParts response parts ->
        existsb Spec.carriesInlineData parts = false ->
        c = Throw (Error (lit "Response did not contain image data.")))
  /\ (Spec.descriptiveImageError c
      <-> ~ Spec.firstCandidateContainsInlineImage response)
  /\ (~ Spec.containsInlineImage response -> Spec.descriptiveImageError c).
Proof.
  intros Hresp c.
  assert (Hc : c = completion
                     match candidateParts response with
                     | None => throw (Error (lit "No image generated."))
                     | Some parts => firstInlineImage parts
                     end).
  { unfold c, generateImage, await. rewrite Hresp. cbn [bind].
    destruct (match candidateParts response with
              | None => _ | Some parts => _ end). reflexivity. }
  rewrite Hc. clear Hc c.
  assert (Hiff : Spec.descriptiveImageError
                   (completion
                      match candidateParts response with
                      | None => throw (Error (lit "No image generated."))
                      | Some parts => firstInlineImage parts
                      end)
                 <-> ~ Spec.firstCandidateContainsInlineImage response).
  { unfold Spec.descriptiveImageError, Spec.firstCandidateContainsInlineImage.
    destruct (candidateParts response) as [parts|] eqn:Hparts.
    - apply candidateParts_first in Hparts.
      destruct (existsb Spec.carriesInlineData parts) eqn:Hex.
      + split.
        * intros Hdesc.
          destruct (firstInlineImage_some parts Hex) as [[img Himg]|Hbad];
            [rewrite Himg in Hdesc|rewrite Hbad in Hdesc];
            destruct Hdesc; discriminate.
        * intros Hno. elim Hno. apply existsb_carries in Hex.
          destruct Hex as (part & Hin & Hpart). exists parts, part. auto.
      + split.
        * intros _ (parts' & part & Hparts' & Hin & Hpart).
          apply candidateParts_first in Hparts, Hparts'.
          rewrite Hparts in Hparts'. injection Hparts' as <-.
          assert (Hyes : existsb Spec.carriesInlineData parts = true)
            by (apply existsb_carries; eauto).
          congruence.
        * intros _. right. now rewrite firstInlineImage_none.
    - split.
      + intros _ (parts & part & Hparts' & _).
        apply candidateParts_first in Hparts'. congruence.
      + intros _. left. reflexivity. }
  split; [|split; [|split; [|split]]].
  - intros parts before part inline after Hparts -> Hbefore Hinline.
    apply candidateParts_first in Hparts.
    rewrite Hparts, firstInlineImage_skip by now apply plain_before.
    cbn. rewrite Hinline. split.
    + intros binary Hatob. rewrite Hatob.
      unfold generatedFile. now rewrite (atob_bytes _ binary Hatob).
    + intros ->. reflexivity.
  - intros Hnone.
    destruct (candidateParts response) as [parts|] eqn:Hparts;
      [|reflexivity].
    apply candidateParts_first in Hparts. now elim (Hnone parts).
  - intros parts Hparts Hnone. apply candidateParts_first in Hparts.
    now rewrite Hparts, firstInlineImage_none.
  - exact Hiff.
  - intros Hno. apply Hiff.
    intros (parts & part & (c & others & ct & Hc & Hct & Hps) & Hin & Hpart).
    apply Hno. exists c, part. unfold Spec.candidatesOf, Spec.partsOf.
    rewrite Hc, Hct, Hps. repeat split; auto. now left.
Qed.

Lemma C4_generateImage_witness :
  completion
    (generateImage
       (Sample.imageHost
          (Sample.answer [[Sample.textPart "here it is";
                           Sample.inlinePart "aGk=";
                           Sample.inlinePart "eW8="]]))
       (lit "a red bicycle") None)
  = Return {| ImageFile.file :=
                {| File.name := lit "generated-image.png";
                   File.type := lit "image/png";
                   File.bytes := [104; 105] |};
              ImageFile.base64 := lit "aGk=" |}.
Proof.
  refine (proj1 (proj1 (C4_generateImage
                  (Sample.imageHost
                     (Sample.answer [[Sample.textPart "here it is";
                                      Sample.inlinePart "aGk=";
                                      Sample.inlinePart "eW8="]]))
                  (lit "a red bicycle") None _ eq_refl)
           _ [Sample.textPart "here it is"] (Sample.inlinePart "aGk=") _
           [Sample.inlinePart "eW8="] _ eq_refl eq_refl eq_refl)
           [104; 105] eq_refl).
  eexists _, _, _. repeat split.
Defined.

(** C4 as first stated fails: a response whose second candidate holds an
    inline image, while its first holds text only, contains an inline
    image; yet 'Response did not contain image data.' is thrown and nothing
    is returned. *)
Lemma C4_later_candidate_counterexample :
  let response :=
    Sample.answer [[Sample.textPart "sorry"]; [Sample.inlinePart "aGk="]] in
  let c := completion (generateImage (Sample.imageHost response)
                                     (lit "a red bicycle") None) in
  Spec.containsInlineImage response
  /\ c = Throw (Error (lit "Response did not contain image data."))
  /\ Spec.descriptiveImageError c
  /\ forall img, c <> Return img.
Proof.
  cbv zeta. split; [|split; [|split]].
  - eexists _, (Sample.inlinePart "aGk=").
    split; [right; left; reflexivity|]. split; [left; reflexivity|reflexivity].
  - reflexivity.
  - right. reflexivity.
  - intros img. discriminate.
Qed.

(** An inline part whose data [atob] refuses is an inline image in the
    response, and what is thrown is neither of the two worded errors. *)
Example image_undecodable_is_not_worded :
  let response := Sample.answer [[Sample.inlinePart "a"]] in
  let c := completion (generateImage (Sample.imageHost response)
                                     (lit "a red bicycle") None) in
  Spec.containsInlineImage response
  /\ c = Throw InvalidCharacterError
  /\ ~ Spec.descriptiveImageError c.
Proof.
  cbv zeta. split; [|split].
  - eexists _, (Sample.inlinePart "a").
    split; [left; reflexivity|]. split; [left; reflexivity|reflexivity].
  - reflexivity.
  - intros [H|H]; discriminate.
Qed.

Example image_without_parts :
  completion (generateImage
                (Sample.imageHost {| ContentResponse.candidates := Some [] |})
                (lit "a red bicycle") (Some (lit "1:1")))
  = Throw (Error (lit "No image generated.")).
Proof. reflexivity. Qed.

Example image_text_only :
  completion (generateImage
                (Sample.imageHost (Sample.answer [[Sample.textPart "sorry"]]))
                (lit "a red bicycle") None)
  = Throw (Error (lit "Response did not contain image data.")).
Proof. reflexivity. Qed.

Example image_bad_base64 :
  completion (generateImage
                (Sample.imageHost (Sample.answer [[Sample.inlinePart "a"]]))
                (lit "a red bicycle") None)
  = Throw InvalidCharacterError.
Proof. reflexivity. Qed.


(* ------------------------------------------------------------------ *)
(** * Further properties of the service *)

Section ServiceRuns.

Variable host : Host.t.
Variable params : Params.t.

Lemma orElse_cases (a : option jsstring) (b : jsstring) :
  orElse a b = match a with Some (c :: s) => c :: s | _ => b end.
Proof. destruct a as [[|c s]|]; reflexivity. Qed.

(** The loop does not look at the status it starts from, beyond [done]. *)
Lemma pollLoop_start_irrelevant answers op op' :
  Operation.done op = false -> Operation.done op' = false ->
  completion (pollLoop answers op) = completion (pollLoop answers op').
Proof.
  intros Hd Hd'. destruct answers as [|[r|e] later].
  - now rewrite !pollLoop_dry.
  - destruct (Operation.error r) as [err|] eqn:He.
    + now rewrite (pollLoop_error r err later op Hd He),
                  (pollLoop_error r err later op' Hd' He).
    + now rewrite (pollLoop_running r later op Hd He),
                  (pollLoop_running r later op' Hd' He).
  - now rewrite !pollLoop_rejected.
Qed.

End ServiceRuns.

(** X1.  A job that is already done when it starts and reports an error
    is never polled: [generateVideo] throws the error's message, or
    'Video generation operation failed.' when there is none, having made
    no call but the submission. *)
Theorem X1_started_done_with_error
    (host : Host.t) (params : Params.t) (payload : Payload.t)
    (op0 : Operation.t) (err : OpError.t) :
  generateVideoPayload params = Ok payload ->
  Host.generateVideos host payload = Ok op0 ->
  Operation.done op0 = true ->
  Operation.error op0 = Some err ->
  generateVideo host params
  = ([GenerateVideos payload],
     Throw (Error match OpError.message err with
                  | Some (c :: s) => c :: s
                  | _ => lit "Video generation operation failed."
                  end)).
Proof.
  intros Hp Hg Hd He.
  rewrite (generateVideo_started host params payload op0 Hp Hg).
  rewrite (pollLoop_done _ op0 Hd). unfold trace, completion, retrieve.
  cbn [fst snd bind]. rewrite He, orElse_cases. reflexivity.
Qed.

Lemma X1_started_done_with_error_witness :
  generateVideo (Sample.host (Sample.failed true None) [Ok Sample.running] 200)
                (Sample.bare TEXT_TO_VIDEO)
  = ([GenerateVideos
        {| Payload.model := VEO_FAST;
           Payload.config :=
             {| Config.numberOfVideos := 1; Config.resolution := P720;
                Config.aspectRatio := Some LANDSCAPE;
                Config.lastFrame := None; Config.referenceImages := None |};
           Payload.prompt := Some (lit "a cat on a skateboard");
           Payload.image := None; Payload.video := None |}],
     Throw (Error (lit "Video generation operation failed."))).
Proof.
  exact (X1_started_done_with_error
           (Sample.host (Sample.failed true None) [Ok Sample.running] 200)
           (Sample.bare TEXT_TO_VIDEO) _ (Sample.failed true None)
           {| OpError.message := None |} eq_refl eq_refl eq_refl eq_refl).
Defined.

(** X2.  A rejected SDK call ends [generateVideo] with that rejection:
    when the submission is rejected nothing else is called, and when a
    status refresh is rejected it is the last call. *)
Theorem X2_rejections_propagate
    (host : Host.t) (params : Params.t) (payload : Payload.t) :
  generateVideoPayload params = Ok payload ->
  (forall e,
      Host.generateVideos host payload = Err e ->
      generateVideo host params = ([GenerateVideos payload], Throw e))
  /\ (forall op0 pre e later,
        Host.generateVideos host payload = Ok op0 ->
        Operation.done op0 = false ->
        Forall Spec.stillRunning pre ->
        Host.getVideosOperation host = map Ok pre ++ Err e :: later ->
        generateVideo host params
        = (GenerateVideos payload :: Spec.rounds (op0 :: pre), Throw e)).
Proof.
  intros Hp. split.
  - intros e Hg. unfold generateVideo, await. rewrite Hp, Hg. reflexivity.
  - intros op0 pre e later Hg Hd Hpre Hscript.
    rewrite (generateVideo_started host params payload op0 Hp Hg).
    rewrite Hscript, (pollLoop_until pre (Err e) later op0 Hd Hpre).
    unfold trace, completion. cbn [fst snd bind]. now rewrite app_nil_r.
Qed.

Lemma X2_rejections_propagate_witness :
  generateVideo
    (Sample.host Sample.running
       [Ok Sample.running; Err (HostFailure (lit "503"));
        Ok (Sample.finished (Some [Sample.generated (Some (lit "u"))]))] 200)
    (Sample.bare TEXT_TO_VIDEO)
  = (GenerateVideos
       {| Payload.model := VEO_FAST;
          Payload.config :=
            {| Config.numberOfVideos := 1; Config.resolution := P720;
               Config.aspectRatio := Some LANDSCAPE;
               Config.lastFrame := None; Config.referenceImages := None |};
          Payload.prompt := Some (lit "a cat on a skateboard");
          Payload.image := None; Payload.video := None |}
       :: Spec.rounds [Sample.running; Sample.running],
     Throw (HostFailure (lit "503"))).
Proof.
  exact (proj2 (X2_rejections_propagate
                  (Sample.host Sample.running
                     [Ok Sample.running; Err (HostFailure (lit "503"));
                      Ok (Sample.finished
                            (Some [Sample.generated (Some (lit "u"))]))] 200)
                  (Sample.bare TEXT_TO_VIDEO) _ eq_refl)
           Sample.running [Sample.running] (HostFailure (lit "503"))
           [Ok (Sample.finished (Some [Sample.generated (Some (lit "u"))]))]
           eq_refl eq_refl
           (Forall_cons Sample.running sample_still_running (Forall_nil _))
           eq_refl).
Defined.



(** X4.  Media that does not belong to the mode never reaches the
    payload: [image] and [config.lastFrame] are set only in frames-to-video
    mode, [video] only in extend-video mode (and is then the input video
    object), [config.referenceImages] only in the frames and references
    modes, and a text-to-video payload carries none of them. *)
Theorem X4_media_by_mode (params : Params.t) (payload : Payload.t) :
  generateVideoPayload params = Ok payload ->
  (Payload.image payload <> None -> Params.mode params = FRAMES_TO_VIDEO)
  /\ (Config.lastFrame (Payload.config payload) <> None ->
      Params.mode params = FRAMES_TO_VIDEO)
  /\ (Payload.video payload <> None ->
      Params.mode params = EXTEND_VIDEO
      /\ Payload.video payload = Params.inputVideoObject params)
  /\ (Config.referenceImages (Payload.config payload) <> None ->
      Params.mode params = FRAMES_TO_VIDEO
      \/ Params.mode params = REFERENCES_TO_VIDEO)
  /\ (Params.mode params = TEXT_TO_VIDEO ->
      Payload.image payload = None
      /\ Config.lastFrame (Payload.config payload) = None
      /\ Config.referenceImages (Payload.config payload) = None
      /\ Payload.video payload = None).
Proof.
  unfold generateVideoPayload.
  destruct (Params.mode params), (truthy (Params.prompt params));
    try (destruct (Params.inputVideoObject params); [|discriminate]);
    intros [= <-];
    repeat match goal with
           | |- context [whenSome ?o _ _] => destruct o; cbn [whenSome]
           | |- context [if ?b then _ else _] => destruct b
           end; cbn;
    repeat split; intros; try congruence; auto; try discriminate;
    try (exfalso; congruence).
Qed.

Lemma X4_media_by_mode_witness :
  exists payload,
    generateVideoPayload Demo.crowded = Ok payload
    /\ Payload.image payload = None
    /\ Config.lastFrame (Payload.config payload) = None
    /\ Config.referenceImages (Payload.config payload) = None
    /\ Payload.video payload = None.
Proof.
  eexists. split; [reflexivity|].
  exact (proj2 (proj2 (proj2 (proj2
           (X4_media_by_mode Demo.crowded _ eq_refl)))) eq_refl).
Defined.

(** X5.  The calls of every run of [generateVideo] come in one order: when
    the request cannot be built nothing is called; otherwise there is one
    submission, then rounds of delay and re-fetch, each started from a
    status that is not done, then at most the request of the asset, the
    reading of its body and the making of the object URL.  So every
    re-fetch has its delay, the asset is requested at most once, and never
    before the last re-fetch. *)
Theorem X5_call_sequence (host : Host.t) (params : Params.t) :
  (forall e, generateVideoPayload params = Err e ->
             generateVideo host params = ([], Throw e))
  /\ (forall payload,
        generateVideoPayload params = Ok payload ->
        exists polled tail,
          trace (generateVideo host params)
          = GenerateVideos payload :: Spec.rounds polled ++ tail
          /\ Forall (fun op => Operation.done op = false) polled
          /\ Run.retrievalTail tail
          /\ Run.delays (trace (generateVideo host params))
             = Spec.polls (trace (generateVideo host params))
          /\ (Spec.fetches (trace (generateVideo host params)) <= 1)%nat).
Proof.
  split.
  - intros e He. unfold generateVideo. now rewrite He.
  - intros payload Hp.
    assert (Hshape : exists polled tail,
               trace (generateVideo host params)
               = GenerateVideos payload :: Spec.rounds polled ++ tail
               /\ Forall (fun op => Operation.done op = false) polled
               /\ Run.retrievalTail tail).
    { destruct (Host.generateVideos host payload) as [op0|e] eqn:Hg.
      - rewrite (generateVideo_started host params payload op0 Hp Hg).
        destruct (pollLoop_shape (Host.getVideosOperation host) op0)
          as (polled & Htr & Hall & _).
        destruct (pollLoop (Host.getVideosOperation host) op0)
          as [tr [op|e|]]; unfold trace, completion in *; cbn [fst snd] in *;
          subst tr; exists polled.
        + exists (fst (retrieve host op)). cbn [bind].
          pose proof (retrieve_tail host op) as Htail. unfold trace in Htail.
          destruct (retrieve host op) as [tr' c']. cbn [fst snd] in *. auto.
        + exists []. cbn. rewrite app_nil_r. repeat split; auto. now left.
        + exists []. cbn. rewrite app_nil_r. repeat split; auto. now left.
      - exists [], []. unfold generateVideo, await. rewrite Hp, Hg. cbn.
        repeat split; auto. now left. }
    destruct Hshape as (polled & tail & Htr & Hall & Htail).
    exists polled, tail. rewrite Htr.
    destruct (tail_counts tail Htail) as (Hd & Hpl & Hf).
    repeat split; auto.
    + change (GenerateVideos payload :: Spec.rounds polled ++ tail)
        with ([GenerateVideos payload] ++ Spec.rounds polled ++ tail).
      rewrite !delays_app, !polls_app, delays_rounds, polls_rounds, Hd, Hpl.
      reflexivity.
    + change (GenerateVideos payload :: Spec.rounds polled ++ tail)
        with ([GenerateVideos payload] ++ Spec.rounds polled ++ tail).
      rewrite !fetches_app, fetches_rounds. cbn. exact Hf.
Qed.

Lemma X5_call_sequence_witness :
  exists polled tail,
    trace (generateVideo
             (Sample.host Sample.running
                [Ok Sample.running;
                 Ok (Sample.finished (Some [Sample.generated (Some (lit "u"))]))]
                503)
             (Sample.bare TEXT_TO_VIDEO))
    = GenerateVideos
        {| Payload.model := VEO_FAST;
           Payload.config :=
             {| Config.numberOfVideos := 1; Config.resolution := P720;
                Config.aspectRatio := Some LANDSCAPE;
                Config.lastFrame := None; Config.referenceImages := None |};
           Payload.prompt := Some (lit "a cat on a skateboard");
           Payload.image := None; Payload.video := None |}
        :: Spec.rounds polled ++ tail
    /\ Run.retrievalTail tail.
Proof.
  destruct (proj2 (X5_call_sequence
                     (Sample.host Sample.running
                        [Ok Sample.running;
                         Ok (Sample.finished
                               (Some [Sample.generated (Some (lit "u"))]))]
                        503)
                     (Sample.bare TEXT_TO_VIDEO)) _ eq_refl)
    as (polled & tail & Htr & _ & Htail & _).
  exists polled, tail. split; assumption.
Defined.

(** X6.  While the job is not done, nothing of the status it started with
    is looked at: two jobs that both start not done end [generateVideo] the
    same way, whatever error or response the first status carried. *)
Theorem X6_running_start_is_not_inspected
    (host : Host.t) (params : Params.t) (op0 op0' : Operation.t) :
  Operation.done op0 = false ->
  Operation.done op0' = false ->
  completion (generateVideo (Run.startedAs op0 host) params)
  = completion (generateVideo (Run.startedAs op0' host) params).
Proof.
  intros Hd Hd'.
  destruct (generateVideoPayload params) as [payload|e] eqn:Hp.
  - rewrite (generateVideo_started (Run.startedAs op0 host) params payload
               op0 Hp eq_refl),
            (generateVideo_started (Run.startedAs op0' host) params payload
               op0' Hp eq_refl).
    change (Host.getVideosOperation (Run.startedAs op0 host))
      with (Host.getVideosOperation host).
    change (Host.getVideosOperation (Run.startedAs op0' host))
      with (Host.getVideosOperation host).
    pose proof (pollLoop_start_irrelevant (Host.getVideosOperation host)
                  op0 op0' Hd Hd') as Hc.
    destruct (pollLoop (Host.getVideosOperation host) op0) as [tr c],
             (pollLoop (Host.getVideosOperation host) op0') as [tr' c'].
    unfold trace, completion in *. cbn [fst snd] in *. subst c'.
    destruct c as [op|e|]; cbn [bind]; try reflexivity.
    change (retrieve (Run.startedAs op0' host) op)
      with (retrieve (Run.startedAs op0 host) op).
    destruct (retrieve (Run.startedAs op0 host) op). reflexivity.
  - unfold generateVideo. rewrite Hp. reflexivity.
Qed.

Lemma X6_running_start_is_not_inspected_witness :
  let script :=
    [Ok (Sample.finished (Some [Sample.generated (Some (lit "u"))]))] in
  completion
    (generateVideo
       (Run.startedAs (Sample.failed false (Some (lit "warming up")))
                      (Sample.host Sample.running script 200))
       (Sample.bare TEXT_TO_VIDEO))
  = completion
      (generateVideo (Run.startedAs Sample.running
                                    (Sample.host Sample.running script 200))
                     (Sample.bare TEXT_TO_VIDEO)).
Proof.
  exact (X6_running_start_is_not_inspected
           (Sample.host Sample.running
              [Ok (Sample.finished (Some [Sample.generated (Some (lit "u"))]))]
              200)
           (Sample.bare TEXT_TO_VIDEO)
           (Sample.failed false (Some (lit "warming up"))) Sample.running
           eq_refl eq_refl).
Defined.

(** X7.  With a first generated video that has a URI, a failure of the
    host during retrieval is what [generateVideo] throws, and nothing is
    called after the failing step: a URI that does not decode throws before
    anything is requested; a rejected request, or an answer that is not ok,
    leaves the body unread; a body that cannot be read makes no object
    URL.  The URL requested is the decoded URI followed by [&key=] and the
    API key. *)
Theorem X7_retrieval_failures
    (host : Host.t) (params : Params.t) (payload : Payload.t)
    (op0 : Operation.t) (polled : list Event) (op : Operation.t)
    (g : GeneratedVideo.t) (rest : list GeneratedVideo.t)
    (v : Video.t) (u : jsstring) :
  generateVideoPayload params = Ok payload ->
  Host.generateVideos host payload = Ok op0 ->
  pollLoop (Host.getVideosOperation host) op0 = (polled, Return op) ->
  Operation.error op = None ->
  Spec.videosOf op = g :: rest ->
  GeneratedVideo.video g = Some v ->
  Video.uri v = Some u -> u <> [] ->
  let m := generateVideo host params in
  let target url := url ++ lit "&key=" ++ interpolate (Host.API_KEY host) in
  (Host.decodeURIComponent host u = None ->
   m = (GenerateVideos payload :: polled, Throw URIError))
  /\ (forall url e,
        Host.decodeURIComponent host u = Some url ->
        Host.fetch host (target url) = Err e ->
        m = (GenerateVideos payload :: polled ++ [Fetch (target url)], Throw e))
  /\ (forall url res,
        Host.decodeURIComponent host u = Some url ->
        Host.fetch host (target url) = Ok res ->
        FetchResponse.ok res = false ->
        trace m = GenerateVideos payload :: polled ++ [Fetch (target url)])
  /\ (forall url res e,
        Host.decodeURIComponent host u = Some url ->
        Host.fetch host (target url) = Ok res ->
        FetchResponse.ok res = true ->
        FetchResponse.blob res = Err e ->
        m = (GenerateVideos payload
               :: polled ++ [Fetch (target url); ReadBlob], Throw e))
  /\ (forall url res b,
        Host.decodeURIComponent host u = Some url ->
        Host.fetch host (target url) = Ok res ->
        FetchResponse.ok res = true ->
        FetchResponse.blob res = Ok b ->
        trace m = GenerateVideos payload
                    :: polled ++ [Fetch (target url); ReadBlob;
                                  CreateObjectURL b]).
Proof.
  intros Hp Hg Hloop Herr Hfirst Hv Hu Hne m target.
  assert (Hm : m = (GenerateVideos payload
                      :: polled ++ trace (retrieve host op),
                    completion (retrieve host op))).
  { unfold m. rewrite (generateVideo_started host params payload op0 Hp Hg).
    rewrite Hloop. unfold trace, completion. cbn [fst snd bind].
    destruct (retrieve host op). reflexivity. }
  rewrite Hm. clear Hm m.
  destruct (videosOf_first op g rest Hfirst) as (resp & Hresp & Hl).
  unfold retrieve. rewrite Herr, Hresp, Hl.
  rewrite (videoWithUri_present g v u Hv Hu Hne).
  unfold trace, completion, await.
  split; [|split; [|split; [|split]]].
  - intros ->. cbn. now rewrite app_nil_r.
  - intros url e -> Hf. fold (target url). rewrite Hf. reflexivity.
  - intros url res -> Hf Hok. fold (target url). rewrite Hf. cbn.
    rewrite Hok. reflexivity.
  - intros url res e -> Hf Hok Hb. fold (target url). rewrite Hf. cbn.
    rewrite Hok, Hb. reflexivity.
  - intros url res b -> Hf Hok Hb. fold (target url). rewrite Hf. cbn.
    rewrite Hok, Hb. reflexivity.
Qed.

Lemma X7_retrieval_failures_witness :
  let op := Sample.finished (Some [Sample.generated (Some (lit "u"))]) in
  trace (generateVideo (Sample.host op [] 503) (Sample.bare TEXT_TO_VIDEO))
  = [GenerateVideos
       {| Payload.model := VEO_FAST;
          Payload.config :=
            {| Config.numberOfVideos := 1; Config.resolution := P720;
               Config.aspectRatio := Some LANDSCAPE;
               Config.lastFrame := None; Config.referenceImages := None |};
          Payload.prompt := Some (lit "a cat on a skateboard");
          Payload.image := None; Payload.video := None |};
     Fetch (lit "u&key=k3y")].
Proof.
  cbv zeta.
  destruct (X7_retrieval_failures
              (Sample.host
                 (Sample.finished (Some [Sample.generated (Some (lit "u"))]))
                 [] 503)
              (Sample.bare TEXT_TO_VIDEO) _ _ [] _ _ [] _ (lit "u")
              eq_refl eq_refl eq_refl eq_refl eq_refl eq_refl eq_refl
              ltac:(discriminate))
    as (_ & _ & Hnotok & _).
  exact (Hnotok (lit "u") _ eq_refl eq_refl eq_refl).
Defined.

(** X9.  [generateImage] settles on the first part of the first
    candidate that carries inline data, whatever the parts after it hold.
    When [atob] refuses that part's data, and so when the data is
    [undefined], the call throws [InvalidCharacterError].  When the data is
    [null], [atob] is given the text "null", which it decodes to three
    bytes: the call returns a file of those bytes with a [null] base64. *)
Theorem X9_first_inline_part_decides
    (host : Host.t) (prompt : jsstring) (aspectRatio : option jsstring)
    (response : ContentResponse.t)
    (candidate : Candidate.t) (others : list Candidate.t)
    (content : Content.t)
    (before after : list Part.t) (part : Part.t) (inline : InlineData.t) :
  Host.generateContent host (imageRequest prompt aspectRatio) = Ok response ->
  ContentResponse.candidates response = Some (candidate :: others) ->
  Candidate.content candidate = Some content ->
  Content.parts content = Some (before ++ part :: after) ->
  existsb Spec.carriesInlineData before = false ->
  Part.inlineData part = Some inline ->
  let c := completion (generateImage host prompt aspectRatio) in
  (forall base64,
      InlineData.data inline = Text base64 -> atob base64 = None ->
      c = Throw InvalidCharacterError)
  /\ (InlineData.data inline = Undefined -> c = Throw InvalidCharacterError)
  /\ (InlineData.data inline = Null ->
      c = Return {| ImageFile.file :=
                      {| File.name := lit "generated-image.png";
                         File.type := lit "image/png";
                         File.bytes := [158; 233; 101] |};
                    ImageFile.base64 := Null |}).
Proof.
  intros Hresp Hcands Hcontent Hparts Hbefore Hinline c.
  assert (Hc : c = completion (firstInlineImage (part :: after))).
  { unfold c, generateImage, await, candidateParts.
    rewrite Hresp. cbn [bind]. rewrite Hcands, Hcontent, Hparts.
    rewrite firstInlineImage_skip by now apply plain_before.
    destruct (firstInlineImage (part :: after)). reflexivity. }
  rewrite Hc. cbn [firstInlineImage]. rewrite Hinline.
  split; [|split].
  - intros base64 -> Hbad. cbn [toText]. rewrite Hbad. reflexivity.
  - intros ->. reflexivity.
  - intros ->. reflexivity.
Qed.

Lemma X9_first_inline_part_decides_witness :
  completion
    (generateImage
       (Sample.imageHost
          (Sample.answer [[Sample.textPart "one moment";
                           Sample.inlinePart "a";
                           Sample.inlinePart "aGk="]]))
       (lit "a red bicycle") None)
  = Throw InvalidCharacterError.
Proof.
  exact (proj1 (X9_first_inline_part_decides
                  (Sample.imageHost
                     (Sample.answer [[Sample.textPart "one moment";
                                      Sample.inlinePart "a";
                                      Sample.inlinePart "aGk="]]))
                  (lit "a red bicycle") None _ _ [] _
                  [Sample.textPart "one moment"] [Sample.inlinePart "aGk="]
                  (Sample.inlinePart "a") _
                  eq_refl eq_refl eq_refl eq_refl eq_refl eq_refl)
           (lit "a") eq_refl eq_refl).
Defined.

Example image_null_data :
  completion
    (generateImage
       (Sample.imageHost
          (Sample.answer
             [[{| Part.text := None;
                  Part.inlineData :=
                    Some {| InlineData.data := Null;
                            InlineData.mimeType := None |} |}]]))
       (lit "a red bicycle") None)
  = Return {| ImageFile.file :=
                {| File.name := lit "generated-image.png";
                   File.type := lit "image/png";
                   File.bytes := [158; 233; 101] |};
              ImageFile.base64 := Null |}.
Proof. reflexivity. Qed.

(* ------------------------------------------------------------------ *)
(** * Further properties of the form *)

Section FormFacts.

Lemma truthy_trim s : truthy (trim s) = true -> truthy s = true.
Proof. destruct s; [discriminate|reflexivity]. Qed.

Lemma nonBlank_trim s : Spec.nonBlank s <-> truthy (trim s) = true.
Proof.
  rewrite nonBlank_iff.
  destruct (trim s) as [|c r] eqn:Ht; cbn.
  - apply trim_empty in Ht. rewrite Ht. split; discriminate.
  - destruct (forallb isWhiteSpace s) eqn:Hall; [|tauto].
    apply trim_empty in Hall. congruence.
Qed.

Lemma references_built (params : Params.t) :
  Params.mode params = REFERENCES_TO_VIDEO ->
  exists payload,
    generateVideoPayload params = Ok payload
    /\ Config.referenceImages (Payload.config payload)
       = match referenceImagesPayload params with
         | [] => None
         | l => Some l
         end
    /\ Payload.image payload = None
    /\ Payload.video payload = None
    /\ Config.lastFrame (Payload.config payload) = None.
Proof.
  intros Hmode. unfold generateVideoPayload. rewrite Hmode.
  eexists. split; [reflexivity|].
  destruct (referenceImagesPayload params), (truthy (Params.prompt params));
    cbn; auto.
Qed.

Lemma payload_prompt_when_truthy (params : Params.t) (payload : Payload.t) :
  generateVideoPayload params = Ok payload ->
  (truthy (Params.prompt params) = true ->
   Payload.prompt payload = Some (Params.prompt params))
  /\ (truthy (Params.prompt params) = false -> Payload.prompt payload = None).
Proof.
  unfold generateVideoPayload.
  destruct (Params.mode params), (truthy (Params.prompt params));
    try (destruct (Params.inputVideoObject params); [|discriminate]);
    intros [= <-];
    repeat match goal with
           | |- context [whenSome ?o _ _] => destruct o; cbn [whenSome]
           | |- context [if ?b then _ else _] => destruct b
           end; split; intros; try discriminate; reflexivity.
Qed.

Lemma payload_model (params : Params.t) (payload : Payload.t) :
  generateVideoPayload params = Ok payload ->
  Payload.model payload = Params.model params.
Proof.
  unfold generateVideoPayload.
  destruct (Params.mode params), (truthy (Params.prompt params));
    try (destruct (Params.inputVideoObject params); [|discriminate]);
    intros [= <-];
    repeat match goal with
           | |- context [whenSome ?o _ _] => destruct o; cbn [whenSome]
           | |- context [if ?b then _ else _] => destruct b
           end; reflexivity.
Qed.

End FormFacts.

(** X8.  The form has a tooltip text exactly when the submit button is
    disabled: every way of failing a mode's rule is explained, and an
    enabled button has no tooltip. *)
Theorem X8_tooltip_iff_disabled (st : PromptForm.State.t) :
  PromptForm.tooltipText st <> [] <-> PromptForm.isSubmitDisabled st = true.
Proof.
  unfold PromptForm.tooltipText, PromptForm.isSubmitDisabled,
    PromptForm.submitGate.
  destruct (PromptForm.State.generationMode st); cbn [fst snd].
  - destruct (negb (truthy (trim (PromptForm.State.prompt st))));
      split; try reflexivity; try discriminate; intros H; now elim H.
  - destruct (PromptForm.isNull (PromptForm.State.startFrame st));
      split; try reflexivity; try discriminate; intros H; now elim H.
  - destruct (negb (truthy (trim (PromptForm.State.prompt st)))),
             (N.of_nat (List.length (PromptForm.State.referenceImages st))
              =? 0);
      split; try reflexivity; try discriminate; intros H; now elim H.
  - destruct (PromptForm.isNull (PromptForm.State.inputVideoObject st));
      split; try reflexivity; try discriminate; intros H; now elim H.
Qed.

(** X10.  A submit through an enabled button always builds a request: the
    throw of the extend branch cannot be reached from the form.  The
    request carries what the mode's rule asked for: the prompt in
    text-to-video mode, the start frame as [image] in frames-to-video mode,
    the prompt and a non-empty reference list in references-to-video mode,
    the input video object in extend-video mode. *)
Theorem X10_enabled_submit_builds_request (st : PromptForm.State.t) :
  PromptForm.isSubmitDisabled st = false ->
  exists payload,
    generateVideoPayload (PromptForm.handleSubmit st) = Ok payload
    /\ match PromptForm.State.generationMode st with
       | TEXT_TO_VIDEO =>
           Payload.prompt payload = Some (PromptForm.State.prompt st)
       | FRAMES_TO_VIDEO =>
           exists f, PromptForm.State.startFrame st = Some f
                     /\ Payload.image payload = Some (toImage f)
       | REFERENCES_TO_VIDEO =>
           Payload.prompt payload = Some (PromptForm.State.prompt st)
           /\ exists r l,
                Config.referenceImages (Payload.config payload) = Some (r :: l)
                /\ r :: l
                   = map assetReference (PromptForm.State.referenceImages st)
                     ++ match PromptForm.State.styleImage st with
                        | Some s => [styleReference s] | None => [] end
       | EXTEND_VIDEO =>
           exists v, PromptForm.State.inputVideoObject st = Some v
                     /\ Payload.video payload = Some v
       end.
Proof.
  unfold PromptForm.isSubmitDisabled, PromptForm.submitGate.
  destruct (PromptForm.State.generationMode st) eqn:Hmode; cbn [fst];
    intros Hgate.
  - apply negb_false_iff, truthy_trim in Hgate.
    unfold generateVideoPayload, PromptForm.handleSubmit. cbn.
    rewrite Hmode, Hgate. eexists. split; reflexivity.
  - destruct (PromptForm.State.startFrame st) as [f|] eqn:Hs; [|discriminate].
    assert (Hm : Params.mode (PromptForm.handleSubmit st) = FRAMES_TO_VIDEO)
      by exact Hmode.
    destruct (frames_payload _ Hm) as (payload & Hp & Himg & _).
    exists payload. split; [exact Hp|]. exists f. split; [reflexivity|].
    rewrite Himg. cbn. now rewrite Hs.
  - apply orb_false_iff in Hgate. destruct Hgate as [Hprompt Hassets].
    apply negb_false_iff, truthy_trim in Hprompt.
    assert (Hm : Params.mode (PromptForm.handleSubmit st)
                 = REFERENCES_TO_VIDEO) by exact Hmode.
    destruct (references_built _ Hm) as (payload & Hp & Hrefs & _).
    exists payload. split; [exact Hp|]. split.
    + destruct (payload_prompt_when_truthy _ _ Hp) as [Hpr _].
      apply Hpr. exact Hprompt.
    + rewrite referenceImagesPayload_eq in Hrefs. cbn in Hrefs.
      destruct (PromptForm.State.referenceImages st) as [|img imgs];
        [discriminate|].
      cbn in Hrefs |- *. eauto.
  - destruct (PromptForm.State.inputVideoObject st) as [v|] eqn:Hv;
      [|discriminate].
    unfold generateVideoPayload, PromptForm.handleSubmit. cbn.
    rewrite Hmode, Hv. eexists. split; [reflexivity|]. exists v.
    split; [reflexivity|].
    destruct (truthy (PromptForm.State.prompt st)); reflexivity.
Qed.

Lemma X10_enabled_submit_builds_request_witness :
  exists payload,
    generateVideoPayload
      (PromptForm.handleSubmit
         (Sample.form FRAMES_TO_VIDEO "" (Some Sample.startImg) [] None))
    = Ok payload
    /\ exists f, Some Sample.startImg = Some f
                 /\ Payload.image payload = Some (toImage f).
Proof.
  exact (X10_enabled_submit_builds_request
           (Sample.form FRAMES_TO_VIDEO "" (Some Sample.startImg) [] None)
           eq_refl).
Defined.



(** X12.  The rules applied when the mode changes: applying them twice is
    applying them once; they never open or close the submit button; after
    them a references-to-video request asks for the high-quality model in
    16:9 at 720p and an extend-video request for 720p, and in the other
    two modes nothing changes. *)
Theorem X12_mode_rules (st : PromptForm.State.t) :
  let st' := PromptFormHandlers.applyModeRules st in
  PromptFormHandlers.applyModeRules st' = st'
  /\ PromptForm.isSubmitDisabled st' = PromptForm.isSubmitDisabled st
  /\ (forall payload,
        generateVideoPayload (PromptForm.handleSubmit st') = Ok payload ->
        (PromptForm.State.generationMode st = REFERENCES_TO_VIDEO ->
         Payload.model payload = VEO
         /\ Config.aspectRatio (Payload.config payload) = Some LANDSCAPE
         /\ Config.resolution (Payload.config payload) = P720)
        /\ (PromptForm.State.generationMode st = EXTEND_VIDEO ->
            Config.resolution (Payload.config payload) = P720))
  /\ (PromptForm.State.generationMode st = TEXT_TO_VIDEO
      \/ PromptForm.State.generationMode st = FRAMES_TO_VIDEO ->
      st' = st).
Proof.
  intros st'. subst st'.
  destruct st as [pr mo ar re gm sf mf ef ri si iv ivo lo].
  split; [destruct gm; reflexivity|].
  split; [destruct gm; reflexivity|].
  split.
  - intros payload Hp.
    destruct (config_base _ _ Hp) as (_ & Hres & Har).
    pose proof (payload_model _ _ Hp) as Hmodel.
    destruct gm; cbn in *; (split; [intros [=]|intros [=]]);
      rewrite ?Hres, ?Har, ?Hmodel; auto.
  - intros [Hm|Hm]; cbn in Hm; subst gm; reflexivity.
Qed.

Lemma X12_mode_rules_witness :
  exists payload,
    generateVideoPayload
      (PromptForm.handleSubmit (PromptFormHandlers.applyModeRules Demo.offRules))
    = Ok payload
    /\ Payload.model payload = VEO
    /\ Config.aspectRatio (Payload.config payload) = Some LANDSCAPE
    /\ Config.resolution (Payload.config payload) = P720.
Proof.
  eexists. split; [reflexivity|].
  exact (proj1 (proj1 (proj2 (proj2 (X12_mode_rules Demo.offRules)))
                      _ eq_refl) eq_refl).
Defined.

(** X13.  Mounted with what it submitted as initial values, the form
    comes back as the submitted state with the rules of its mode applied:
    exactly as it was in the text and frames modes, and whenever the rules
    change nothing; in the references mode with the high-quality model,
    16:9 and 720p, in the extend mode with 720p.  The request re-submitted
    from the mounted form has the prompt and the media of the first one. *)
Theorem X13_initial_values_round_trip :
  (forall st,
      PromptFormHandlers.mount (Some (PromptForm.handleSubmit st))
      = PromptFormHandlers.applyModeRules st)
  /\ (forall st,
        PromptForm.State.generationMode st = TEXT_TO_VIDEO
        \/ PromptForm.State.generationMode st = FRAMES_TO_VIDEO
        \/ PromptFormHandlers.applyModeRules st = st ->
        PromptFormHandlers.mount (Some (PromptForm.handleSubmit st)) = st)
  /\ (forall p,
        Params.mode p = TEXT_TO_VIDEO \/ Params.mode p = FRAMES_TO_VIDEO ->
        generateVideoPayload
          (PromptForm.handleSubmit (PromptFormHandlers.mount (Some p)))
        = generateVideoPayload p)
  /\ (forall p payload,
        generateVideoPayload p = Ok payload ->
        exists payload',
          generateVideoPayload
            (PromptForm.handleSubmit (PromptFormHandlers.mount (Some p)))
          = Ok payload'
          /\ Payload.prompt payload' = Payload.prompt payload
          /\ Payload.image payload' = Payload.image payload
          /\ Payload.video payload' = Payload.video payload
          /\ Config.lastFrame (Payload.config payload')
             = Config.lastFrame (Payload.config payload)
          /\ Config.referenceImages (Payload.config payload')
             = Config.referenceImages (Payload.config payload)
          /\ (Params.mode p = REFERENCES_TO_VIDEO ->
              Payload.model payload' = VEO
              /\ Config.aspectRatio (Payload.config payload') = Some LANDSCAPE
              /\ Config.resolution (Payload.config payload') = P720)
          /\ (Params.mode p = EXTEND_VIDEO ->
              Payload.model payload' = Payload.model payload
              /\ Config.resolution (Payload.config payload') = P720)).
Proof.
  assert (Hmount : forall st,
             PromptFormHandlers.mount (Some (PromptForm.handleSubmit st))
             = PromptFormHandlers.applyModeRules st)
    by (intros st; destruct st; reflexivity).
  split; [exact Hmount|]. split; [|split].
  - intros st H. rewrite Hmount.
    destruct H as [Hm|[Hm|Hm]]; [| |exact Hm];
      destruct st; cbn in Hm; subst; reflexivity.
  - intros p Hm. destruct p as [pr mo ar re gm sf mf ef ri si iv ivo lo].
    cbn in Hm. destruct Hm as [-> | ->];
      unfold generateVideoPayload, referenceImagesPayload; cbn;
      reflexivity.
  - intros p payload.
    destruct p as [pr mo ar re gm sf mf ef ri si iv ivo lo].
    unfold generateVideoPayload, referenceImagesPayload. cbn.
    destruct gm; cbn.
    + intros [= <-]. eexists. split; [reflexivity|].
      destruct (truthy pr); cbn; repeat (split || intro); try discriminate; reflexivity.
    + intros [= <-]. eexists. split; [reflexivity|].
      destruct (truthy pr), lo, sf, ef, mf; cbn;
        repeat (split || intro); try discriminate; reflexivity.
    + destruct ri as [ri|], si; cbn; rewrite ?push_each_is_map; cbn;
        intros [= <-]; (eexists; split; [reflexivity|]);
        repeat match goal with
               | |- context [if ?b then _ else _] => destruct b
               end; cbn; repeat (split || intro); try discriminate; reflexivity.
    + destruct ivo; [|discriminate]. intros [= <-].
      eexists. split; [reflexivity|].
      destruct (truthy pr); cbn; repeat (split || intro); try discriminate; reflexivity.
Qed.

Lemma X13_initial_values_round_trip_witness :
  PromptFormHandlers.mount
    (Some (PromptForm.handleSubmit
             (Sample.form FRAMES_TO_VIDEO "a cat" (Some Sample.startImg)
                          [] None)))
  = Sample.form FRAMES_TO_VIDEO "a cat" (Some Sample.startImg) [] None
  /\ PromptForm.State.model
       (PromptFormHandlers.mount (Some (PromptForm.handleSubmit Demo.offRules)))
     = VEO.
Proof.
  split.
  - apply (proj1 (proj2 X13_initial_values_round_trip)).
    right. left. reflexivity.
  - rewrite (proj1 X13_initial_values_round_trip Demo.offRules). reflexivity.
Defined.

Section ReferenceFacts.

Lemma filterIndex_past {A} (l : list A) : forall index i,
  (index < i)%nat -> PromptFormHandlers.filterIndex index i l = l.
Proof.
  induction l as [|x l IH]; intros index i Hlt; [reflexivity|].
  cbn. destruct (Nat.eqb_spec i index); [lia|].
  f_equal. apply IH. lia.
Qed.

Lemma filterIndex_from {A} (l : list A) : forall index i,
  PromptFormHandlers.filterIndex (index + i) i l
  = firstn index l ++ skipn (S index) l.
Proof.
  induction l as [|x l IH]; intros index i.
  - now destruct index.
  - cbn [PromptFormHandlers.filterIndex].
    destruct index as [|index].
    + cbn. rewrite Nat.eqb_refl. apply filterIndex_past. lia.
    + destruct (Nat.eqb_spec i (S index + i)); [lia|].
      cbn [firstn skipn app]. f_equal.
      replace (S index + i)%nat with (index + S i)%nat by lia.
      apply IH.
Qed.

End ReferenceFacts.

(** X14.  When the "Add Asset" slot is offered, the image it receives
    keeps the references (assets and style image together) within three,
    and the request then lists it as the last asset, before the style
    image. *)
Theorem X14_add_asset (st : PromptForm.State.t) (img : ImageFile.t) :
  PromptFormHandlers.showsAddAsset st = true ->
  PromptFormHandlers.totalReferences (PromptFormHandlers.addAsset img st) <= 3
  /\ exists payload,
       generateVideoPayload
         (PromptForm.handleSubmit (PromptFormHandlers.addAsset img st))
       = Ok payload
       /\ Config.referenceImages (Payload.config payload)
          = Some (map assetReference (PromptForm.State.referenceImages st)
                  ++ assetReference img
                  :: match PromptForm.State.styleImage st with
                     | Some s => [styleReference s] | None => [] end).
Proof.
  unfold PromptFormHandlers.showsAddAsset, PromptFormHandlers.totalReferences.
  destruct st as [pr mo ar re gm sf mf ef ri si iv ivo lo]. cbn.
  destruct gm; try discriminate. intros Hlt. apply N.ltb_lt in Hlt.
  split.
  - rewrite length_app. cbn. destruct si; lia.
  - set (st' := PromptFormHandlers.addAsset img _).
    assert (Hm : Params.mode (PromptForm.handleSubmit st')
                 = REFERENCES_TO_VIDEO) by reflexivity.
    destruct (references_built _ Hm) as (payload & Hp & Hrefs & _).
    exists payload. split; [exact Hp|].
    rewrite Hrefs, referenceImagesPayload_eq. cbn.
    rewrite map_app, <- app_assoc. cbn.
    destruct (map assetReference ri); reflexivity.
Qed.

Lemma X14_add_asset_witness :
  PromptFormHandlers.totalReferences
    (PromptFormHandlers.addAsset Sample.refB (Demo.styled [Sample.refA])) <= 3
  /\ exists payload,
       generateVideoPayload
         (PromptForm.handleSubmit
            (PromptFormHandlers.addAsset Sample.refB
                                         (Demo.styled [Sample.refA])))
       = Ok payload
       /\ Config.referenceImages (Payload.config payload)
          = Some [assetReference Sample.refA; assetReference Sample.refB;
                  styleReference Sample.styleImg].
Proof.
  exact (X14_add_asset (Demo.styled [Sample.refA]) Sample.refB eq_refl).
Defined.

(** X15.  Removing the reference at an index removes that one image and
    keeps the others in order; an index past the end removes nothing. *)
Theorem X15_remove_reference (st : PromptForm.State.t) (index : nat) :
  let refs := PromptForm.State.referenceImages st in
  let st' := PromptFormHandlers.removeReference index st in
  PromptForm.State.referenceImages st'
  = firstn index refs ++ skipn (S index) refs
  /\ ((index < List.length refs)%nat ->
      S (List.length (PromptForm.State.referenceImages st'))
      = List.length refs)
  /\ ((List.length refs <= index)%nat -> st' = st).
Proof.
  intros refs st'.
  assert (Hrefs : PromptForm.State.referenceImages st'
                  = firstn index refs ++ skipn (S index) refs).
  { pose proof (filterIndex_from refs index 0) as H.
    rewrite Nat.add_0_r in H. exact H. }
  split; [exact Hrefs|]. split.
  - intros Hlt. rewrite Hrefs, length_app, length_firstn, length_skipn. lia.
  - intros Hge.
    pose proof (filterIndex_from refs index 0) as H.
    rewrite Nat.add_0_r, firstn_all2, skipn_all2, app_nil_r in H by lia.
    unfold st', PromptFormHandlers.removeReference. fold refs. rewrite H.
    subst refs. destruct st. reflexivity.
Qed.

Lemma X15_remove_reference_witness :
  PromptForm.State.referenceImages
    (PromptFormHandlers.removeReference 1
       (Demo.styled [Sample.refA; Sample.refB; Sample.startImg]))
  = [Sample.refA; Sample.startImg]
  /\ PromptFormHandlers.removeReference 3
       (Demo.styled [Sample.refA; Sample.refB; Sample.startImg])
     = Demo.styled [Sample.refA; Sample.refB; Sample.startImg].
Proof.
  destruct (X15_remove_reference
              (Demo.styled [Sample.refA; Sample.refB; Sample.startImg]) 1)
    as (Hrefs & _).
  split; [exact Hrefs|].
  apply (X15_remove_reference
           (Demo.styled [Sample.refA; Sample.refB; Sample.startImg]) 3).
  cbn. lia.
Defined.

(** X16.  When the loop checkbox is offered and gets checked, the middle
    and end slots disappear, the button stays enabled, and the request
    uses the start frame both as [image] and as [config.lastFrame], with no
    reference image. *)
Theorem X16_looping_request (st : PromptForm.State.t) :
  PromptFormHandlers.showsLoopCheckbox st = true ->
  let looped := FormState.setIsLooping true st in
  PromptFormHandlers.showsFrameSlots looped = false
  /\ PromptForm.isSubmitDisabled looped = false
  /\ exists f payload,
       PromptForm.State.startFrame st = Some f
       /\ generateVideoPayload (PromptForm.handleSubmit looped) = Ok payload
       /\ Payload.image payload = Some (toImage f)
       /\ Config.lastFrame (Payload.config payload) = Some (toImage f)
       /\ Config.referenceImages (Payload.config payload) = None.
Proof.
  unfold PromptFormHandlers.showsLoopCheckbox.
  destruct st as [pr mo ar re gm sf mf ef ri si iv ivo lo]. cbn.
  destruct gm; try discriminate.
  destruct sf as [f|], ef, mf; try discriminate. intros _.
  split; [reflexivity|]. split; [reflexivity|].
  exists f. unfold generateVideoPayload. cbn.
  destruct (truthy pr); eexists; repeat split; reflexivity.
Qed.

Lemma X16_looping_request_witness :
  exists f payload,
    Some Sample.startImg = Some f
    /\ generateVideoPayload
         (PromptForm.handleSubmit
            (FormState.setIsLooping true
               (Sample.form FRAMES_TO_VIDEO "" (Some Sample.startImg) [] None)))
       = Ok payload
    /\ Payload.image payload = Some (toImage f)
    /\ Config.lastFrame (Payload.config payload) = Some (toImage f)
    /\ Config.referenceImages (Payload.config payload) = None.
Proof.
  exact (proj2 (proj2 (X16_looping_request
                         (Sample.form FRAMES_TO_VIDEO ""
                                      (Some Sample.startImg) [] None)
                         eq_refl))).
Defined.

(** X17.  The video file chosen in the upload slot is used by nothing:
    setting it neither opens nor closes the submit button in any mode, and
    the payload of a request does not depend on it. *)
Theorem X17_uploaded_video_is_unused :
  (forall st v,
      PromptForm.isSubmitDisabled (FormState.setInputVideo v st)
      = PromptForm.isSubmitDisabled st)
  /\ (forall p v,
        generateVideoPayload (Run.withInputVideo v p)
        = generateVideoPayload p).
Proof.
  split.
  - intros st v. destruct st. reflexivity.
  - intros p v. destruct p. reflexivity.
Qed.

(* ------------------------------------------------------------------ *)
(** * Reading uploaded files *)

Section UploadFacts.

Lemma commaFree_cons c s :
  Run.commaFree (c :: s) -> (c =? Strings.comma) = false /\ Run.commaFree s.
Proof.
  unfold Run.commaFree. cbn. intros H. apply andb_true_iff in H.
  destruct H as [Hc Hs]. apply negb_true_iff in Hc. auto.
Qed.

Lemma split_commaFree s :
  Run.commaFree s -> Strings.split Strings.comma s = [s].
Proof.
  induction s as [|c s IH]; [reflexivity|]. intros H.
  apply commaFree_cons in H. destruct H as [Hc Hs].
  cbn [Strings.split]. rewrite Hc, (IH Hs). reflexivity.
Qed.

Lemma split_header header rest :
  Run.commaFree header ->
  Strings.split Strings.comma (header ++ Strings.comma :: rest)
  = header :: Strings.split Strings.comma rest.
Proof.
  induction header as [|c h IH]; intros H.
  - cbn. reflexivity.
  - apply commaFree_cons in H. destruct H as [Hc Hh].
    cbn [app Strings.split]. rewrite Hc, (IH Hh). reflexivity.
Qed.

Lemma fileToBase64_resolves {T : Type} (make : File.t -> jsstring -> T)
    (readAsDataURL : File.t -> Try jsstring) (file : File.t)
    header c payload :
  readAsDataURL file = Ok (header ++ Strings.comma :: c :: payload) ->
  Run.commaFree header -> Run.commaFree (c :: payload) ->
  Upload.fileToBase64 make readAsDataURL file = Ok (make file (c :: payload)).
Proof.
  intros Hread Hh Hp. unfold Upload.fileToBase64. rewrite Hread.
  rewrite (split_header header _ Hh), (split_commaFree _ Hp). reflexivity.
Qed.

End UploadFacts.

(** X18.  [fileToBase64] resolves with the text between the first and
    the second comma of the data URL (or the end, without a second comma)
    and the file itself; it rejects with 'Failed to read file as base64.'
    when that text is empty or the data URL has no comma, and with the
    reader's error when the reader fails. *)
Theorem X18_fileToBase64
    {T : Type} (make : File.t -> jsstring -> T)
    (readAsDataURL : File.t -> Try jsstring) (file : File.t) :
  let failed := Err (Error (lit "Failed to read file as base64.")) in
  let answer payload :=
    match payload with [] => failed | _ :: _ => Ok (make file payload) end in
  (forall e, readAsDataURL file = Err e ->
             Upload.fileToBase64 make readAsDataURL file = Err e)
  /\ (forall result,
        readAsDataURL file = Ok result -> Run.commaFree result ->
        Upload.fileToBase64 make readAsDataURL file = failed)
  /\ (forall header payload,
        readAsDataURL file = Ok (header ++ Strings.comma :: payload) ->
        Run.commaFree header -> Run.commaFree payload ->
        Upload.fileToBase64 make readAsDataURL file = answer payload)
  /\ (forall header payload more,
        readAsDataURL file
        = Ok (header ++ Strings.comma :: payload ++ Strings.comma :: more) ->
        Run.commaFree header -> Run.commaFree payload ->
        Upload.fileToBase64 make readAsDataURL file = answer payload).
Proof.
  intros failed answer. unfold Upload.fileToBase64.
  split; [|split; [|split]].
  - intros e ->. reflexivity.
  - intros result -> Hfree. now rewrite (split_commaFree result Hfree).
  - intros header payload -> Hh Hp.
    rewrite (split_header header payload Hh), (split_commaFree payload Hp).
    cbn. destruct payload; reflexivity.
  - intros header payload more -> Hh Hp.
    rewrite (split_header header _ Hh), (split_header payload more Hp).
    cbn. destruct payload; reflexivity.
Qed.

Lemma X18_fileToBase64_witness :
  Upload.fileToImageFile
    (Demo.reader (Ok (lit "data:image/jpeg;base64,aGk="))) Demo.photo
  = Ok {| ImageFile.file := Demo.photo; ImageFile.base64 := lit "aGk=" |}
  /\ Upload.fileToImageFile (Demo.reader (Ok (lit "data:"))) Demo.photo
     = Err (Error (lit "Failed to read file as base64.")).
Proof.
  split.
  - exact (proj1 (proj2 (proj2 (X18_fileToBase64 Upload.imageFile
                     (Demo.reader (Ok (lit "data:image/jpeg;base64,aGk=")))
                     Demo.photo)))
             (lit "data:image/jpeg;base64") (lit "aGk=")
             eq_refl eq_refl eq_refl).
  - exact (proj1 (proj2 (X18_fileToBase64 Upload.imageFile
                     (Demo.reader (Ok (lit "data:"))) Demo.photo))
             (lit "data:") eq_refl eq_refl).
Defined.

(** X19.  Choosing a file for the start frame of a frames-to-video form:
    when the reader answers with a data URL, the button is enabled and the
    request's [image] holds the base64 text of the data URL with the MIME
    type of the file; when no file was chosen, or the file cannot be
    converted, the form is left as it was. *)
Theorem X19_uploaded_start_frame
    (readAsDataURL : File.t -> Try jsstring) (st : PromptForm.State.t) :
  let choose files :=
    Upload.handleFileChange (Upload.fileToImageFile readAsDataURL)
      (fun img => FormState.setStartFrame (Some img)) files st in
  (forall file others header c payload,
      PromptForm.State.generationMode st = FRAMES_TO_VIDEO ->
      readAsDataURL file = Ok (header ++ Strings.comma :: c :: payload) ->
      Run.commaFree header -> Run.commaFree (c :: payload) ->
      PromptForm.isSubmitDisabled (choose (Some (file :: others))) = false
      /\ exists p,
           generateVideoPayload
             (PromptForm.handleSubmit (choose (Some (file :: others)))) = Ok p
           /\ Payload.image p
              = Some {| Image.imageBytes := Text (c :: payload);
                        Image.mimeType := File.type file |})
  /\ choose None = st
  /\ choose (Some []) = st
  /\ (forall file others e,
        Upload.fileToImageFile readAsDataURL file = Err e ->
        choose (Some (file :: others)) = st).
Proof.
  intros choose. split; [|split; [|split]].
  - intros file others header c payload Hmode Hread Hh Hp.
    assert (Hconv : Upload.fileToImageFile readAsDataURL file
                    = Ok {| ImageFile.file := file;
                            ImageFile.base64 := Text (c :: payload) |}).
    { exact (fileToBase64_resolves Upload.imageFile readAsDataURL file
               header c payload Hread Hh Hp). }
    unfold choose, Upload.handleFileChange. rewrite Hconv.
    destruct st as [pr mo ar re gm sf mf ef ri si iv ivo lo].
    cbn in Hmode. subst gm. split; [reflexivity|].
    unfold generateVideoPayload. cbn.
    destruct (truthy pr), lo, ef, mf; eexists; split; reflexivity.
  - reflexivity.
  - reflexivity.
  - intros file others e He. unfold choose, Upload.handleFileChange.
    now rewrite He.
Qed.

Lemma X19_uploaded_start_frame_witness :
  exists p,
    generateVideoPayload
      (PromptForm.handleSubmit
         (Upload.handleFileChange
            (Upload.fileToImageFile
               (Demo.reader (Ok (lit "data:image/jpeg;base64,aGk="))))
            (fun img => FormState.setStartFrame (Some img))
            (Some [Demo.photo])
            (Sample.form FRAMES_TO_VIDEO "" None [] None))) = Ok p
    /\ Payload.image p
       = Some {| Image.imageBytes := lit "aGk=";
                 Image.mimeType := lit "image/jpeg" |}.
Proof.
  exact (proj2 (proj1 (X19_uploaded_start_frame
                         (Demo.reader (Ok (lit "data:image/jpeg;base64,aGk=")))
                         (Sample.form FRAMES_TO_VIDEO "" None [] None))
                      Demo.photo [] (lit "data:image/jpeg;base64")
                      97 (lit "Gk=") eq_refl eq_refl eq_refl eq_refl)).
Defined.

(* ------------------------------------------------------------------ *)
(** * The image dialog *)

Section DialogFacts.

Variable host : Host.t.

Lemma firstInlineImage_trace parts :
  trace (firstInlineImage parts) = []
  /\ completion (firstInlineImage parts) <> Pending.
Proof.
  induction parts as [|p parts IH]; cbn; [split; [reflexivity|discriminate]|].
  destruct (Part.inlineData p) as [d|]; [|exact IH].
  destruct (atob _); split; try reflexivity; discriminate.
Qed.

(** One request, whatever the answer, and the call always ends. *)
Lemma generateImage_run prompt aspectRatio :
  trace (generateImage host prompt aspectRatio)
  = [GenerateContent (imageRequest prompt aspectRatio)]
  /\ completion (generateImage host prompt aspectRatio) <> Pending.
Proof.
  unfold generateImage, await.
  destruct (Host.generateContent host _) as [response|e]; cbn [bind];
    [|split; [reflexivity|discriminate]].
  destruct (candidateParts response) as [parts|];
    [|split; [reflexivity|discriminate]].
  destruct (firstInlineImage_trace parts) as [Htr Hc].
  destruct (firstInlineImage parts) as [tr c]. cbn in *. subst tr.
  split; [reflexivity|exact Hc].
Qed.

(** The image returned for a first inline part that decodes. *)
Lemma generateImage_returns prompt aspectRatio response
    before part inline base64 after binary :
  Host.generateContent host (imageRequest prompt aspectRatio) = Ok response ->
  candidateParts response = Some (before ++ part :: after) ->
  existsb Spec.carriesInlineData before = false ->
  Part.inlineData part = Some inline ->
  InlineData.data inline = Text base64 ->
  atob base64 = Some binary ->
  completion (generateImage host prompt aspectRatio)
  = Return {| ImageFile.file :=
                {| File.name := lit "generated-image.png";
                   File.type := lit "image/png";
                   File.bytes := binary |};
              ImageFile.base64 := base64 |}.
Proof.
  intros Hresp Hparts Hbefore Hinline Hdata Hatob.
  unfold generateImage, await. rewrite Hresp. cbn [bind].
  rewrite Hparts, firstInlineImage_skip.
  - cbn. rewrite Hinline, Hdata. cbn [toText]. rewrite Hatob.
    unfold generatedFile. now rewrite (atob_bytes base64 binary Hatob).
  - now apply plain_before.
Qed.

Lemma orElse_nonempty a b : b <> [] -> orElse a b <> [].
Proof.
  intros Hb. unfold orElse. destruct a as [[|c s]|]; cbn; auto. discriminate.
Qed.

End DialogFacts.

(** X20.  The dialog sends nothing for a blank prompt and leaves its
    cells as they were.  For any other prompt, and so whenever its button
    is enabled, it makes one request, with the chosen aspect ratio and with
    the prompt prefixed by the chosen modifiers: the style, then the
    lighting, joined by a comma, and a full stop before the prompt; without
    modifiers the prompt goes as typed. *)
Theorem X20_dialog_request
    (host : Host.t) (describe : Exn -> option jsstring)
    (d : ImageGeneratorDialog.State.t) :
  (~ Spec.nonBlank (ImageGeneratorDialog.State.prompt d) ->
   ImageGeneratorDialog.handleGenerate host describe d
   = ([], {| ImageGeneratorDialog.Outcome.dialog := d;
             ImageGeneratorDialog.Outcome.delivered := None;
             ImageGeneratorDialog.Outcome.closed := false |}))
  /\ (Spec.nonBlank (ImageGeneratorDialog.State.prompt d) ->
      fst (ImageGeneratorDialog.handleGenerate host describe d)
      = [GenerateContent
           {| ContentRequest.model := lit "gemini-3-pro-image-preview";
              ContentRequest.prompt := ImageGeneratorDialog.finalPrompt d;
              ContentRequest.aspectRatio :=
                ImageGeneratorDialog.State.aspectRatio d;
              ContentRequest.imageSize := lit "1K" |}])
  /\ (ImageGeneratorDialog.isGenerateDisabled d = false ->
      Spec.nonBlank (ImageGeneratorDialog.State.prompt d))
  /\ ImageGeneratorDialog.finalPrompt d
     = match ImageGeneratorDialog.State.style d,
             ImageGeneratorDialog.State.lighting d with
       | [], [] => ImageGeneratorDialog.State.prompt d
       | c :: s, [] =>
           (c :: s) ++ lit ". " ++ ImageGeneratorDialog.State.prompt d
       | [], c :: l =>
           (c :: l) ++ lit ". " ++ ImageGeneratorDialog.State.prompt d
       | c :: s, c' :: l =>
           (c :: s) ++ lit ", " ++ (c' :: l) ++ lit ". "
             ++ ImageGeneratorDialog.State.prompt d
       end.
Proof.
  split; [|split; [|split]].
  - intros Hblank. apply not_trim_blank in Hblank.
    unfold ImageGeneratorDialog.handleGenerate. now rewrite Hblank.
  - intros Hnb. apply nonBlank_trim in Hnb.
    unfold ImageGeneratorDialog.handleGenerate. rewrite Hnb. cbn [negb].
    destruct (generateImage_run host (ImageGeneratorDialog.finalPrompt d)
                (Some (ImageGeneratorDialog.State.aspectRatio d)))
      as [Htr _].
    destruct (generateImage host _ _) as [tr [img|e|]];
      unfold trace in Htr; cbn [fst] in *; exact Htr.
  - unfold ImageGeneratorDialog.isGenerateDisabled. intros Hen.
    apply orb_false_iff in Hen. destruct Hen as [_ Hen].
    apply negb_false_iff in Hen. now apply nonBlank_trim.
  - unfold ImageGeneratorDialog.finalPrompt, ImageGeneratorDialog.modifiers.
    destruct (ImageGeneratorDialog.State.style d) as [|c s],
             (ImageGeneratorDialog.State.lighting d) as [|c' l];
      cbn; rewrite <- ?app_assoc; reflexivity.
Qed.

Lemma X20_dialog_request_witness :
  fst (ImageGeneratorDialog.handleGenerate
         (Sample.imageHost (Sample.answer [[Sample.inlinePart "aGk="]]))
         Demo.silent (Demo.dialog "a fox" "Anime style" "Golden hour, warm"))
  = [GenerateContent
       {| ContentRequest.model := lit "gemini-3-pro-image-preview";
          ContentRequest.prompt :=
            lit "Anime style, Golden hour, warm. a fox";
          ContentRequest.aspectRatio := lit "9:16";
          ContentRequest.imageSize := lit "1K" |}]
  /\ ImageGeneratorDialog.handleGenerate
       (Sample.imageHost (Sample.answer [[Sample.inlinePart "aGk="]]))
       Demo.silent (Demo.dialog "  " "Anime style" "")
     = ([], {| ImageGeneratorDialog.Outcome.dialog :=
                 Demo.dialog "  " "Anime style" "";
               ImageGeneratorDialog.Outcome.delivered := None;
               ImageGeneratorDialog.Outcome.closed := false |}).
Proof.
  split.
  - apply (X20_dialog_request
             (Sample.imageHost (Sample.answer [[Sample.inlinePart "aGk="]]))
             Demo.silent (Demo.dialog "a fox" "Anime style" "Golden hour, warm")).
    exists 97. split; [now left|reflexivity].
  - apply (X20_dialog_request
             (Sample.imageHost (Sample.answer [[Sample.inlinePart "aGk="]]))
             Demo.silent (Demo.dialog "  " "Anime style" "")).
    intros (c & Hin & Hc).
    destruct Hin as [<-|[<-|[]]]; discriminate.
Defined.

(** X21.  A run of the dialog for a non-blank prompt always ends with
    [loading] off.  When the image arrives it is handed over, the dialog
    is closed and no error is shown.  When the call throws, nothing is
    handed over, the dialog stays open and an error text is shown that is
    never empty: the message of the error, or 'Failed to generate image'
    when the message is missing or empty.  The typed prompt and the chosen
    options are kept. *)
Theorem X21_dialog_outcome
    (host : Host.t) (describe : Exn -> option jsstring)
    (d : ImageGeneratorDialog.State.t) :
  Spec.nonBlank (ImageGeneratorDialog.State.prompt d) ->
  let o := snd (ImageGeneratorDialog.handleGenerate host describe d) in
  let c := completion
             (generateImage host (ImageGeneratorDialog.finalPrompt d)
                (Some (ImageGeneratorDialog.State.aspectRatio d))) in
  let shown := ImageGeneratorDialog.State.error
                 (ImageGeneratorDialog.Outcome.dialog o) in
  ImageGeneratorDialog.State.loading (ImageGeneratorDialog.Outcome.dialog o)
  = false
  /\ ImageGeneratorDialog.State.prompt (ImageGeneratorDialog.Outcome.dialog o)
     = ImageGeneratorDialog.State.prompt d
  /\ (forall img, c = Return img ->
        ImageGeneratorDialog.Outcome.delivered o = Some img
        /\ ImageGeneratorDialog.Outcome.closed o = true
        /\ shown = None)
  /\ (forall e, c = Throw e ->
        ImageGeneratorDialog.Outcome.delivered o = None
        /\ ImageGeneratorDialog.Outcome.closed o = false
        /\ exists text, shown = Some text /\ text <> [])
  /\ (forall m, c = Throw (Error m) ->
        shown = Some match m with
                     | [] => lit "Failed to generate image"
                     | _ :: _ => m
                     end).
Proof.
  intros Hnb o c shown. apply nonBlank_trim in Hnb.
  subst shown o c. unfold ImageGeneratorDialog.handleGenerate. rewrite Hnb.
  cbn [negb].
  destruct (generateImage_run host (ImageGeneratorDialog.finalPrompt d)
              (Some (ImageGeneratorDialog.State.aspectRatio d)))
    as [_ Hends].
  unfold completion in *.
  destruct (generateImage host _ _) as [tr [img|e|]]; cbn [fst snd] in *.
  - split; [reflexivity|]. split; [reflexivity|]. split; [|split].
    + intros img' [= <-]. repeat split.
    + intros e' [=].
    + intros m [=].
  - split; [reflexivity|]. split; [reflexivity|]. split; [|split].
    + intros img' [=].
    + intros e' [= <-]. split; [reflexivity|]. split; [reflexivity|].
      eexists. split; [reflexivity|]. apply orElse_nonempty. discriminate.
    + intros m [= ->]. cbn. f_equal. now destruct m.
  - now elim Hends.
Qed.

Lemma X21_dialog_outcome_witness :
  ImageGeneratorDialog.State.error
    (ImageGeneratorDialog.Outcome.dialog
       (snd (ImageGeneratorDialog.handleGenerate
               (Sample.imageHost (Sample.answer [[Sample.textPart "sorry"]]))
               Demo.silent (Demo.dialog "a fox" "" ""))))
  = Some (lit "Response did not contain image data.").
Proof.
  exact (proj2 (proj2 (proj2 (proj2
           (X21_dialog_outcome
              (Sample.imageHost (Sample.answer [[Sample.textPart "sorry"]]))
              Demo.silent (Demo.dialog "a fox" "" "")
              (ex_intro _ 97 (conj (or_introl eq_refl) eq_refl))))))
           (lit "Response did not contain image data.") eq_refl).
Defined.

(** X22.  From the dialog to the video request.  With the dialog opened
    for the start frame of a frames-to-video form, a non-blank prompt and
    an answer whose first inline part decodes: the dialog is closed, the
    form's start frame is the generated PNG, looping is off, the button is
    enabled, and the video request carries the answer's base64 text as
    [image] with MIME type image/png. *)
Theorem X22_generated_start_frame
    (host : Host.t) (describe : Exn -> option jsstring)
    (d : ImageGeneratorDialog.State.t) (ui : PromptFormHandlers.Ui.t)
    (response : ContentResponse.t) (before after : list Part.t)
    (part : Part.t) (inline : InlineData.t) (base64 binary : jsstring) :
  PromptForm.State.generationMode (PromptFormHandlers.Ui.form ui)
  = FRAMES_TO_VIDEO ->
  PromptFormHandlers.Ui.imageGenTarget ui = PromptFormHandlers.TargetStart ->
  Spec.nonBlank (ImageGeneratorDialog.State.prompt d) ->
  Host.generateContent host
    (imageRequest (ImageGeneratorDialog.finalPrompt d)
                  (Some (ImageGeneratorDialog.State.aspectRatio d)))
  = Ok response ->
  candidateParts response = Some (before ++ part :: after) ->
  existsb Spec.carriesInlineData before = false ->
  Part.inlineData part = Some inline ->
  InlineData.data inline = Text base64 ->
  atob base64 = Some binary ->
  let after_run :=
    deliverToForm (snd (ImageGeneratorDialog.handleGenerate host describe d))
                  ui in
  let st' := PromptFormHandlers.Ui.form (fst after_run) in
  PromptFormHandlers.Ui.isImageGenOpen (fst after_run) = false
  /\ snd after_run = []
  /\ PromptForm.State.startFrame st'
     = Some {| ImageFile.file :=
                 {| File.name := lit "generated-image.png";
                    File.type := lit "image/png";
                    File.bytes := binary |};
               ImageFile.base64 := base64 |}
  /\ PromptForm.State.isLooping st' = false
  /\ PromptForm.isSubmitDisabled st' = false
  /\ exists payload,
       generateVideoPayload (PromptForm.handleSubmit st') = Ok payload
       /\ Payload.image payload
          = Some {| Image.imageBytes := base64;
                    Image.mimeType := lit "image/png" |}.
Proof.
  intros Hmode Htarget Hnb Hresp Hparts Hbefore Hinline Hdata Hatob.
  pose proof (generateImage_returns host _ _ response before part inline
                base64 after binary Hresp Hparts Hbefore Hinline Hdata Hatob)
    as Hret.
  apply nonBlank_trim in Hnb.
  intros after_run st'. subst st' after_run.
  unfold ImageGeneratorDialog.handleGenerate. rewrite Hnb. cbn [negb].
  unfold completion in Hret.
  destruct (generateImage host _ _) as [tr c]. cbn [snd] in Hret. subst c.
  cbn [snd]. unfold deliverToForm. cbn.
  unfold PromptFormHandlers.handleImageGenerated. rewrite Htarget.
  destruct ui as [st o1 o2 o3 tg].
  destruct st as [pr mo ar re gm sf mf ef ri si iv ivo lo].
  cbn in Hmode. subst gm. cbn.
  repeat (split; [reflexivity|]).
  unfold generateVideoPayload. cbn.
  destruct (truthy pr), ef, mf; eexists; split; reflexivity.
Qed.

Lemma X22_generated_start_frame_witness :
  exists payload,
    generateVideoPayload
      (PromptForm.handleSubmit
         (PromptFormHandlers.Ui.form
            (fst (deliverToForm
                    (snd (ImageGeneratorDialog.handleGenerate
                            (Sample.imageHost
                               (Sample.answer [[Sample.inlinePart "aGk="]]))
                            Demo.silent (Demo.dialog "a fox" "" "")))
                    (Demo.around
                       (Sample.form FRAMES_TO_VIDEO "" None [] None)
                       PromptFormHandlers.TargetStart)))))
    = Ok payload
    /\ Payload.image payload
       = Some {| Image.imageBytes := lit "aGk=";
                 Image.mimeType := lit "image/png" |}.
Proof.
  refine (proj2 (proj2 (proj2 (proj2 (proj2
            (X22_generated_start_frame
               (Sample.imageHost (Sample.answer [[Sample.inlinePart "aGk="]]))
               Demo.silent (Demo.dialog "a fox" "" "")
               (Demo.around (Sample.form FRAMES_TO_VIDEO "" None [] None)
                            PromptFormHandlers.TargetStart)
               _ [] [] (Sample.inlinePart "aGk=") _ (lit "aGk=") [104; 105]
               eq_refl eq_refl
               (ex_intro _ 97 (conj (or_introl eq_refl) eq_refl))
               eq_refl eq_refl eq_refl eq_refl eq_refl eq_refl)))))).
Defined.

(** X23.  Handing a generated image to the form never disables an
    enabled submit button and never changes the mode or the prompt.  With
    the download target the form is left as it is and one link named
    'generated-image.png' is clicked for the image's file; with every
    other target no link is clicked. *)
Theorem X23_generated_image_delivery
    (image : ImageFile.t) (ui : PromptFormHandlers.Ui.t) :
  let r := PromptFormHandlers.handleImageGenerated image ui in
  let st := PromptFormHandlers.Ui.form ui in
  let st' := PromptFormHandlers.Ui.form (fst r) in
  (PromptForm.isSubmitDisabled st = false ->
   PromptForm.isSubmitDisabled st' = false)
  /\ PromptForm.State.generationMode st' = PromptForm.State.generationMode st
  /\ PromptForm.State.prompt st' = PromptForm.State.prompt st
  /\ (PromptFormHandlers.Ui.imageGenTarget ui
      = PromptFormHandlers.TargetDownload ->
      r = (ui, [{| PromptFormHandlers.DownloadLink.file :=
                     ImageFile.file image;
                   PromptFormHandlers.DownloadLink.download :=
                     lit "generated-image.png" |}]))
  /\ (PromptFormHandlers.Ui.imageGenTarget ui
      <> PromptFormHandlers.TargetDownload -> snd r = []).
Proof.
  intros r st st'. subst st' st r.
  unfold PromptFormHandlers.handleImageGenerated.
  destruct ui as [st o1 o2 o3 tg].
  destruct st as [pr mo ar re gm sf mf ef ri si iv ivo lo].
  cbn [PromptFormHandlers.Ui.imageGenTarget PromptFormHandlers.Ui.form].
  split; [|split; [|split; [|split]]].
  - unfold PromptForm.isSubmitDisabled, PromptForm.submitGate.
    destruct tg, gm; cbn; try (intros H; exact H); try reflexivity.
    rewrite length_app. cbn. intros H.
    apply orb_false_iff in H. destruct H as [-> _]. cbn.
    destruct (List.length ri + 1)%nat eqn:Hlen; [lia|reflexivity].
  - destruct tg; reflexivity.
  - destruct tg; reflexivity.
  - cbn. intros ->. reflexivity.
  - destruct tg; cbn; try reflexivity. intros H. now elim H.
Qed.

Lemma X23_generated_image_delivery_witness :
  PromptFormHandlers.handleImageGenerated Sample.refA
    (Demo.around (Sample.form TEXT_TO_VIDEO "a cat" None [] None)
                 PromptFormHandlers.TargetDownload)
  = (Demo.around (Sample.form TEXT_TO_VIDEO "a cat" None [] None)
                 PromptFormHandlers.TargetDownload,
     [{| PromptFormHandlers.DownloadLink.file := ImageFile.file Sample.refA;
         PromptFormHandlers.DownloadLink.download :=
           lit "generated-image.png" |}]).
Proof.
  exact (proj1 (proj2 (proj2 (proj2
           (X23_generated_image_delivery Sample.refA
              (Demo.around (Sample.form TEXT_TO_VIDEO "a cat" None [] None)
                           PromptFormHandlers.TargetDownload)))))
           eq_refl).
Defined.
